(** * Online-Video-Audio-Downloader: the quality ranker, the request
      builder and the URL classifier of [downloader.py]

    A shallow embedding of the decision-making parts of [downloader.py]:
    [VideoDownloader.get_available_qualities] (the quality ranker),
    the menu labels printed by [display_qualities], the option dictionary
    built by [VideoDownloader.download_video] (the request builder) and
    [VideoDownloader.is_playlist] (the URL classifier).

    Modelling conventions.
    - A format description is a Python [dict] with string keys; it is a
      [gmap string pyval].  A key that is absent and a key bound to [None]
      are different things for [dict.get] with a default, and the model
      keeps them apart.
    - Python values that occur in the fields read by the code are [None],
      integers, floats and strings.  An [int] is unbounded ([Z]); a
      [float] is a binary64 number with its signed zeros, infinities and
      NaN, compared with integers by exact value and printed as [repr]
      prints it.
    - Strings are strings of ASCII characters: [str.upper], [str.lower]
      and [str.strip] are modelled on the codes below 128, and a property
      that depends on them is stated for ASCII text.
    - A Python exception is an explicit [Raise] result.
    - [quality_dict] is an insertion-ordered dictionary: an association
      list in which an assignment to an existing key keeps its position.
    - [sorted(..., reverse=True)] is a stable sort that only uses [<] on
      the keys; it is modelled by a stable insertion sort in the exception
      monad.  It is the list [sorted] returns whenever [<] orders the
      keys, which it does not when one of them is NaN.
    - The value model takes the catalog as a value.  The module [Store]
      runs the same code on a store of shared objects, with the catalog
      passed by reference and [quality_dict] allocated and assigned in the
      store; it is related to the value model by a refinement lemma. *)

From Stdlib Require Import ZArith String Ascii List QArith Qround.
From Stdlib Require Import Floats.SpecFloat.
From stdpp Require Import base gmap strings list fin_maps pretty sorting.

Open Scope string_scope.
Open Scope list_scope.
Open Scope Z_scope.

(** ** Floating-point numbers

    A Python [float] is an IEEE 754 binary64 number; it is a [spec_float]
    of the Standard Library: a signed zero, a signed infinity, NaN, or a
    finite number [m * 2^e] with its sign. *)

Definition prec : Z := 53.
Definition emax : Z := 1024.

(** The exact value of the finite number [m * 2^e], sign apart. *)
Definition dyadic (m : positive) (e : Z) : Q :=
  (inject_Z (Z.pos m) * Qpower 2 e)%Q.

Definition Qlt_bool (a b : Q) : bool := negb (Qle_bool b a).

(** A number as Python orders it: NaN, which is related to nothing, or a
    point of the extended rational line. *)
Inductive num :=
  | NNan
  | NNegInf
  | NFin (q : Q)
  | NPosInf.

Definition float_num (x : spec_float) : num :=
  match x with
  | S754_nan => NNan
  | S754_infinity s => if s then NNegInf else NPosInf
  | S754_zero _ => NFin 0
  | S754_finite s m e => NFin (if s then - dyadic m e else dyadic m e)
  end.

(** [a < b] and [a == b] on numbers; an [int] and a [float] are compared
    by their exact values. *)
Definition num_ltb (a b : num) : bool :=
  match a, b with
  | NNan, _ | _, NNan => false
  | NNegInf, NNegInf => false
  | NNegInf, _ => true
  | NFin _, NNegInf => false
  | NFin p, NFin q => Qlt_bool p q
  | NFin _, NPosInf => true
  | NPosInf, _ => false
  end.

Definition num_eqb (a b : num) : bool :=
  match a, b with
  | NNegInf, NNegInf | NPosInf, NPosInf => true
  | NFin p, NFin q => Qeq_bool p q
  | _, _ => false
  end.

(** *** [repr] of a float: the shortest decimal that rounds to it *)

Definition pow10 (p : Z) : Q := Qpower 10 p.

(** The decimal exponent [t] of a positive rational:
    [10^t <= v < 10^(t+1)]. *)
Fixpoint log10_up (fuel : nat) (v : Q) (t : Z) : Z :=
  match fuel with
  | O => t
  | S fuel' =>
      if Qle_bool (pow10 (t + 1)) v then log10_up fuel' v (t + 1) else t
  end.
Fixpoint log10_down (fuel : nat) (v : Q) (t : Z) : Z :=
  match fuel with
  | O => t
  | S fuel' => if Qle_bool (pow10 t) v then t else log10_down fuel' v (t - 1)
  end.
Definition log10_floor (v : Q) : Z :=
  if Qle_bool 1 v then log10_up 400 v 0 else log10_down 400 v (-1).

(** The reals that round to the double [m * 2^e]: those between the
    midpoints to its two neighbours, the midpoints included when [m] is
    even.  Below a power of two the lower neighbour is half as far. *)
Definition rounds_to (m : positive) (e : Z) (c : Q) : bool :=
  let v := dyadic m e in
  let up := Qpower 2 (e - 1) in
  let down := if (Z.pos m =? 2 ^ 52) && (-1074 <? e)
              then Qpower 2 (e - 2) else Qpower 2 (e - 1) in
  let lo := (v - down)%Q in
  let hi := (v + up)%Q in
  if Z.even (Z.pos m) then Qle_bool lo c && Qle_bool c hi
  else Qlt_bool lo c && Qlt_bool c hi.

(** The decimal of [k] significant digits nearest to the double that
    rounds to it, if there is one: its digits as an integer, and its
    exponent. *)
Definition nearest_decimal (m : positive) (e : Z) (t : Z) (k : Z)
    : option (Z * Z) :=
  let v := dyadic m e in
  let p := t - k + 1 in
  let d := Qfloor (v / pow10 p) in
  let c1 := (inject_Z d * pow10 p)%Q in
  let c2 := (inject_Z (d + 1) * pow10 p)%Q in
  let ok1 := rounds_to m e c1 && (0 <? d) in
  let ok2 := rounds_to m e c2 in
  if ok1 && ok2 then
    if Qle_bool (v - c1) (c2 - v) then Some (d, p) else Some (d + 1, p)
  else if ok1 then Some (d, p)
  else if ok2 then Some (d + 1, p)
  else None.

(** Seventeen digits always suffice. *)
Fixpoint shortest_from (fuel : nat) (m : positive) (e : Z) (t : Z) (k : Z)
    : Z * Z :=
  match fuel with
  | O => (Z.pos m, e)
  | S fuel' =>
      match nearest_decimal m e t k with
      | Some r => r
      | None => shortest_from fuel' m e t (k + 1)
      end
  end.

(** Trailing zeros of the digits go to the exponent. *)
Fixpoint strip_zeros (fuel : nat) (d p : Z) : Z * Z :=
  match fuel with
  | O => (d, p)
  | S fuel' => if (d mod 10 =? 0) && negb (d =? 0)
               then strip_zeros fuel' (d / 10) (p + 1) else (d, p)
  end.

Definition shortest_digits (m : positive) (e : Z) : Z * Z :=
  let '(d, p) := shortest_from 17 m e (log10_floor (dyadic m e)) 1 in
  strip_zeros 400 d p.

Fixpoint zeros (n : nat) : string :=
  match n with
  | O => ""
  | S n' => String "0" (zeros n')
  end.

Fixpoint str_take (n : nat) (s : string) : string :=
  match n, s with
  | S n', String c s' => String c (str_take n' s')
  | _, _ => ""
  end.
Fixpoint str_drop (n : nat) (s : string) : string :=
  match n, s with
  | S n', String _ s' => str_drop n' s'
  | _, _ => s
  end.

(** The digits laid out as [repr] does: scientific notation when the
    decimal point would stand more than 16 places right or more than 3
    places left of the first digit. *)
Definition repr_pos (m : positive) (e : Z) : string :=
  let '(d, p) := shortest_digits m e in
  let ds := pretty d in
  let n := Z.of_nat (String.length ds) in
  let decpt := n + p in
  if (decpt <=? -4) || (16 <? decpt) then
    let x := decpt - 1 in
    let mant := if n =? 1 then ds
                else str_take 1 ds +:+ "." +:+ str_drop 1 ds in
    mant +:+ "e" +:+ (if x <? 0 then "-" else "+") +:+
    (if Z.abs x <? 10 then "0" else "") +:+ pretty (Z.abs x)
  else if decpt <=? 0 then "0." +:+ zeros (Z.to_nat (- decpt)) +:+ ds
  else if decpt <? n then
    str_take (Z.to_nat decpt) ds +:+ "." +:+ str_drop (Z.to_nat decpt) ds
  else ds +:+ zeros (Z.to_nat (decpt - n)) +:+ ".0".

(** [repr(x)], which is also [str(x)] and what an f-string prints *)
Definition float_repr (x : spec_float) : string :=
  match x with
  | S754_nan => "nan"
  | S754_infinity s => if s then "-inf" else "inf"
  | S754_zero s => if s then "-0.0" else "0.0"
  | S754_finite s m e => (if s then "-" else "") +:+ repr_pos m e
  end.

(** Rounding of a non-negative rational to the nearest integer, ties to
    even. *)
Definition Qround_half_even (q : Q) : Z :=
  let d := Qfloor q in
  match Qcompare (q - inject_Z d) (1 # 2) with
  | Lt => d
  | Gt => d + 1
  | Eq => if Z.even d then d else d + 1
  end.

(** [format(x, '.1f')]: the exact value rounded to one decimal. *)
Definition float_fixed1 (x : spec_float) : string :=
  match x with
  | S754_nan => "nan"
  | S754_infinity s => if s then "-inf" else "inf"
  | S754_zero s => if s then "-0.0" else "0.0"
  | S754_finite s m e =>
      let tenths := Qround_half_even (dyadic m e * 10) in
      (if s then "-" else "") +:+
      pretty (tenths / 10) +:+ "." +:+ pretty (tenths mod 10)
  end.

(** ** Python values and exceptions *)

Inductive pyval :=
  | PNone
  | PInt (n : Z)
  | PStr (s : string)
  | PFloat (x : spec_float).

Global Instance spec_float_eq_dec : EqDecision spec_float.
Proof. solve_decision. Defined.
Global Instance pyval_eq_dec : EqDecision pyval.
Proof. solve_decision. Defined.

Inductive pyexc := TypeError | AttributeError | OverflowError.

Inductive result (A : Type) :=
  | Ok (a : A)
  | Raise (e : pyexc).
Arguments Ok {A} a.
Arguments Raise {A} e.

Global Instance result_ret : MRet result := λ A a, Ok a.
Global Instance result_bind : MBind result := λ A B k m,
  match m with
  | Ok a => k a
  | Raise e => Raise e
  end.
Global Instance result_fmap : FMap result := λ A B g m,
  match m with
  | Ok a => Ok (g a)
  | Raise e => Raise e
  end.

(** Monadic left fold: the body of a [for] loop that threads its local
    state and may raise. *)
Fixpoint foldM {A S : Type} (step : S → A → result S) (s : S) (l : list A)
    : result S :=
  match l with
  | [] => Ok s
  | x :: l' => s' ← step s x; foldM step s' l'
  end.

(** The number a value is, if it is one. *)
Definition py_num (v : pyval) : option num :=
  match v with
  | PInt n => Some (NFin (inject_Z n))
  | PFloat x => Some (float_num x)
  | _ => None
  end.

(** [bool(v)]: of the floats only the two zeros are false. *)
Definition truthy (v : pyval) : bool :=
  match v with
  | PNone => false
  | PInt n => negb (n =? 0)
  | PStr s => negb (String.eqb s "")
  | PFloat (S754_zero _) => false
  | PFloat _ => true
  end.

(** [a or b] *)
Definition py_or (a b : pyval) : pyval := if truthy a then a else b.

(** [str(v)], as used by f-strings *)
Definition py_str (v : pyval) : string :=
  match v with
  | PNone => "None"
  | PInt n => pretty n
  | PStr s => s
  | PFloat x => float_repr x
  end.

(** [a == b] and [a != b]: numbers by value, so that [30 == 30.0] and NaN
    differs from itself; anything else by identity of the value. *)
Definition py_eq (a b : pyval) : bool :=
  match a, b with
  | PFloat x, PFloat y => num_eqb (float_num x) (float_num y)
  | PFloat x, PInt n => num_eqb (float_num x) (NFin (inject_Z n))
  | PInt n, PFloat x => num_eqb (NFin (inject_Z n)) (float_num x)
  | _, _ => bool_decide (a = b)
  end.
Definition py_ne (a b : pyval) : bool := negb (py_eq a b).

(** [a < b] and [a > b]: numbers by value, strings lexicographically,
    anything else is a [TypeError]. *)
Definition py_lt (a b : pyval) : result bool :=
  match a, b with
  | PInt x, PInt y => Ok (x <? y)
  | PStr s, PStr t => Ok (String.ltb s t)
  | PInt x, PFloat y => Ok (num_ltb (NFin (inject_Z x)) (float_num y))
  | PFloat x, PInt y => Ok (num_ltb (float_num x) (NFin (inject_Z y)))
  | PFloat x, PFloat y => Ok (num_ltb (float_num x) (float_num y))
  | _, _ => Raise TypeError
  end.
Definition py_gt (a b : pyval) : result bool := py_lt b a.

(** [(a1, a2) < (b1, b2)]: the first position where the two tuples differ
    (by [==]) decides. *)
Definition tuple_lt (a b : pyval * pyval) : result bool :=
  if py_eq a.1 b.1 then
    if py_eq a.2 b.2 then Ok false else py_lt a.2 b.2
  else py_lt a.1 b.1.

(** ** Strings *)

Definition upper_ascii (c : ascii) : ascii :=
  let n := N_of_ascii c in
  if ((97 <=? n) && (n <=? 122))%N then ascii_of_N (n - 32) else c.

Definition lower_ascii (c : ascii) : ascii :=
  let n := N_of_ascii c in
  if ((65 <=? n) && (n <=? 90))%N then ascii_of_N (n + 32) else c.

Fixpoint str_map (g : ascii → ascii) (s : string) : string :=
  match s with
  | EmptyString => EmptyString
  | String c s' => String (g c) (str_map g s')
  end.

Definition str_upper : string → string := str_map upper_ascii.
Definition str_lower : string → string := str_map lower_ascii.

(** [s.split('.')[0]] *)
Fixpoint split_dot_first (s : string) : string :=
  match s with
  | EmptyString => EmptyString
  | String c s' =>
      if Ascii.eqb c "." then EmptyString else String c (split_dot_first s')
  end.

(** [needle in hay] *)
Fixpoint str_contains (needle hay : string) : bool :=
  String.prefix needle hay ||
  match hay with
  | EmptyString => false
  | String _ hay' => str_contains needle hay'
  end.

(** [v.split('.')[0]]: only strings have [split]. *)
Definition py_split_first (v : pyval) : result string :=
  match v with
  | PStr s => Ok (split_dot_first s)
  | _ => Raise AttributeError
  end.

(** [v.upper()] *)
Definition py_upper (v : pyval) : result string :=
  match v with
  | PStr s => Ok (str_upper s)
  | _ => Raise AttributeError
  end.

(** ** Format dictionaries *)

Abbreviation fmt := (gmap string pyval).

(** [d.get(k)] and [d.get(k, dflt)] *)
Definition dict_get (d : fmt) (k : string) : pyval := default PNone (d !! k).
Definition dict_get_or (d : fmt) (k : string) (dflt : pyval) : pyval :=
  default dflt (d !! k).

(** The [info] argument: [None], or a dictionary whose ['formats'] entry,
    when present, is a list of format dictionaries. *)
Inductive info :=
  | InfoNone
  | InfoDict (formats : option (list fmt)).

(** ** Insertion-ordered dictionaries *)

Section qdict.
Context {V : Type}.

Fixpoint qd_lookup (k : string) (qd : list (string * V)) : option V :=
  match qd with
  | [] => None
  | (k', v) :: qd' => if String.eqb k k' then Some v else qd_lookup k qd'
  end.

(** [qd[k] = v]: a present key keeps its position, a new key goes last. *)
Fixpoint qd_set (k : string) (v : V) (qd : list (string * V))
    : list (string * V) :=
  match qd with
  | [] => [(k, v)]
  | (k', v') :: qd' =>
      if String.eqb k k' then (k, v) :: qd' else (k', v') :: qd_set k v qd'
  end.

End qdict.

(** ** [sorted(l, key=key, reverse=True)] *)

Section py_sorted.
Context {A K : Type} (lt : K → K → result bool) (key : A → K).

(** [x] stood to the left of every element of [l]: it goes before the
    first element whose key is not greater than its own. *)
Fixpoint insert_rev (x : A) (l : list A) : result (list A) :=
  match l with
  | [] => Ok [x]
  | y :: l' =>
      b ← lt (key x) (key y);
      if b : bool then l'' ← insert_rev x l'; Ok (y :: l'')
      else Ok (x :: y :: l')
  end.

Fixpoint py_sorted_rev (l : list A) : result (list A) :=
  match l with
  | [] => Ok []
  | x :: l' => s ← py_sorted_rev l'; insert_rev x s
  end.

End py_sorted.

(** ** The quality ranker: [get_available_qualities] *)

(** The values of [quality_dict] in the video branch. *)
Record entry := Entry {
  e_format : fmt;
  e_display : string;
  e_height : pyval;
  e_fps : pyval;
  e_codec : string
}.

(** [fmt.get('vcodec', '').split('.')[0]] *)
Definition fmt_vcodec (f : fmt) : result string :=
  py_split_first (dict_get_or f "vcodec" (PStr "")).

(** [vcodec in ['vp9', 'av01']] *)
Definition is_premium (vcodec : string) : bool :=
  String.eqb vcodec "vp9" || String.eqb vcodec "av01".

(** [fps and fps > 30] as a condition *)
Definition fps_above_30 (fps : pyval) : result bool :=
  if truthy fps then py_gt fps (PInt 30) else Ok false.

(** The label [quality] of the video branch. *)
Definition fmt_quality (f : fmt) : result string :=
  let height := dict_get f "height" in
  let fps := dict_get_or f "fps" (PInt 30) in
  hi ← fps_above_30 fps;
  Ok (if hi : bool then py_str height +:+ "p" +:+ py_str fps
      else py_str height +:+ "p").

Definition tier_suffix (premium : bool) : string :=
  if premium then "_premium" else "_standard".

(** [fmt.get('tbr', 0)] *)
Definition fmt_tbr (f : fmt) : pyval := dict_get_or f "tbr" (PInt 0).

(** One iteration of the video loop over [all_formats]. *)
Definition video_step (quality_dict : list (string * entry)) (f : fmt)
    : result (list (string * entry)) :=
  let height := dict_get f "height" in
  let fps := dict_get_or f "fps" (PInt 30) in
  vcodec ← fmt_vcodec f;
  if truthy height then
    quality ← fmt_quality f;
    let quality_key := quality +:+ tier_suffix (is_premium vcodec) in
    let e := {| e_format := f; e_display := quality; e_height := height;
                e_fps := py_or fps (PInt 30); e_codec := vcodec |} in
    match qd_lookup quality_key quality_dict with
    | None => Ok (qd_set quality_key e quality_dict)
    | Some cur =>
        better ← py_gt (fmt_tbr f) (fmt_tbr (e_format cur));
        Ok (if better : bool then qd_set quality_key e quality_dict
            else quality_dict)
    end
  else Ok quality_dict.

(** The two comprehensions of the video branch. *)
Definition is_video_format (f : fmt) : bool :=
  py_ne (dict_get f "vcodec") (PStr "none") && truthy (dict_get f "height").
Definition is_combined_format (f : fmt) : bool :=
  py_ne (dict_get f "vcodec") (PStr "none") &&
  py_ne (dict_get f "acodec") (PStr "none") &&
  truthy (dict_get f "height").

Definition video_formats (formats : list fmt) : list fmt :=
  List.filter is_video_format formats.
Definition combined_formats (formats : list fmt) : list fmt :=
  List.filter is_combined_format formats.
Definition all_formats (formats : list fmt) : list fmt :=
  video_formats formats ++ combined_formats formats.

(** The sort key [(x['height'], x['fps'])]. *)
Definition entry_key (e : entry) : pyval * pyval := (e_height e, e_fps e).

Definition video_qualities (formats : list fmt)
    : result (list (string * fmt)) :=
  quality_dict ← foldM video_step [] (all_formats formats);
  sorted_qualities ← py_sorted_rev tuple_lt entry_key quality_dict.*2;
  Ok (List.map (λ q, (e_display q, e_format q)) sorted_qualities).

(** The two comprehensions of the audio branch. *)
Definition is_audio_only (f : fmt) : bool :=
  py_ne (dict_get f "acodec") (PStr "none") &&
  py_eq (dict_get f "vcodec") (PStr "none").
Definition has_audio (f : fmt) : bool :=
  py_ne (dict_get f "acodec") (PStr "none").

Definition audio_formats (formats : list fmt) : list fmt :=
  match List.filter is_audio_only formats with
  | [] => List.filter has_audio formats
  | fs => fs
  end.

(** [v > 0] for a number [v] *)
Definition is_positive (v : pyval) : bool :=
  match py_num v with
  | Some n => num_ltb (NFin 0) n
  | None => false
  end.

(** [v if isinstance(v, (int, float)) and v > 0 else 0] *)
Definition safe_number (v : pyval) : pyval :=
  if is_positive v then v else PInt 0.

(** [safe_abr] of a format: [fmt.get('abr') or 0], made safe. *)
Definition fmt_safe_abr (f : fmt) : pyval :=
  safe_number (py_or (dict_get f "abr") (PInt 0)).

(** [a > b] for two safe numbers: they are numbers, so nothing is
    raised. *)
Definition safe_gt (a b : pyval) : bool :=
  match py_num b, py_num a with
  | Some y, Some x => num_ltb y x
  | _, _ => false
  end.

(** The label [quality] of the audio branch. *)
Definition audio_quality (f : fmt) : result string :=
  let ext := dict_get_or f "ext" (PStr "unknown") in
  let acodec := dict_get_or f "acodec" (PStr "unknown") in
  let safe_abr := fmt_safe_abr f in
  EXT ← py_upper ext;
  Ok (if is_positive safe_abr
      then EXT +:+ " - " +:+ py_str safe_abr +:+ "kbps (" +:+ py_str acodec +:+ ")"
      else EXT +:+ " (" +:+ py_str acodec +:+ ")").

(** One iteration of the audio loop. *)
Definition audio_step (quality_dict : list (string * fmt)) (f : fmt)
    : result (list (string * fmt)) :=
  let safe_abr := fmt_safe_abr f in
  quality ← audio_quality f;
  match qd_lookup quality quality_dict with
  | None => Ok (qd_set quality f quality_dict)
  | Some cur =>
      let current_safe_abr := fmt_safe_abr cur in
      Ok (if safe_gt safe_abr current_safe_abr
          then qd_set quality f quality_dict
          else quality_dict)
  end.

(** The sort key of the audio branch:
    [(abr or 0) if isinstance(abr, (int, float)) else 0]. *)
Definition audio_key (q : string * fmt) : pyval :=
  match dict_get q.2 "abr" with
  | PInt n => py_or (PInt n) (PInt 0)
  | PFloat x => py_or (PFloat x) (PInt 0)
  | _ => PInt 0
  end.

Definition audio_qualities (formats : list fmt)
    : result (list (string * fmt)) :=
  quality_dict ← foldM audio_step [] (audio_formats formats);
  py_sorted_rev py_lt audio_key quality_dict.

Definition get_available_qualities (i : info) (download_type : Z)
    : result (list (string * fmt)) :=
  match i with
  | InfoNone => Ok []
  | InfoDict None => Ok []
  | InfoDict (Some formats) =>
      if bool_decide (download_type = 1 ∨ download_type = 3)
      then video_qualities formats
      else if bool_decide (download_type = 2 ∨ download_type = 4)
      then audio_qualities formats
      else Ok []
  end.

(** ** The menu of [display_qualities] *)

(** [2^20] as a float *)
Definition mib : spec_float := S754_finite false (2 ^ 52) (-32).

(** [filesize / (1024 * 1024)].  The quotient of two integers is the
    double nearest to the exact quotient, and an [OverflowError] when that
    is out of range; a float is divided by the divisor as a float. *)
Definition size_mb (filesize : pyval) : result spec_float :=
  match filesize with
  | PInt n =>
      match binary_normalize prec emax n (-20) false with
      | S754_infinity _ => Raise OverflowError
      | x => Ok x
      end
  | PFloat x => Ok (SFdiv prec emax x mib)
  | _ => Raise TypeError
  end.

(** [f"{size_mb:.1f}"] *)
Definition format_size_mb (filesize : pyval) : result string :=
  size_mb ← size_mb filesize; Ok (float_fixed1 size_mb).

(** The text of one video line after its number:
    [f"{quality_info}{size_info}"]. *)
Definition video_label (q : string * fmt) : result string :=
  let quality := q.1 in
  let f := q.2 in
  codec_info ← py_split_first (dict_get_or f "vcodec" (PStr "unknown"));
  let fps := dict_get f "fps" in
  hi ← fps_above_30 fps;
  let fps_info := if hi : bool then " " +:+ py_str fps +:+ "fps" else "" in
  let quality_info :=
    quality +:+ fps_info +:+
    (if is_premium codec_info then " (Premium)" else "") in
  let filesize := py_or (dict_get f "filesize") (dict_get f "filesize_approx") in
  size_info ←
    (if truthy filesize then
       size_mb ← format_size_mb filesize;
       Ok (" (~" +:+ size_mb +:+ "MB)")
     else Ok "");
  Ok (quality_info +:+ size_info).

Fixpoint mapM {A B : Type} (g : A → result B) (l : list A)
    : result (list B) :=
  match l with
  | [] => Ok []
  | x :: l' => y ← g x; ys ← mapM g l'; Ok (y :: ys)
  end.

(** The options as [display_qualities] words them, in menu order. *)
Definition display_labels (qualities : list (string * fmt))
    (download_type : Z) : result (list string) :=
  if bool_decide (download_type = 1 ∨ download_type = 3)
  then mapM video_label qualities
  else Ok qualities.*1.

(** The printed lines [f"{i}. {label}"], numbered from 1. *)
Definition display_lines (qualities : list (string * fmt))
    (download_type : Z) : result (list string) :=
  labels ← display_labels qualities download_type;
  Ok (imap (λ i label, pretty (Z.of_nat (S i)) +:+ ". " +:+ label) labels).

(** ** The request builder: the options of [download_video] *)

Record postprocessor := Postprocessor {
  pp_key : string;
  pp_preferredcodec : string;
  pp_preferredquality : string
}.

Record ydl_opts := YdlOpts {
  o_format : string;
  o_outtmpl : string;
  o_merge_output_format : option string;
  o_postprocessors : list postprocessor
}.

(** The body of the [try] is [return "1080"]; it cannot raise, so the
    handler that returns ["720"] is never entered. *)
Definition extract_height_from_format_id (format_id : pyval) : string :=
  "1080".

(** [str(output_path / rel)] for a relative [rel], [output_path] being
    given by its own [str]: the empty path is ["."], and the roots ["/"]
    and ["//"] end in their separator. *)
Definition path_join (output_path rel : string) : string :=
  if String.eqb output_path "." then rel
  else if String.eqb output_path "/" then "/" +:+ rel
  else if String.eqb output_path "//" then "//" +:+ rel
  else output_path +:+ "/" +:+ rel.

Definition download_path : string := "downloads".

Definition mp3_extractor : postprocessor :=
  {| pp_key := "FFmpegExtractAudio"; pp_preferredcodec := "mp3";
     pp_preferredquality := "192" |}.

(** [ydl_opts] as [download_video] binds it; [None] when no branch of the
    [if] chain does. *)
Definition download_video_opts (format_id : pyval) (download_type : Z)
    (output_path : option string) : option ydl_opts :=
  let output_path := default download_path output_path in
  if download_type =? 1 then
    Some {| o_format := py_str format_id +:+ "+bestaudio[ext=m4a]/best[height<="
                        +:+ extract_height_from_format_id format_id +:+ "]";
            o_outtmpl := path_join output_path "%(title)s.%(ext)s";
            o_merge_output_format := Some "mp4";
            o_postprocessors := [] |}
  else if download_type =? 2 then
    Some {| o_format := py_str format_id +:+ "/bestaudio";
            o_outtmpl := path_join output_path "%(title)s.%(ext)s";
            o_merge_output_format := None;
            o_postprocessors := [mp3_extractor] |}
  else if download_type =? 3 then
    Some {| o_format := py_str format_id +:+ "+bestaudio[ext=m4a]/best[height<="
                        +:+ extract_height_from_format_id format_id +:+ "]";
            o_outtmpl := path_join output_path "%(playlist)s/%(title)s.%(ext)s";
            o_merge_output_format := Some "mp4";
            o_postprocessors := [] |}
  else if download_type =? 4 then
    Some {| o_format := py_str format_id +:+ "/bestaudio";
            o_outtmpl := path_join output_path "%(playlist)s/%(title)s.%(ext)s";
            o_merge_output_format := None;
            o_postprocessors := [mp3_extractor] |}
  else None.

(** ** The URL classifier: [is_playlist] *)

Definition playlist_indicators : list string :=
  ["playlist"; "list="; "album"; "channel"].

Definition is_playlist (url : string) : bool :=
  existsb (λ indicator, str_contains indicator (str_lower url))
          playlist_indicators.

(** * Talking to the user and to the engine *)

(** ** Whitespace *)

(** [c.isspace()] on the ASCII range: tab to carriage return, the four
    separators 28 to 31 and the space. *)
Definition is_space (c : ascii) : bool :=
  let n := N_of_ascii c in
  ((9 <=? n) && (n <=? 13) || (28 <=? n) && (n <=? 32))%N.

Fixpoint str_lstrip (s : string) : string :=
  match s with
  | EmptyString => EmptyString
  | String c s' => if is_space c then str_lstrip s' else s
  end.

Fixpoint str_rstrip (s : string) : string :=
  match s with
  | EmptyString => EmptyString
  | String c s' =>
      let r := str_rstrip s' in
      if is_space c && String.eqb r "" then EmptyString else String c r
  end.

(** [s.strip()] *)
Definition str_strip (s : string) : string := str_rstrip (str_lstrip s).

(** ** Interaction *)

(** What leaves a function that talks to the user: a value, or an
    exception nothing in the function catches. *)
Inductive raised :=
  | Raised (e : pyexc)
  | KeyError
  | EOFError.

Inductive outcome (A : Type) :=
  | Returns (a : A)
  | Propagates (e : raised).
Arguments Returns {A} a.
Arguments Propagates {A} e.

(** [get_url_input]: [lines] are the lines [input] reads, in order; the
    lines that are left are returned with the outcome.  [None] is the
    return value for ['back']. *)
Fixpoint get_url_input (lines : list string)
    : outcome (option string) * list string :=
  match lines with
  | [] => (Propagates EOFError, [])
  | line :: rest =>
      let url := str_strip line in
      if String.eqb (str_lower url) "back" then (Returns None, rest)
      else if negb (String.eqb url "") then (Returns (Some url), rest)
      else get_url_input rest
  end.

(** The prompt loop of [display_qualities].  An answer is what
    [int(input(...))] evaluates to, [None] when [int] raises
    [ValueError]. *)
Fixpoint select_quality (qualities : list (string * fmt))
    (answers : list (option Z)) : outcome pyval * list (option Z) :=
  match answers with
  | [] => (Propagates EOFError, [])
  | None :: rest => select_quality qualities rest
  | Some choice :: rest =>
      if choice =? 0 then (Returns PNone, rest)
      else if (1 <=? choice) && (choice <=? Z.of_nat (length qualities)) then
        match (qualities !!! Z.to_nat (choice - 1)).2 !! "format_id" with
        | Some format_id => (Returns format_id, rest)
        | None => (Propagates KeyError, rest)
        end
      else select_quality qualities rest
  end.

(** [display_qualities]: nothing is read when there is nothing to offer;
    the menu is printed, which can raise, before the first prompt. *)
Definition display_qualities (qualities : list (string * fmt))
    (download_type : Z) (answers : list (option Z))
    : outcome pyval * list (option Z) :=
  match qualities with
  | [] => (Returns PNone, answers)
  | _ =>
      match display_labels qualities download_type with
      | Raise e => (Propagates (Raised e), answers)
      | Ok _ => select_quality qualities answers
      end
  end.

(** The two checks of [main] on the URL: a playlist URL is refused for
    the choices 1 and 2, any other URL for the choices 3 and 4. *)
Definition url_matches_choice (choice : Z) (url : string) : bool :=
  if bool_decide (choice = 1 ∨ choice = 2) && is_playlist url then false
  else if bool_decide (choice = 3 ∨ choice = 4) && negb (is_playlist url)
  then false
  else true.

(** What [main] does with the catalog of the sample video. *)
Inductive action :=
  | BackToMenu
  | StartDownload (format_id : pyval).

(** [main], from the ranking to the call of [download_video]:
    [if not qualities: continue], [if not format_id: continue]. *)
Definition choose_format (sample_info : info) (choice : Z)
    (answers : list (option Z)) : outcome action * list (option Z) :=
  match get_available_qualities sample_info choice with
  | Raise e => (Propagates (Raised e), answers)
  | Ok [] => (Returns BackToMenu, answers)
  | Ok qualities =>
      match display_qualities qualities choice answers with
      | (Returns format_id, rest) =>
          if truthy format_id then (Returns (StartDownload format_id), rest)
          else (Returns BackToMenu, rest)
      | (Propagates e, rest) => (Propagates e, rest)
      end
  end.

(** * The ranker on a store of objects

    [get_available_qualities] receives a reference to the [info]
    dictionary; the format dictionaries are shared objects, and the result
    holds references to them.  The model below runs the ranker on a store:
    the catalog lives in it, [quality_dict] is allocated in it, and the
    assignment [quality_dict[k] = v] is a write to it. *)

Module Store.

(** A location is an index of the store. *)
Abbreviation loc := nat.

(** The values of [quality_dict] in the video branch; ['format'] is a
    reference. *)
Record hentry := HEntry {
  he_format : loc;
  he_display : string;
  he_height : pyval;
  he_fps : pyval;
  he_codec : string
}.

Inductive obj :=
  | OFormat (d : fmt)
  | OFormats (ls : list loc)
  | OInfo (formats : option loc)
  | OVideoDict (qd : list (string * hentry))
  | OAudioDict (qd : list (string * loc)).

(** A store is the sequence of the objects allocated so far; a location is
    an index in it. *)
Abbreviation store := (list obj).

(** Computations that read and write the store and may raise. *)
Definition M (A : Type) : Type := store → result A * store.

Definition ret {A : Type} (a : A) : M A := λ h, (Ok a, h).
Definition bind {A B : Type} (k : A → M B) (m : M A) : M B := λ h,
  match m h with
  | (Ok a, h') => k a h'
  | (Raise e, h') => (Raise e, h')
  end.
Definition lift {A : Type} (r : result A) : M A := λ h, (r, h).

Global Instance M_ret : MRet M := @ret.
Global Instance M_bind : MBind M := @bind.

Definition alloc (o : obj) : M loc := λ h, (Ok (length h), h ++ [o]).
Definition store_at (l : loc) (o : obj) : M unit := λ h, (Ok tt, <[l := o]> h).

(** Reading an object as a dictionary of a given kind; anything else has
    no [get]. *)
Definition load_format (l : loc) : M fmt := λ h,
  match h !! l with
  | Some (OFormat d) => (Ok d, h)
  | _ => (Raise AttributeError, h)
  end.
Definition load_formats (l : loc) : M (list loc) := λ h,
  match h !! l with
  | Some (OFormats ls) => (Ok ls, h)
  | _ => (Raise TypeError, h)
  end.
Definition load_video_dict (l : loc) : M (list (string * hentry)) := λ h,
  match h !! l with
  | Some (OVideoDict qd) => (Ok qd, h)
  | _ => (Raise TypeError, h)
  end.
Definition load_audio_dict (l : loc) : M (list (string * loc)) := λ h,
  match h !! l with
  | Some (OAudioDict qd) => (Ok qd, h)
  | _ => (Raise TypeError, h)
  end.

(** A [for] loop over references. *)
Fixpoint for_each (body : loc → M unit) (ls : list loc) : M unit :=
  match ls with
  | [] => ret tt
  | l :: ls' => body l;; for_each body ls'
  end.

(** A comprehension [[f for f in ls if cond(f)]]. *)
Fixpoint comprehension (cond : fmt → bool) (ls : list loc) : M (list loc) :=
  match ls with
  | [] => ret []
  | l :: ls' =>
      d ← load_format l;
      rest ← comprehension cond ls';
      ret (if cond d then l :: rest else rest)
  end.

Definition hentry_key (e : hentry) : pyval * pyval := (he_height e, he_fps e).

(** One iteration of the video loop; [quality_dict] is the location of
    the dictionary, [f] the reference bound by the loop.  The body reads
    [f] before its only write, the assignment to [quality_dict], so [f] is
    loaded once. *)
Definition video_step (quality_dict : loc) (f : loc) : M unit :=
  d ← load_format f;
  let height := dict_get d "height" in
  let fps := dict_get_or d "fps" (PInt 30) in
  vcodec ← lift (fmt_vcodec d);
  if truthy height then
    quality ← lift (fmt_quality d);
    let quality_key := quality +:+ tier_suffix (is_premium vcodec) in
    let e := {| he_format := f; he_display := quality; he_height := height;
                he_fps := py_or fps (PInt 30); he_codec := vcodec |} in
    qd ← load_video_dict quality_dict;
    match qd_lookup quality_key qd with
    | None => store_at quality_dict (OVideoDict (qd_set quality_key e qd))
    | Some cur =>
        dcur ← load_format (he_format cur);
        better ← lift (py_gt (fmt_tbr d) (fmt_tbr dcur));
        if better : bool
        then store_at quality_dict (OVideoDict (qd_set quality_key e qd))
        else ret tt
    end
  else ret tt.

Definition video_qualities (formats : list loc) : M (list (string * loc)) :=
  video_formats ← comprehension is_video_format formats;
  combined_formats ← comprehension is_combined_format formats;
  quality_dict ← alloc (OVideoDict []);
  for_each (video_step quality_dict) (video_formats ++ combined_formats);;
  qd ← load_video_dict quality_dict;
  sorted_qualities ← lift (py_sorted_rev tuple_lt hentry_key qd.*2);
  ret (List.map (λ q, (he_display q, he_format q)) sorted_qualities).

(** One iteration of the audio loop. *)
Definition audio_step (quality_dict : loc) (f : loc) : M unit :=
  d ← load_format f;
  let safe_abr := fmt_safe_abr d in
  quality ← lift (audio_quality d);
  qd ← load_audio_dict quality_dict;
  match qd_lookup quality qd with
  | None => store_at quality_dict (OAudioDict (qd_set quality f qd))
  | Some cur =>
      dcur ← load_format cur;
      let current_safe_abr := fmt_safe_abr dcur in
      if safe_gt safe_abr current_safe_abr
      then store_at quality_dict (OAudioDict (qd_set quality f qd))
      else ret tt
  end.

(** The sort key of the audio branch reads the [abr] of the stored
    format. *)
Fixpoint load_items (qd : list (string * loc))
    : M (list (pyval * (string * loc))) :=
  match qd with
  | [] => ret []
  | (k, l) :: qd' =>
      d ← load_format l;
      rest ← load_items qd';
      ret ((audio_key (k, d), (k, l)) :: rest)
  end.

Definition audio_qualities (formats : list loc) : M (list (string * loc)) :=
  audio_only ← comprehension is_audio_only formats;
  audio_formats ←
    (match audio_only with
     | [] => comprehension has_audio formats
     | _ => ret audio_only
     end);
  quality_dict ← alloc (OAudioDict []);
  for_each (audio_step quality_dict) audio_formats;;
  qd ← load_audio_dict quality_dict;
  keyed ← load_items qd;
  sorted_items ← lift (py_sorted_rev py_lt fst keyed);
  ret sorted_items.*2.

(** [info] is [None] or a reference to the [info] dictionary; a
    reference to anything else is not an argument the function is called
    with, and the model raises. *)
Definition get_available_qualities (i : option loc) (download_type : Z)
    : M (list (string * loc)) :=
  match i with
  | None => ret []
  | Some li => λ h,
      match h !! li with
      | Some (OInfo None) => (Ok [], h)
      | Some (OInfo (Some lf)) =>
          if bool_decide (download_type = 1 ∨ download_type = 3)
          then (formats ← load_formats lf; video_qualities formats) h
          else if bool_decide (download_type = 2 ∨ download_type = 4)
          then (formats ← load_formats lf; audio_qualities formats) h
          else (Ok [], h)
      | _ => (Raise TypeError, h)
      end
  end.

End Store.

(** * Specification vocabulary *)

(** Orders *)

(** [a] is at most [b] on the extended line; NaN is related to nothing,
    itself included. *)
Definition num_le (a b : num) : Prop :=
  match a, b with
  | NNan, _ | _, NNan => False
  | NNegInf, _ | _, NPosInf => True
  | NFin p, NFin q => (p <= q)%Q
  | _, _ => False
  end.

(** [a] is at most [b]: the non-strict order of which [py_lt] is the strict
    part.  Numbers are ordered by value and strings among themselves;
    [None] is only related to itself. *)
Definition pyval_le (a b : pyval) : Prop :=
  match a, b with
  | PInt x, PInt y => x ≤ y
  | PStr s, PStr t => String.le s t
  | PNone, PNone => True
  | PInt x, PFloat y => num_le (NFin (inject_Z x)) (float_num y)
  | PFloat x, PInt y => num_le (float_num x) (NFin (inject_Z y))
  | PFloat x, PFloat y => num_le (float_num x) (float_num y)
  | _, _ => False
  end.

(** [a] is strictly below [b]. *)
Definition pyval_lt (a b : pyval) : Prop := pyval_le a b ∧ ¬ pyval_le b a.

(** [a] and [b] have the same place in the order: the same value for
    numbers, as [30] and [30.0]. *)
Definition pyval_eqv (a b : pyval) : Prop := pyval_le a b ∧ pyval_le b a.

(** Descending lexicographic order on sort keys: [k1] ranks at least as
    high as [k2]. *)
Definition rank_ge (k1 k2 : pyval * pyval) : Prop :=
  pyval_lt k2.1 k1.1 ∨ (pyval_eqv k1.1 k2.1 ∧ pyval_le k2.2 k1.2).

(** The value is the float NaN. *)
Definition is_nan (v : pyval) : bool :=
  match v with
  | PFloat S754_nan => true
  | _ => false
  end.

(** Two sort keys of the video branch are of the same rank: the same
    resolution and the same frame rate, by [==]. *)
Definition same_rank (a b : pyval * pyval) : bool :=
  py_eq a.1 b.1 && py_eq a.2 b.2.

(** The keys of the video branch with no NaN in them. *)
Definition key_defined (k : pyval * pyval) : Prop :=
  is_nan k.1 = false ∧ is_nan k.2 = false.

(** The ranking key of a format: its resolution and its frame rate, 30
    when the frame rate is unknown. *)
Definition video_rank (f : fmt) : pyval * pyval :=
  (dict_get f "height", py_or (dict_get_or f "fps" (PInt 30)) (PInt 30)).

(** The relation by which the video branch orders its result. *)
Definition video_ge (a b : string * fmt) : Prop :=
  rank_ge (video_rank a.2) (video_rank b.2).

(** The bitrate the audio branch ranks a format by: its [abr] when that
    is a number, else 0. *)
Definition bitrate_or_zero (f : fmt) : pyval :=
  match f !! "abr" with
  | Some (PInt n) => PInt n
  | Some (PFloat x) => PFloat x
  | _ => PInt 0
  end.

(** The relation by which the audio branch orders its result. *)
Definition audio_ge (a b : string * fmt) : Prop :=
  pyval_le (bitrate_or_zero b.2) (bitrate_or_zero a.2).

(** No NaN among the numbers a format is ranked by. *)
Definition rank_defined (f : fmt) : bool :=
  negb (is_nan (dict_get f "height")) && negb (is_nan (dict_get f "fps")) &&
  negb (is_nan (dict_get f "abr")).

(** The modes that rank video ([1], [3]) and audio ([2], [4]). *)
Definition video_mode (download_type : Z) : Prop :=
  download_type = 1 ∨ download_type = 3.
Definition audio_mode (download_type : Z) : Prop :=
  download_type = 2 ∨ download_type = 4.

(** Groups and loop invariants *)

(** The grouping key of a format: the [quality_key] the loop computes
    for it. *)
Definition quality_key (f : fmt) : result string :=
  vcodec ← fmt_vcodec f;
  quality ← fmt_quality f;
  Ok (quality +:+ tier_suffix (is_premium vcodec)).

(** The codec tier of a format: premium for the VP9 and AV1 families. *)
Definition premium_tier (f : fmt) : bool :=
  match fmt_vcodec f with
  | Ok vcodec => is_premium vcodec
  | Raise _ => false
  end.

(** What every value of [quality_dict] records about its format. *)
Record entry_ok (k : string) (e : entry) : Prop := EntryOk {
  eo_key : quality_key (e_format e) = Ok k;
  eo_display : fmt_quality (e_format e) = Ok (e_display e);
  eo_rank : entry_key e = video_rank (e_format e);
  eo_height : truthy (dict_get (e_format e) "height") = true
}.

(** [g] stands for [f] in a group: it is [f] itself, or [>] has found
    the [tbr] of [g] not to be below that of [f]. *)
Definition stands_for (g f : fmt) : Prop :=
  g = f ∨ py_lt (fmt_tbr g) (fmt_tbr f) = Ok false.

(** The loop invariant, [seen] being the formats already visited: keys
    are distinct, every entry describes a visited format, and every
    visited format with a height is represented, under its own key, by a
    format that stands for it. *)
Definition video_inv (seen : list fmt) (qd : list (string * entry)) : Prop :=
  NoDup qd.*1 ∧
  (∀ k e, qd_lookup k qd = Some e → entry_ok k e ∧ e_format e ∈ seen) ∧
  (∀ f, f ∈ seen → truthy (dict_get f "height") = true →
     ∃ k e, quality_key f = Ok k ∧ qd_lookup k qd = Some e ∧
            stands_for (e_format e) f).

(** The loop invariant of the audio branch: keys are distinct and each is
    the label of the format stored under it. *)
Definition audio_inv (seen : list fmt) (qd : list (string * fmt)) : Prop :=
  NoDup qd.*1 ∧
  ∀ k f, qd_lookup k qd = Some f → audio_quality f = Ok k ∧ f ∈ seen.

(** Substrings *)

(** [url] has a substring that equals [needle] up to the case of ASCII
    letters. *)
Definition contains_ignoring_case (needle url : string) : Prop :=
  ∃ pre mid post,
    url = pre +:+ mid +:+ post ∧ str_lower mid = str_lower needle.

(** Well-typed formats *)

(** Shapes of a dictionary entry. *)
Definition str_or_absent (o : option pyval) : bool :=
  match o with
  | None | Some (PStr _) => true
  | _ => false
  end.
Definition int_or_none (o : option pyval) : bool :=
  match o with
  | None | Some PNone | Some (PInt _) => true
  | _ => false
  end.
Definition int_or_absent (o : option pyval) : bool :=
  match o with
  | None | Some (PInt _) => true
  | _ => false
  end.
Definition number_or_none (o : option pyval) : bool :=
  match o with
  | None | Some PNone | Some (PInt _) | Some (PFloat _) => true
  | _ => false
  end.
Definition number_or_absent (o : option pyval) : bool :=
  match o with
  | None | Some (PInt _) | Some (PFloat _) => true
  | _ => false
  end.

(** Field types on which the ranker does not raise: codec names and
    extensions are strings when present, heights and frame rates are
    integers or [None], and [tbr], when present, is an integer.  Nothing
    is asked of [abr] and [acodec]. *)
Definition well_typed (f : fmt) : bool :=
  str_or_absent (f !! "vcodec") && int_or_none (f !! "height") &&
  int_or_none (f !! "fps") && int_or_absent (f !! "tbr") &&
  str_or_absent (f !! "ext").

(** The same with floats where yt-dlp reports them: heights, frame rates
    and [tbr] are integers or floats. *)
Definition numeric (f : fmt) : bool :=
  str_or_absent (f !! "vcodec") && number_or_none (f !! "height") &&
  number_or_none (f !! "fps") && number_or_absent (f !! "tbr") &&
  str_or_absent (f !! "ext").

(** An entry of a numeric format; its sort key is a pair of numbers. *)
Definition entry_wt (e : entry) : Prop :=
  numeric (e_format e) = true ∧
  is_Some (py_num (e_height e)) ∧ is_Some (py_num (e_fps e)).

(** What a store denotes *)

(** The dictionary a reference denotes. *)
Definition deref (h : Store.store) (l : Store.loc) : fmt :=
  match h !! l with
  | Some (Store.OFormat d) => d
  | _ => ∅
  end.

(** The reference [l] denotes a format dictionary. *)
Definition is_format (h : Store.store) (l : Store.loc) : Prop :=
  ∃ d, h !! l = Some (Store.OFormat d).

(** The entry a stored entry denotes. *)
Definition entry_of (h : Store.store) (e : Store.hentry) : entry :=
  {| e_format := deref h (Store.he_format e);
     e_display := Store.he_display e;
     e_height := Store.he_height e;
     e_fps := Store.he_fps e;
     e_codec := Store.he_codec e |}.

(** The catalog a reference to an [info] dictionary denotes. *)
Definition info_of (h : Store.store) (i : option Store.loc) : info :=
  match i with
  | None => InfoNone
  | Some li =>
      match h !! li with
      | Some (Store.OInfo None) => InfoDict None
      | Some (Store.OInfo (Some lf)) =>
          match h !! lf with
          | Some (Store.OFormats ls) => InfoDict (Some (deref h <$> ls))
          | _ => InfoNone
          end
      | _ => InfoNone
      end
  end.

(** The argument is [None] or refers to an [info] dictionary whose
    ['formats'], when present, is a list of format dictionaries. *)
Definition catalog_ok (h : Store.store) (i : option Store.loc) : Prop :=
  match i with
  | None => True
  | Some li =>
      match h !! li with
      | Some (Store.OInfo None) => True
      | Some (Store.OInfo (Some lf)) =>
          match h !! lf with
          | Some (Store.OFormats ls) => Forall (is_format h) ls
          | _ => False
          end
      | _ => False
      end
  end.

(** A result with its references replaced by what they denote: the result
    as [==] sees it. *)
Definition snapshot (h : Store.store)
    (r : result (list (string * Store.loc))) : result (list (string * fmt)) :=
  fmap (M:=result) (fmap (prod_map id (deref h))) r.

(** The references of a result denote formats. *)
Definition result_ok (h : Store.store) (r : result (list (string * Store.loc)))
    : Prop :=
  match r with
  | Ok qs => Forall (λ q, is_format h q.2) qs
  | Raise _ => True
  end.

(** The video [quality_dict] a stored one denotes, and that its entries
    refer to formats. *)
Definition qd_abs (h : Store.store) (qd : list (string * Store.hentry))
    : list (string * entry) :=
  prod_map id (entry_of h) <$> qd.

Definition entries_ok (h : Store.store) (qd : list (string * Store.hentry))
    : Prop :=
  Forall (λ ke, is_format h (Store.he_format ke.2)) qd.

(** The same for the audio [quality_dict]. *)
Definition aqd_abs (h : Store.store) (qd : list (string * Store.loc))
    : list (string * fmt) :=
  prod_map id (deref h) <$> qd.

Definition locs_ok (h : Store.store) (qd : list (string * Store.loc)) : Prop :=
  Forall (λ kl, is_format h kl.2) qd.

(** The references the audio branch iterates over. *)
Definition audio_cands (h : Store.store) (ls : list Store.loc)
    : list Store.loc :=
  match List.filter (λ l, is_audio_only (deref h l)) ls with
  | [] => List.filter (λ l, has_audio (deref h l)) ls
  | ls' => ls'
  end.

(** A run of a loop body in the store against a run of the pure body. *)
Definition sim_unit {S : Type} (r : result unit) (p : result S) (s' : S)
    : Prop :=
  match r with
  | Ok _ => p = Ok s'
  | Raise e => p = Raise e
  end.

(** Representatives, key order and prompts *)

(** Every audio candidate seen so far is represented, under its own
    label, by a format whose safe bitrate is at least its own. *)
Definition audio_rep (seen : list fmt) (qd : list (string * fmt)) : Prop :=
  ∀ f, f ∈ seen →
    ∃ k g, audio_quality f = Ok k ∧ qd_lookup k qd = Some g ∧
           pyval_le (fmt_safe_abr f) (fmt_safe_abr g).

(** The ['ext'] entry is absent or a string. *)
Definition ext_ok (f : fmt) : bool := str_or_absent (f !! "ext").

(** Text in which every character is an ASCII character: the strings on
    which the model of [upper], [lower] and [strip] is Python's. *)
Fixpoint is_ascii (s : string) : bool :=
  match s with
  | EmptyString => true
  | String c s' => (N_of_ascii c <? 128)%N && is_ascii s'
  end.

(** A value that is no string, or an ASCII one. *)
Definition ascii_text (v : pyval) : bool :=
  match v with
  | PStr s => is_ascii s
  | _ => true
  end.

(** The keys of a dictionary after [d[k] = ...] for a key [k]: a new key
    goes last. *)
Definition add_key (keys : list string) (k : string) : list string :=
  if decide (k ∈ keys) then keys else keys ++ [k].

(** The distinct keys of a sequence, in the order of their first
    occurrences. *)
Definition keys_in_order (ks : list string) : list string :=
  foldl add_key [] ks.

(** An answer that makes the prompt ask again. *)
Definition asks_again (qualities : list (string * fmt)) (a : option Z)
    : Prop :=
  match a with
  | None => True
  | Some c => c ≠ 0 ∧ ¬ (1 ≤ c ≤ Z.of_nat (length qualities))
  end.

(** The file size the menu shows: ['filesize'], or ['filesize_approx']
    when that is missing or zero. *)
Definition fmt_filesize (f : fmt) : pyval :=
  py_or (dict_get f "filesize") (dict_get f "filesize_approx").

(** The file size, when there is one, can be shown: it is a float, or an
    integer whose quotient by [2^20] is in the range of a float. *)
Definition filesize_ok (f : fmt) : bool :=
  match fmt_filesize f with
  | PStr s => String.eqb s ""
  | PInt n =>
      match binary_normalize prec emax n (-20) false with
      | S754_infinity _ => false
      | _ => true
      end
  | _ => true
  end.

(** The frame-rate note of a menu line: the frame rate when it is a number
    above 30. *)
Definition fps_note (f : fmt) : string :=
  let fps := dict_get f "fps" in
  match py_num fps with
  | Some n => if truthy fps && num_ltb (NFin 30) n
              then " " +:+ py_str fps +:+ "fps" else ""
  | None => ""
  end.

(** The size note of a menu line: the size in MiB to one decimal. *)
Definition size_note (f : fmt) : string :=
  let filesize := fmt_filesize f in
  if truthy filesize then
    match filesize with
    | PInt n =>
        " (~" +:+ float_fixed1 (binary_normalize prec emax n (-20) false)
        +:+ "MB)"
    | PFloat x => " (~" +:+ float_fixed1 (SFdiv prec emax x mib) +:+ "MB)"
    | _ => ""
    end
  else "".

(** The menu line of an option, after its number. *)
Definition menu_line (q : string * fmt) : string :=
  q.1 +:+ fps_note q.2 +:+
  (if premium_tier q.2 then " (Premium)" else "") +:+ size_note q.2.

(** Example catalogs *)

(** Three video streams: 1080 lines in H.264 and in VP9, 720 lines in
    H.264, none with a bitrate. *)
Definition stream_1080_avc1 : fmt :=
  {[ "height" := PInt 1080; "vcodec" := PStr "avc1"; "abr" := PNone ]}.
Definition stream_1080_vp9 : fmt :=
  {[ "height" := PInt 1080; "vcodec" := PStr "vp9"; "abr" := PNone ]}.
Definition stream_720_avc1 : fmt :=
  {[ "height" := PInt 720; "vcodec" := PStr "avc1"; "abr" := PNone ]}.

(** The catalog of scenario A and the ranking the video branch returns
    for it. *)
Definition scenario_A : info :=
  InfoDict (Some [stream_1080_avc1; stream_1080_vp9; stream_720_avc1]).

Definition scenario_A_ranked : list (string * fmt) :=
  [("1080p", stream_1080_avc1); ("1080p", stream_1080_vp9);
   ("720p", stream_720_avc1)].

(** A combined stream whose total bitrate is reported as [None]. *)
Definition combined_360_no_tbr : fmt :=
  {[ "format_id" := PStr "18"; "ext" := PStr "mp4";
     "vcodec" := PStr "avc1.42001E"; "acodec" := PStr "mp4a.40.2";
     "height" := PInt 360; "tbr" := PNone ]}.

(** Two video-only streams of one resolution and tier, the second with
    bitrate 64, the first with bitrate [None]. *)
Definition video_480_none : fmt :=
  {[ "format_id" := PStr "135"; "vcodec" := PStr "avc1.4d401e";
     "acodec" := PStr "none"; "height" := PInt 480; "tbr" := PNone ]}.
Definition video_480_64 : fmt :=
  {[ "format_id" := PStr "135-1"; "vcodec" := PStr "avc1.4d401e";
     "acodec" := PStr "none"; "height" := PInt 480; "tbr" := PInt 64 ]}.

(** Two video-only streams of one resolution and tier at 30 and at 60
    frames per second. *)
Definition video_1080_30 : fmt :=
  {[ "format_id" := PStr "137"; "vcodec" := PStr "avc1.640028";
     "acodec" := PStr "none"; "height" := PInt 1080; "fps" := PInt 30;
     "tbr" := PInt 4400 ]}.
Definition video_1080_60 : fmt :=
  {[ "format_id" := PStr "299"; "vcodec" := PStr "avc1.64002a";
     "acodec" := PStr "none"; "height" := PInt 1080; "fps" := PInt 60;
     "tbr" := PInt 6600 ]}.

(** A combined stream, the only one of its catalog. *)
Definition combined_720 : fmt :=
  {[ "format_id" := PStr "22"; "ext" := PStr "mp4";
     "vcodec" := PStr "avc1.64001F"; "acodec" := PStr "mp4a.40.2";
     "height" := PInt 720; "tbr" := PInt 1200 ]}.

(** An audio-only stream. *)
Definition audio_m4a_128 : fmt :=
  {[ "format_id" := PStr "140"; "ext" := PStr "m4a";
     "vcodec" := PStr "none"; "acodec" := PStr "mp4a.40.2";
     "abr" := PInt 128 ]}.

(** A store that holds the catalog of scenario A: the [info] dictionary
    at 0, its list at 1, the three formats at 2, 3 and 4. *)
Definition catalog_store : Store.store :=
  [Store.OInfo (Some 1%nat); Store.OFormats [2; 3; 4]%nat;
   Store.OFormat stream_1080_avc1; Store.OFormat stream_1080_vp9;
   Store.OFormat stream_720_avc1].

(** A stream whose video codec is reported as [None]. *)
Definition stream_vcodec_none : fmt :=
  {[ "format_id" := PStr "hls-720"; "ext" := PStr "mp4";
     "vcodec" := PNone; "height" := PInt 720 ]}.

(** An audio-only stream whose extension is reported as [None]. *)
Definition audio_ext_none : fmt :=
  {[ "format_id" := PStr "251"; "ext" := PNone;
     "vcodec" := PStr "none"; "acodec" := PStr "opus"; "abr" := PInt 160 ]}.

(** A second stream at 1080 lines and 30 frames per second in the same
    codec family, with the total bitrate 5210.5. *)
Definition video_1080_30_hi : fmt :=
  {[ "format_id" := PStr "137-1"; "vcodec" := PStr "avc1.640028";
     "acodec" := PStr "none"; "height" := PInt 1080; "fps" := PInt 30;
     "tbr" := PFloat (S754_finite false 5729005336526848 (-40)) ]}.

(** Three streams at 1080 lines of one tier, two of them of one label, and
    their ranking in a video mode. *)
Definition catalog_1080_group : list fmt :=
  [video_1080_30; video_1080_30_hi; video_1080_60].

Definition ranked_1080_group : list (string * fmt) :=
  [("1080p60", video_1080_60); ("1080p", video_1080_30_hi)].

(** Two streams at 720 lines of one tier, the first with a total bitrate
    of NaN, the second with 5000.0. *)
Definition video_720_nan : fmt :=
  {[ "format_id" := PStr "136"; "vcodec" := PStr "avc1.4d401f";
     "acodec" := PStr "none"; "height" := PInt 720;
     "tbr" := PFloat S754_nan ]}.
Definition video_720_5000 : fmt :=
  {[ "format_id" := PStr "136-1"; "vcodec" := PStr "avc1.4d401f";
     "acodec" := PStr "none"; "height" := PInt 720;
     "tbr" := PFloat (S754_finite false 5497558138880000 (-40)) ]}.

(** Audio-only streams with the bitrates 48.5 and 160.5 and a second
    stream of 128 kbit/s, and a catalog that lists them out of order with
    a combined stream; its ranking in an audio mode. *)
Definition audio_m4a_48 : fmt :=
  {[ "format_id" := PStr "139"; "ext" := PStr "m4a";
     "vcodec" := PStr "none"; "acodec" := PStr "mp4a.40.5";
     "abr" := PFloat (S754_finite false 6825768185233408 (-47)) ]}.
Definition audio_opus_160 : fmt :=
  {[ "format_id" := PStr "251"; "ext" := PStr "webm";
     "vcodec" := PStr "none"; "acodec" := PStr "opus";
     "abr" := PFloat (S754_finite false 5647091720257536 (-45)) ]}.
Definition audio_m4a_128_drc : fmt :=
  {[ "format_id" := PStr "140-drc"; "ext" := PStr "m4a";
     "vcodec" := PStr "none"; "acodec" := PStr "mp4a.40.2";
     "abr" := PInt 128 ]}.

Definition catalog_audio : list fmt :=
  [audio_m4a_48; combined_720; audio_m4a_128; audio_opus_160;
   audio_m4a_128_drc].

Definition ranked_audio : list (string * fmt) :=
  [("WEBM - 160.5kbps (opus)", audio_opus_160);
   ("M4A - 128kbps (mp4a.40.2)", audio_m4a_128);
   ("M4A - 48.5kbps (mp4a.40.5)", audio_m4a_48)].

(** Streams of equal rank: two at 720 lines, of which one reports 30
    frames per second as an integer and the other as the float 30.0, below
    a stream at 59.94 frames per second that the catalog lists last; and
    two audio streams of 128 kbit/s, one bitrate an integer and one the
    float 128.0. *)
Definition video_720_avc1_30 : fmt :=
  {[ "format_id" := PStr "136"; "vcodec" := PStr "avc1.4d401f";
     "acodec" := PStr "none"; "height" := PInt 720; "fps" := PInt 30 ]}.
Definition video_720_vp9_30 : fmt :=
  {[ "format_id" := PStr "247"; "vcodec" := PStr "vp9";
     "acodec" := PStr "none"; "height" := PInt 720;
     "fps" := PFloat (S754_finite false 8444249301319680 (-48)) ]}.
Definition video_1080_5994 : fmt :=
  {[ "format_id" := PStr "299"; "vcodec" := PStr "avc1.64002a";
     "acodec" := PStr "none"; "height" := PInt 1080;
     "fps" := PFloat (S754_finite false 8435805052018360 (-47)) ]}.
Definition audio_webm_128 : fmt :=
  {[ "format_id" := PStr "250"; "ext" := PStr "webm";
     "vcodec" := PStr "none"; "acodec" := PStr "opus";
     "abr" := PFloat (S754_finite false 4503599627370496 (-45)) ]}.

Definition catalog_video_ties : list fmt :=
  [video_720_avc1_30; video_720_vp9_30; video_1080_5994].

Definition ranked_video_ties : list (string * fmt) :=
  [("1080p59.94", video_1080_5994); ("720p", video_720_avc1_30);
   ("720p", video_720_vp9_30)].

Definition catalog_audio_ties : list fmt :=
  [audio_m4a_48; audio_m4a_128; audio_webm_128].

Definition ranked_audio_ties : list (string * fmt) :=
  [("M4A - 128kbps (mp4a.40.2)", audio_m4a_128);
   ("WEBM - 128.0kbps (opus)", audio_webm_128);
   ("M4A - 48.5kbps (mp4a.40.5)", audio_m4a_48)].

(** Three streams with what the menu shows: a premium stream at 59.94
    frames per second of 52428800 bytes, a standard stream whose size is
    only known approximately, as the float 1234567.0, and a stream of
    unknown size; their ranking in a video mode. *)
Definition menu_1080 : fmt :=
  {[ "format_id" := PStr "303"; "vcodec" := PStr "vp9";
     "acodec" := PStr "none"; "height" := PInt 1080;
     "fps" := PFloat (S754_finite false 8435805052018360 (-47));
     "filesize" := PInt 52428800 ]}.
Definition menu_720 : fmt :=
  {[ "format_id" := PStr "136"; "vcodec" := PStr "avc1.4d401f";
     "acodec" := PStr "none"; "height" := PInt 720; "fps" := PInt 30;
     "filesize" := PNone;
     "filesize_approx" := PFloat (S754_finite false 5302424889720832 (-32)) ]}.
Definition menu_480 : fmt :=
  {[ "format_id" := PStr "135"; "vcodec" := PStr "avc1.4d401e";
     "acodec" := PStr "none"; "height" := PInt 480 ]}.

Definition catalog_menu : list fmt := [menu_480; menu_1080; menu_720].

Definition ranked_menu : list (string * fmt) :=
  [("1080p59.94", menu_1080); ("720p", menu_720); ("480p", menu_480)].

(** An audio-only stream whose bitrate is NaN, between a stream of 48.5
    and one of 128 kbit/s, and what the audio branch returns for the
    three. *)
Definition audio_webm_nan : fmt :=
  {[ "format_id" := PStr "249"; "ext" := PStr "webm";
     "vcodec" := PStr "none"; "acodec" := PStr "opus";
     "abr" := PFloat S754_nan ]}.

Definition catalog_audio_nan : list fmt :=
  [audio_m4a_48; audio_webm_nan; audio_m4a_128].

Definition ranked_audio_nan : list (string * fmt) :=
  [("M4A - 48.5kbps (mp4a.40.5)", audio_m4a_48);
   ("WEBM (opus)", audio_webm_nan);
   ("M4A - 128kbps (mp4a.40.2)", audio_m4a_128)].

(** The two 1080-line streams and their ranking in a video mode. *)
Definition catalog_1080 : list fmt := [video_1080_30; video_1080_60].

Definition ranked_1080 : list (string * fmt) :=
  [("1080p60", video_1080_60); ("1080p", video_1080_30)].

(** A combined and an audio-only stream, and their ranking in an audio
    mode. *)
Definition catalog_mixed : list fmt := [combined_720; audio_m4a_128].

Definition ranked_mixed_audio : list (string * fmt) :=
  [("M4A - 128kbps (mp4a.40.2)", audio_m4a_128)].

(** * Properties *)

(** ** The exception monad *)

Lemma bind_Ok {A B : Type} (m : result A) (k : A → result B) (b : B) :
  (m ≫= k) = Ok b ↔ ∃ a, m = Ok a ∧ k a = Ok b.
Proof.
  destruct m as [a|e]; simpl; split.
  - intros H. by exists a.
  - by intros (a' & [= ->] & H).
  - intros [=].
  - by intros (a' & [=] & _).
Qed.

(** ** The order behind Python's [<] *)

Lemma Qlt_bool_iff (p q : Q) : Qlt_bool p q = true ↔ (p < q)%Q.
Proof.
  unfold Qlt_bool. rewrite negb_true_iff, <- not_true_iff_false, Qle_bool_iff.
  split; [apply Qnot_le_lt | apply Qlt_not_le].
Qed.

Lemma Qlt_bool_false (p q : Q) : Qlt_bool p q = false ↔ (q <= p)%Q.
Proof. unfold Qlt_bool. by rewrite negb_false_iff, Qle_bool_iff. Qed.

Global Instance num_le_trans : Transitive num_le.
Proof.
  intros [| |p|] [| |q|] [| |r|]; simpl; try done. apply Qle_trans.
Qed.

Lemma num_le_refl a : a ≠ NNan → num_le a a.
Proof. destruct a; simpl; try done. intros _. apply Qle_refl. Qed.

Lemma num_ltb_false a b :
  num_ltb a b = false → a ≠ NNan → b ≠ NNan → num_le b a.
Proof.
  destruct a as [| |p|], b as [| |q|]; simpl; try done.
  by intros ?%Qlt_bool_false.
Qed.

Lemma num_ltb_true a b : num_ltb a b = true → num_le a b ∧ ¬ num_le b a.
Proof.
  destruct a as [| |p|], b as [| |q|]; simpl; try done; try tauto.
  intros H%Qlt_bool_iff. split; [by apply Qlt_le_weak | by apply Qlt_not_le].
Qed.

Lemma num_eqb_le a b : num_eqb a b = true → num_le a b ∧ num_le b a.
Proof.
  destruct a as [| |p|], b as [| |q|]; simpl; try done.
  intros H%Qeq_bool_iff. split; rewrite H; apply Qle_refl.
Qed.

Lemma num_le_antisym a b : num_le a b → num_le b a → num_eqb a b = true.
Proof.
  destruct a as [| |p|], b as [| |q|]; simpl; try done.
  intros H1 H2. apply Qeq_bool_iff. by apply Qle_antisym.
Qed.

Lemma Zle_num_le (x y : Z) :
  num_le (NFin (inject_Z x)) (NFin (inject_Z y)) ↔ x ≤ y.
Proof. unfold num_le. by rewrite <- Zle_Qle. Qed.

Global Instance pyval_le_trans : Transitive pyval_le.
Proof.
  intros [|x|s|x] [|y|t|y] [|z|u|z]; unfold pyval_le; try done;
    rewrite <- ?Zle_num_le; apply transitivity.
Qed.

Lemma pyval_le_refl a : is_nan a = false → pyval_le a a.
Proof.
  destruct a as [|x|s|x]; unfold pyval_le; try done.
  intros H. apply num_le_refl. by destruct x as [[]|[]| |[] ? ?].
Qed.

Lemma float_num_nan x : float_num x = NNan ↔ x = S754_nan.
Proof. destruct x as [[]|[]| |[] ? ?]; simpl; split; done. Qed.

Lemma is_nan_float_num x : is_nan (PFloat x) = false → float_num x ≠ NNan.
Proof. intros H Hn. apply float_num_nan in Hn as ->. done. Qed.

Lemma string_ltb_false s t : String.ltb s t = false → String.le t s.
Proof.
  unfold String.ltb, String.le, String.leb.
  rewrite (String.compare_antisym t s).
  destruct (String.compare s t); simpl; done.
Qed.

Lemma string_compare_refl t : String.compare t t = Eq.
Proof.
  induction t as [|a t IH]; simpl; [done|].
  unfold Ascii.compare. by rewrite N.compare_refl.
Qed.

Lemma string_ltb_true s t : String.ltb s t = true → String.le s t ∧ s ≠ t.
Proof.
  unfold String.ltb, String.le, String.leb.
  destruct (String.compare s t) eqn:E; try done.
  intros _. split; [done|]. intros ->.
  pose proof (string_compare_refl t). congruence.
Qed.

Lemma string_le_refl s : String.le s s.
Proof. unfold String.le, String.leb. by rewrite string_compare_refl. Qed.

Lemma Ok_inj {A : Type} (a b : A) : Ok a = Ok b → a = b.
Proof. by intros [=]. Qed.

Lemma py_lt_false a b :
  py_lt a b = Ok false → is_nan a = false → is_nan b = false → pyval_le b a.
Proof.
  destruct a as [|x|s|x], b as [|y|t|y]; unfold py_lt, pyval_le; try done.
  - intros H%Ok_inj _ _. by apply Z.ltb_ge in H.
  - intros H%Ok_inj _ Hy. apply num_ltb_false; [done|done|].
    by apply is_nan_float_num.
  - intros H%Ok_inj _ _. by apply string_ltb_false.
  - intros H%Ok_inj Hx _. apply num_ltb_false; [done| |done].
    by apply is_nan_float_num.
  - intros H%Ok_inj Hx Hy. apply num_ltb_false; [done| |];
      by apply is_nan_float_num.
Qed.

Lemma py_lt_true a b : py_lt a b = Ok true → pyval_lt a b.
Proof.
  unfold pyval_lt.
  destruct a as [|x|s|x], b as [|y|t|y]; unfold py_lt, pyval_le; try done.
  - intros H%Ok_inj. apply Z.ltb_lt in H. lia.
  - by intros H%Ok_inj%num_ltb_true.
  - intros H%Ok_inj. apply string_ltb_true in H as [? ?].
    split; [done|]. intros Hts. by apply (anti_symm String.le) in Hts.
  - by intros H%Ok_inj%num_ltb_true.
  - by intros H%Ok_inj%num_ltb_true.
Qed.

Lemma pyval_lt_le_trans a b c : pyval_lt a b → pyval_le b c → pyval_lt a c.
Proof.
  intros [Hab Hne] Hbc. split; [by etrans|].
  intros Hca. apply Hne. by etrans.
Qed.

Lemma pyval_le_lt_trans a b c : pyval_le a b → pyval_lt b c → pyval_lt a c.
Proof.
  intros Hab [Hbc Hne]. split; [by etrans|].
  intros Hca. apply Hne. by etrans.
Qed.

Global Instance rank_ge_trans : Transitive rank_ge.
Proof.
  intros [a1 a2] [b1 b2] [c1 c2]. unfold rank_ge, pyval_eqv. simpl.
  intros [H1|[[H1 H1'] H1'']] [H2|[[H2 H2'] H2'']].
  - left. eapply pyval_lt_le_trans; [done|]. by destruct H1.
  - left. by eapply pyval_le_lt_trans.
  - left. by eapply pyval_lt_le_trans.
  - right. split; [split|]; by etrans.
Qed.

(** What [==] tells about the order. *)
Lemma py_eq_eqv a b :
  py_eq a b = true → is_nan a = false → pyval_eqv a b.
Proof.
  unfold pyval_eqv.
  destruct a as [|x|s|x], b as [|y|t|y]; unfold py_eq, pyval_le;
    try (by intros ?%bool_decide_eq_true);
    try (by intros ?%num_eqb_le).
  - intros [= ->]%bool_decide_eq_true. lia.
  - intros [= ->]%bool_decide_eq_true _. split; apply string_le_refl.
Qed.

Lemma pyval_eqv_py_eq a b : pyval_eqv a b → py_eq a b = true.
Proof.
  unfold pyval_eqv.
  destruct a as [|x|s|x], b as [|y|t|y]; unfold py_eq, pyval_le;
    try (by intros [? ?]); try (by intros [? ?]; apply num_le_antisym).
  - intros [? ?]. apply bool_decide_eq_true. f_equal. lia.
  - intros [? ?]. apply bool_decide_eq_true. f_equal.
    by apply (anti_symm String.le).
Qed.

Lemma tuple_lt_false a b :
  tuple_lt a b = Ok false → key_defined a → key_defined b → rank_ge a b.
Proof.
  unfold tuple_lt, rank_ge. intros H [Ha1 Ha2] [Hb1 Hb2].
  destruct (py_eq a.1 b.1) eqn:E1.
  - right. split; [by apply py_eq_eqv|].
    destruct (py_eq a.2 b.2) eqn:E2.
    + by apply py_eq_eqv in E2 as [? ?].
    + by apply py_lt_false.
  - left. apply py_lt_false in H; [|done..]. split; [done|].
    intros Hab. rewrite pyval_eqv_py_eq in E1; done.
Qed.

Lemma tuple_lt_true a b :
  tuple_lt a b = Ok true → key_defined a → key_defined b → rank_ge b a.
Proof.
  unfold tuple_lt, rank_ge. intros H [Ha1 Ha2] [Hb1 Hb2].
  destruct (py_eq a.1 b.1) eqn:E1.
  - right. destruct (py_eq_eqv _ _ E1 Ha1). split; [done|].
    destruct (py_eq a.2 b.2); [done|]. by apply py_lt_true in H as [? _].
  - left. by apply py_lt_true.
Qed.

(** [<] on two values is defined on two numbers and on two strings. *)
Lemma Zltb_num (x y : Z) :
  (x <? y) = num_ltb (NFin (inject_Z x)) (NFin (inject_Z y)).
Proof.
  unfold num_ltb. destruct (Z.ltb_spec x y) as [H|H]; symmetry.
  - apply Qlt_bool_iff. by rewrite <- Zlt_Qlt.
  - apply Qlt_bool_false. by rewrite <- Zle_Qle.
Qed.

Lemma py_lt_cases a b r :
  py_lt a b = Ok r →
  (∃ x y, py_num a = Some x ∧ py_num b = Some y ∧ r = num_ltb x y) ∨
  (∃ s t, a = PStr s ∧ b = PStr t ∧ r = String.ltb s t).
Proof.
  destruct a as [|x|s|x], b as [|y|t|y]; unfold py_lt; try done;
    intros <-%Ok_inj.
  - left. eexists _, _. split; [done|]. split; [done|]. apply Zltb_num.
  - left. by eexists _, _.
  - right. by eexists _, _.
  - left. by eexists _, _.
  - left. by eexists _, _.
Qed.

Lemma py_lt_num a b x y :
  py_num a = Some x → py_num b = Some y → py_lt a b = Ok (num_ltb x y).
Proof.
  destruct a as [|m|s|u], b as [|n|t|v]; unfold py_num, py_lt; try done;
    intros [= <-] [= <-]; try done.
  by rewrite Zltb_num.
Qed.

Lemma num_ltb_asym a b : num_ltb a b = true → num_ltb b a = false.
Proof.
  destruct a as [| |p|], b as [| |q|]; simpl; try done.
  intros H%Qlt_bool_iff. apply Qlt_bool_false. by apply Qlt_le_weak.
Qed.

Lemma num_ltb_neg_trans c f n :
  num_ltb c f = false → num_ltb c n = true → num_ltb n f = false.
Proof.
  destruct c as [| |p|], f as [| |q|], n as [| |r|]; simpl; try done.
  intros H1%Qlt_bool_false H2%Qlt_bool_iff. apply Qlt_bool_false.
  apply Qlt_le_weak. by eapply Qle_lt_trans.
Qed.

Lemma string_ltb_asym s t : String.ltb s t = true → String.ltb t s = false.
Proof.
  unfold String.ltb. rewrite (String.compare_antisym t s).
  by destruct (String.compare s t).
Qed.

Lemma string_ltb_neg_trans c f n :
  String.ltb c f = false → String.ltb c n = true → String.ltb n f = false.
Proof.
  intros H1%string_ltb_false [H2 Hne]%string_ltb_true.
  destruct (String.ltb n f) eqn:E; [|done].
  apply string_ltb_true in E as [H3 _]. destruct Hne.
  apply (anti_symm String.le); [done|]. by etrans.
Qed.

Lemma py_lt_asym a b : py_lt a b = Ok true → py_lt b a = Ok false.
Proof.
  intros [(x & y & Hx & Hy & H)|(s & t & -> & -> & H)]%py_lt_cases.
  - rewrite (py_lt_num _ _ _ _ Hy Hx). f_equal. by apply num_ltb_asym.
  - unfold py_lt. f_equal. by apply string_ltb_asym.
Qed.

Lemma py_lt_neg_trans c f n :
  py_lt c f = Ok false → py_lt c n = Ok true → py_lt n f = Ok false.
Proof.
  intros [(x & y & Hx & Hy & H1)|(s & t & -> & -> & H1)]%py_lt_cases
         [(x' & z & Hx' & Hz & H2)|(s' & u & Hs' & -> & H2)]%py_lt_cases.
  - rewrite Hx in Hx'. injection Hx' as <-.
    rewrite (py_lt_num _ _ _ _ Hz Hy). f_equal.
    by eapply num_ltb_neg_trans.
  - by subst c.
  - done.
  - injection Hs' as <-. unfold py_lt. f_equal.
    by eapply string_ltb_neg_trans.
Qed.

Lemma stands_for_replace cur new f :
  stands_for cur f → py_lt (fmt_tbr cur) (fmt_tbr new) = Ok true →
  stands_for new f.
Proof.
  intros [->|H] Hlt; right.
  - by apply py_lt_asym.
  - by eapply py_lt_neg_trans.
Qed.

(** ** Insertion-ordered dictionaries *)

Section qdict_facts.
Context {V : Type}.
Implicit Types (k : string) (v : V) (qd : list (string * V)).

Lemma qd_lookup_set k k' v qd :
  qd_lookup k' (qd_set k v qd) =
  if decide (k' = k) then Some v else qd_lookup k' qd.
Proof.
  induction qd as [|[k0 v0] qd IH]; simpl.
  - destruct (String.eqb_spec k' k); by case_decide.
  - destruct (String.eqb_spec k k0) as [->|Hne]; simpl.
    + destruct (String.eqb_spec k' k0); by case_decide.
    + destruct (String.eqb_spec k' k0) as [->|Hne'].
      * case_decide; congruence.
      * apply IH.
Qed.

Lemma qd_lookup_None k qd : qd_lookup k qd = None ↔ k ∉ qd.*1.
Proof.
  induction qd as [|[k0 v0] qd IH]; simpl.
  - split; [intros _; apply not_elem_of_nil | done].
  - rewrite not_elem_of_cons.
    destruct (String.eqb_spec k k0); [|tauto].
    split; [done | tauto].
Qed.

Lemma qd_lookup_elem k v qd : qd_lookup k qd = Some v → (k, v) ∈ qd.
Proof.
  induction qd as [|[k0 v0] qd IH]; simpl; [done|].
  destruct (String.eqb_spec k k0) as [->|Hne].
  - intros [= ->]. apply list_elem_of_here.
  - intros H. apply list_elem_of_further. auto.
Qed.

Lemma elem_qd_lookup k v qd :
  NoDup qd.*1 → (k, v) ∈ qd → qd_lookup k qd = Some v.
Proof.
  induction qd as [|[k0 v0] qd IH]; simpl.
  - intros _ H. by apply elem_of_nil in H.
  - intros [Hk0 Hnd]%NoDup_cons [[= -> ->]|Hin]%elem_of_cons.
    + by rewrite String.eqb_refl.
    + destruct (String.eqb_spec k k0) as [->|Hne]; [|auto].
      exfalso. apply Hk0. apply list_elem_of_fmap. by exists (k0, v).
Qed.

Lemma qd_set_fresh k v qd :
  qd_lookup k qd = None → qd_set k v qd = qd ++ [(k, v)].
Proof.
  induction qd as [|[k0 v0] qd IH]; simpl; [done|].
  destruct (String.eqb_spec k k0); [done|].
  intros H. by rewrite IH.
Qed.

Lemma qd_set_present_keys k v qd :
  is_Some (qd_lookup k qd) → (qd_set k v qd).*1 = qd.*1.
Proof.
  induction qd as [|[k0 v0] qd IH]; simpl.
  - by intros [? ?].
  - destruct (String.eqb_spec k k0) as [->|Hne]; [done|].
    intros H. rewrite !fmap_cons. f_equal. by apply IH.
Qed.

Lemma qd_set_NoDup k v qd : NoDup qd.*1 → NoDup (qd_set k v qd).*1.
Proof.
  intros Hnd. destruct (qd_lookup k qd) as [v0|] eqn:E.
  - by rewrite qd_set_present_keys.
  - rewrite qd_set_fresh by done. rewrite fmap_app. simpl.
    apply NoDup_app. split; [done|]. split.
    + intros k' Hk' ->%list_elem_of_singleton. by apply qd_lookup_None in E.
    + apply NoDup_singleton.
Qed.

Lemma qd_lookup_elem_iff k v qd :
  NoDup qd.*1 → qd_lookup k qd = Some v ↔ (k, v) ∈ qd.
Proof. intros Hnd. split; [apply qd_lookup_elem | by apply elem_qd_lookup]. Qed.

End qdict_facts.

(** ** The reverse stable sort *)

Section py_sorted_facts.
Context {A K : Type} (lt : K → K → result bool) (key : A → K).
Context (R : relation A) `{!Transitive R} (P : A → Prop).
Hypothesis lt_false : ∀ x y, P x → P y → lt (key x) (key y) = Ok false → R x y.
Hypothesis lt_true : ∀ x y, P x → P y → lt (key x) (key y) = Ok true → R y x.

Lemma insert_rev_perm x l l' : insert_rev lt key x l = Ok l' → x :: l ≡ₚ l'.
Proof.
  revert l'. induction l as [|y l IH]; intros l'; simpl.
  - by intros [= <-].
  - intros (b & Hb & H)%bind_Ok. destruct b.
    + apply bind_Ok in H as (l'' & Hl'' & [= <-]).
      rewrite Permutation_swap. constructor. by apply IH.
    + by injection H as <-.
Qed.

Lemma py_sorted_rev_perm l l' : py_sorted_rev lt key l = Ok l' → l ≡ₚ l'.
Proof.
  revert l'. induction l as [|x l IH]; intros l'; simpl.
  - by intros [= <-].
  - intros (s & Hs & H%insert_rev_perm)%bind_Ok.
    rewrite <- H. constructor. by apply IH.
Qed.

Lemma insert_rev_sorted x l l' :
  P x → Forall P l →
  insert_rev lt key x l = Ok l' → StronglySorted R l → StronglySorted R l'.
Proof.
  intros Px. revert l'. induction l as [|y l IH]; intros l'; simpl.
  - intros _ [= <-] _. repeat constructor.
  - intros [Py Pl]%Forall_cons (b & Hb & H)%bind_Ok [Hs Hy]%StronglySorted_inv.
    destruct b.
    + apply bind_Ok in H as (l'' & Hl'' & [= <-]).
      constructor; [by apply IH|].
      apply insert_rev_perm in Hl''. rewrite <- Hl''.
      constructor; [by apply lt_true | done].
    + injection H as <-.
      constructor; [by constructor|].
      constructor; [by apply lt_false|].
      eapply Forall_impl; [exact Hy|]. intros z Hz. simpl in Hz.
      etrans; [|exact Hz]. by apply lt_false.
Qed.

Lemma py_sorted_rev_sorted l l' :
  Forall P l → py_sorted_rev lt key l = Ok l' → StronglySorted R l'.
Proof.
  revert l'. induction l as [|x l IH]; intros l'; simpl.
  - intros _ [= <-]. constructor.
  - intros [Px Pl]%Forall_cons (s & Hs & H)%bind_Ok.
    eapply insert_rev_sorted; [done| |done|by apply IH].
    apply py_sorted_rev_perm in Hs. by rewrite <- Hs.
Qed.

End py_sorted_facts.

(** ** The video loop *)

Lemma elem_of_snoc {A : Type} (x y : A) (l : list A) :
  x ∈ l ++ [y] ↔ x ∈ l ∨ x = y.
Proof. by rewrite elem_of_app, list_elem_of_singleton. Qed.

Lemma video_inv_nil : video_inv [] [].
Proof.
  split; [constructor|]. split; [done|].
  intros f Hf. by apply elem_of_nil in Hf.
Qed.

Lemma video_step_inv seen qd f qd' :
  video_step qd f = Ok qd' → video_inv seen qd → video_inv (seen ++ [f]) qd'.
Proof.
  unfold video_step. intros (vcodec & Hvc & H)%bind_Ok (Hnd & Hent & Hrep).
  destruct (truthy (dict_get f "height")) eqn:Hh; last first.
  { injection H as <-. split; [done|]. split.
    - intros k e Hk. destruct (Hent k e Hk) as [? ?].
      split; [done|]. apply elem_of_app. by left.
    - intros f' [Hf'| ->]%elem_of_snoc Hh'; [auto|].
      congruence. }
  apply bind_Ok in H as (quality & Hq & H).
  set (k := quality +:+ tier_suffix (is_premium vcodec)) in *.
  set (e := {| e_format := f; e_display := quality |}) in *.
  assert (quality_key f = Ok k) as Hkey.
  { unfold quality_key. rewrite Hvc, Hq. done. }
  assert (entry_ok k e) as He by (by constructor).
  destruct (qd_lookup k qd) as [cur|] eqn:Hcur.
  - apply bind_Ok in H as (better & Hb & [= <-]).
    destruct (Hent k cur Hcur) as [Hcur_ok Hcur_in].
    destruct better.
    + split; [by apply qd_set_NoDup|]. split.
      * intros k' e'. rewrite qd_lookup_set. case_decide as Hk'.
        -- intros [= <-]. subst k'. split; [done|].
           apply elem_of_app. right. by apply list_elem_of_singleton.
        -- intros Hk. destruct (Hent k' e' Hk) as [? ?].
           split; [done|]. apply elem_of_app. by left.
      * intros f' [Hf'| ->]%elem_of_snoc Hh'.
        -- destruct (Hrep f' Hf' Hh') as (k' & e' & Hk' & Hl' & Hle).
           exists k'. rewrite qd_lookup_set. case_decide as Hkk.
           ++ subst k'. exists e. split; [done|]. split; [done|].
              rewrite Hcur in Hl'. injection Hl' as ->.
              by eapply stands_for_replace.
           ++ by exists e'.
        -- exists k, e. rewrite qd_lookup_set.
           case_decide; [|done]. repeat split; [done|by left].
    + split; [done|]. split.
      * intros k' e' Hk. destruct (Hent k' e' Hk) as [? ?].
        split; [done|]. apply elem_of_app. by left.
      * intros f' [Hf'| ->]%elem_of_snoc Hh'; [auto|].
        exists k, cur. repeat split; [done..|by right].
  - injection H as <-.
    split; [by apply qd_set_NoDup|]. split.
    + intros k' e'. rewrite qd_lookup_set. case_decide as Hk'.
      * intros [= <-]. subst k'. split; [done|].
        apply elem_of_app. right. by apply list_elem_of_singleton.
      * intros Hk. destruct (Hent k' e' Hk) as [? ?].
        split; [done|]. apply elem_of_app. by left.
    + intros f' [Hf'| ->]%elem_of_snoc Hh'.
      * destruct (Hrep f' Hf' Hh') as (k' & e' & Hk' & Hl' & Hle).
        exists k', e'. rewrite qd_lookup_set. case_decide; [congruence|done].
      * exists k, e. rewrite qd_lookup_set.
        case_decide; [|done]. repeat split; [done|by left].
Qed.

Lemma video_loop_inv l seen qd qd' :
  foldM video_step qd l = Ok qd' → video_inv seen qd →
  video_inv (seen ++ l) qd'.
Proof.
  revert seen qd. induction l as [|f l IH]; intros seen qd; simpl.
  - intros [= <-]. by rewrite app_nil_r.
  - intros (qd1 & Hstep & Hrest)%bind_Ok Hinv.
    rewrite (assoc_L (++) seen [f] l : seen ++ f :: l = (seen ++ [f]) ++ l).
    eapply IH; [done|]. by eapply video_step_inv.
Qed.

(** ** Grouping keys *)

Lemma quality_key_label f k label :
  quality_key f = Ok k → fmt_quality f = Ok label →
  k = label +:+ tier_suffix (premium_tier f).
Proof.
  unfold quality_key, premium_tier.
  intros (vcodec & -> & (quality & Hq & [= <-])%bind_Ok)%bind_Ok Hl.
  congruence.
Qed.

Lemma str_length_app s t :
  String.length (s +:+ t) = (String.length s + String.length t)%nat.
Proof. induction s as [|c s IH]; simpl; [done|]. by rewrite IH. Qed.

(** The grouping key determines the label and the tier. *)
Lemma tier_key_inj l1 l2 t1 t2 :
  l1 +:+ tier_suffix t1 = l2 +:+ tier_suffix t2 → l1 = l2 ∧ t1 = t2.
Proof.
  revert l2. induction l1 as [|c1 l1 IH]; intros [|c2 l2] H.
  - split; [done|]. by destruct t1, t2.
  - exfalso. pose proof (f_equal String.length H) as Hlen.
    rewrite !str_length_app in Hlen.
    destruct t1, t2, l2 as [|? l2]; simpl in Hlen; try lia; cbv in H; discriminate.
  - exfalso. pose proof (f_equal String.length H) as Hlen.
    rewrite !str_length_app in Hlen.
    destruct t1, t2, l1 as [|? l1]; simpl in Hlen; try lia; cbv in H; discriminate.
  - injection H as -> H. destruct (IH _ H) as [-> ->]. done.
Qed.

(** ** What the video branch returns *)

Lemma elem_of_List_filter {A : Type} (p : A → bool) (x : A) (l : list A) :
  x ∈ List.filter p l ↔ x ∈ l ∧ p x = true.
Proof. rewrite !list_elem_of_In. apply filter_In. Qed.

Lemma elem_of_all_formats f formats :
  f ∈ all_formats formats ↔ f ∈ formats ∧ is_video_format f = true.
Proof.
  unfold all_formats, video_formats, combined_formats.
  rewrite elem_of_app, !elem_of_List_filter.
  unfold is_combined_format, is_video_format.
  destruct (py_ne (dict_get f "vcodec") (PStr "none")),
    (py_ne (dict_get f "acodec") (PStr "none")),
    (truthy (dict_get f "height")); simpl; tauto.
Qed.

Lemma all_formats_height f formats :
  f ∈ all_formats formats → truthy (dict_get f "height") = true.
Proof.
  intros [_ H]%elem_of_all_formats. unfold is_video_format in H.
  by apply andb_true_iff in H as [_ H].
Qed.

Lemma StronglySorted_fmap_on {A B : Type} (R : relation A) (S : relation B)
    (P : A → Prop) (g : A → B) (l : list A) :
  (∀ x y, P x → P y → R x y → S (g x) (g y)) →
  Forall P l → StronglySorted R l → StronglySorted S (g <$> l).
Proof.
  intros HRS HP Hs. induction Hs as [|x l Hs IH Hx]; simpl; [constructor|].
  apply Forall_cons in HP as [Px HP].
  constructor; [by apply IH|].
  rewrite Forall_fmap. rewrite Forall_forall in Hx, HP |- *.
  intros y Hy. simpl. apply HRS; auto.
Qed.

Lemma fmap_snd_fst_agree {A B C : Type} (g : B → C) (h : A → C)
    (l : list (A * B)) :
  (∀ a b, (a, b) ∈ l → g b = h a) → g <$> l.*2 = h <$> l.*1.
Proof.
  induction l as [|[a b] l IH]; intros H; simpl; [done|].
  f_equal.
  - apply H. apply list_elem_of_here.
  - apply IH. intros a' b' Hin. apply H. by apply list_elem_of_further.
Qed.

(** The facts about a successful run of the video branch that the
    properties below are read off from. *)
Lemma video_qualities_inv formats qs :
  video_qualities formats = Ok qs →
  NoDup ((λ q, quality_key q.2) <$> qs) ∧
  Forall (λ q, fmt_quality q.2 = Ok q.1 ∧
               quality_key q.2 = Ok (q.1 +:+ tier_suffix (premium_tier q.2)) ∧
               q.2 ∈ all_formats formats) qs ∧
  (Forall (λ q, key_defined (video_rank q.2)) qs →
   StronglySorted video_ge qs) ∧
  (∀ f, f ∈ all_formats formats →
     ∃ k q, quality_key f = Ok k ∧ q ∈ qs ∧ quality_key q.2 = Ok k ∧
            stands_for q.2 f).
Proof.
  unfold video_qualities.
  intros (qd & Hloop & (sorted & Hsort & [= <-])%bind_Ok)%bind_Ok.
  apply (video_loop_inv _ []) in Hloop; [|apply video_inv_nil].
  simpl in Hloop. destruct Hloop as (Hnd & Hent & Hrep).
  pose proof (py_sorted_rev_perm _ _ _ _ Hsort) as Hperm.
  assert (∀ e, e ∈ sorted → ∃ k, qd_lookup k qd = Some e) as Hsorted_in.
  { intros e He. rewrite <- Hperm in He.
    apply list_elem_of_fmap in He as ([k e'] & -> & Hin).
    exists k. by apply elem_qd_lookup. }
  assert (Forall (λ e, ∃ k, entry_ok k e ∧ e_format e ∈ all_formats formats)
            sorted) as Hall.
  { apply Forall_forall. intros e [k Hk]%Hsorted_in.
    exists k. by apply Hent. }
  split; [|split; [|split]].
  - rewrite <- list_fmap_compose.
    assert ((λ q, quality_key q.2) ∘ (λ q, (e_display q, e_format q))
            <$> sorted ≡ₚ Ok <$> qd.*1) as ->.
    { rewrite <- Hperm.
      rewrite (fmap_snd_fst_agree _ Ok); [done|].
      intros k e Hin. simpl.
      apply elem_qd_lookup in Hin; [|done]. by destruct (Hent k e Hin) as [[]]. }
    apply NoDup_fmap_2; [|done]. by intros ?? [=].
  - apply Forall_fmap. eapply Forall_impl; [exact Hall|].
    intros e (k & [Hk Hd ? ?] & ?). simpl.
    split; [done|]. split; [|done].
    by rewrite <- (quality_key_label _ _ _ Hk Hd).
  - intros Hdef.
    eapply (StronglySorted_fmap_on
              (λ e1 e2, rank_ge (entry_key e1) (entry_key e2))); [|exact Hall|].
    + intros e1 e2 (k1 & [] & _) (k2 & [] & _). unfold video_ge. simpl.
      congruence.
    + eapply (@py_sorted_rev_sorted _ _ tuple_lt entry_key
                (λ e1 e2, rank_ge (entry_key e1) (entry_key e2))
                (λ x y z, rank_ge_trans _ _ _)
                (λ e, key_defined (entry_key e))); [| | |exact Hsort].
      * intros x y Hx Hy H. by apply tuple_lt_false.
      * intros x y Hx Hy H. by apply tuple_lt_true.
      * rewrite Hperm. apply Forall_forall. intros e He.
        destruct (proj1 (Forall_forall _ _) Hall e He) as (k & [_ _ -> _] & _).
        apply (proj1 (Forall_forall _ _) Hdef (e_display e, e_format e)).
        apply list_elem_of_fmap. by exists e.
  - intros f Hf.
    destruct (Hrep f Hf (all_formats_height _ _ Hf)) as (k & e & Hk & Hl & Hle).
    exists k, (e_display e, e_format e). split; [done|]. split; [|split].
    + apply list_elem_of_fmap. exists e. split; [done|].
      rewrite <- Hperm. apply list_elem_of_fmap. exists (k, e).
      split; [done|]. by apply qd_lookup_elem.
    + simpl. by destruct (Hent k e Hl) as [[]].
    + done.
Qed.

(** ** What the audio branch returns *)

(** The sort key is the bitrate of the claim, a zero of either type being
    the integer 0. *)
Lemma audio_key_bitrate q :
  audio_key q = bitrate_or_zero q.2 ∨
  ∃ s, bitrate_or_zero q.2 = PFloat (S754_zero s) ∧ audio_key q = PInt 0.
Proof.
  unfold audio_key, bitrate_or_zero, dict_get, py_or.
  destruct (q.2 !! "abr") as [[|n|s|x]|]; simpl; try (by left).
  - left. by destruct (Z.eqb_spec n 0) as [->|].
  - destruct x as [s|s| |s m e]; simpl; try (by left). right. by exists s.
Qed.

Lemma pyval_le_zero_l s b :
  pyval_le (PFloat (S754_zero s)) b ↔ pyval_le (PInt 0) b.
Proof.
  destruct b as [|y|t|y]; unfold pyval_le; try done.
  by rewrite <- Zle_num_le.
Qed.

Lemma pyval_le_zero_r s a :
  pyval_le a (PFloat (S754_zero s)) ↔ pyval_le a (PInt 0).
Proof.
  destruct a as [|y|t|y]; unfold pyval_le; try done.
  by rewrite <- Zle_num_le.
Qed.

Lemma audio_key_le x y :
  pyval_le (audio_key x) (audio_key y) ↔
  pyval_le (bitrate_or_zero x.2) (bitrate_or_zero y.2).
Proof.
  destruct (audio_key_bitrate x) as [->|(s & -> & ->)],
           (audio_key_bitrate y) as [->|(t & -> & ->)];
    by rewrite ?pyval_le_zero_l, ?pyval_le_zero_r.
Qed.

Lemma audio_key_nan q : is_nan (audio_key q) = is_nan (bitrate_or_zero q.2).
Proof. by destruct (audio_key_bitrate q) as [->|(s & -> & ->)]. Qed.

Global Instance audio_ge_trans : Transitive audio_ge.
Proof. unfold audio_ge. intros a b c H1 H2. by etrans. Qed.

Lemma audio_step_inv seen qd f qd' :
  audio_step qd f = Ok qd' → audio_inv seen qd → audio_inv (seen ++ [f]) qd'.
Proof.
  unfold audio_step. intros (quality & Hq & H)%bind_Ok (Hnd & Hent).
  assert (∀ k g, qd_lookup k qd = Some g →
            audio_quality g = Ok k ∧ g ∈ seen ++ [f]) as Hold.
  { intros k g Hk. destruct (Hent k g Hk) as [? ?].
    split; [done|]. apply elem_of_app. by left. }
  assert (∀ k g, qd_lookup k (qd_set quality f qd) = Some g →
            audio_quality g = Ok k ∧ g ∈ seen ++ [f]) as Hnew.
  { intros k g. rewrite qd_lookup_set. case_decide as Hk; [|by apply Hold].
    intros [= <-]. subst k. split; [done|].
    apply elem_of_snoc. by right. }
  destruct (qd_lookup quality qd) as [cur|] eqn:Hcur.
  - injection H as <-.
    destruct (safe_gt (fmt_safe_abr f) (fmt_safe_abr cur)).
    + split; [by apply qd_set_NoDup | done].
    + by split.
  - injection H as <-. split; [by apply qd_set_NoDup | done].
Qed.

Lemma audio_loop_inv l seen qd qd' :
  foldM audio_step qd l = Ok qd' → audio_inv seen qd →
  audio_inv (seen ++ l) qd'.
Proof.
  revert seen qd. induction l as [|f l IH]; intros seen qd; simpl.
  - intros [= <-]. by rewrite app_nil_r.
  - intros (qd1 & Hstep & Hrest)%bind_Ok Hinv.
    rewrite (assoc_L (++) seen [f] l : seen ++ f :: l = (seen ++ [f]) ++ l).
    eapply IH; [done|]. by eapply audio_step_inv.
Qed.

Lemma audio_qualities_inv formats qs :
  audio_qualities formats = Ok qs →
  NoDup qs.*1 ∧
  Forall (λ q, audio_quality q.2 = Ok q.1 ∧ q.2 ∈ audio_formats formats) qs ∧
  (Forall (λ q, is_nan (bitrate_or_zero q.2) = false) qs →
   StronglySorted audio_ge qs).
Proof.
  unfold audio_qualities. intros (qd & Hloop & Hsort)%bind_Ok.
  apply (audio_loop_inv _ []) in Hloop; [|by split; [constructor|]].
  simpl in Hloop. destruct Hloop as (Hnd & Hent).
  pose proof (py_sorted_rev_perm _ _ _ _ Hsort) as Hperm.
  split; [|split].
  - by rewrite <- Hperm.
  - apply Forall_forall. intros [k f] Hin. rewrite <- Hperm in Hin.
    apply elem_qd_lookup in Hin; [|done]. by apply Hent.
  - intros Hdef.
    eapply (py_sorted_rev_sorted py_lt audio_key audio_ge
              (λ q, is_nan (audio_key q) = false)); [| | |exact Hsort].
    + intros x y Hx Hy H%py_lt_false; [|done..]. by apply audio_key_le.
    + intros x y Hx Hy [H _]%py_lt_true. by apply audio_key_le.
    + rewrite Hperm. eapply Forall_impl; [exact Hdef|].
      intros q Hq. by rewrite audio_key_nan.
Qed.

(** ** The dispatch on [download_type] *)

Lemma get_available_qualities_video formats download_type :
  video_mode download_type →
  get_available_qualities (InfoDict (Some formats)) download_type
  = video_qualities formats.
Proof. intros H. simpl. by rewrite bool_decide_eq_true_2. Qed.

Lemma get_available_qualities_audio formats download_type :
  audio_mode download_type →
  get_available_qualities (InfoDict (Some formats)) download_type
  = audio_qualities formats.
Proof.
  intros H. simpl. rewrite bool_decide_eq_false_2.
  - by rewrite bool_decide_eq_true_2.
  - unfold audio_mode in H. lia.
Qed.

(** A successful call ran the video branch, ran the audio branch, or
    returned the empty list at once. *)
Lemma get_available_qualities_cases i download_type qs :
  get_available_qualities i download_type = Ok qs →
  (∃ formats, i = InfoDict (Some formats) ∧ video_mode download_type ∧
              video_qualities formats = Ok qs) ∨
  (∃ formats, i = InfoDict (Some formats) ∧ audio_mode download_type ∧
              audio_qualities formats = Ok qs) ∨
  (¬ video_mode download_type ∧ qs = []) ∨
  ((i = InfoNone ∨ i = InfoDict None) ∧ qs = []).
Proof.
  destruct i as [|[formats|]]; simpl.
  - intros [= <-]. right. right. right. auto.
  - repeat case_bool_decide.
    + intros Hqs. left. by exists formats.
    + intros Hqs. right. left. by exists formats.
    + intros [= <-]. right. right. left. done.
  - intros [= <-]. right. right. right. auto.
Qed.

(** ** Labels are unique within a tier *)

(** C1, as the code has it.  Whenever the ranker returns, the pairs
    (display label, codec tier of the backing stream) of its result are
    pairwise distinct, and outside the video modes the display labels
    themselves are pairwise distinct.  In a video mode one label can be
    returned once for the standard and once for the premium tier. *)
Theorem labels_unique_within_tier (i : info) (download_type : Z)
    (qs : list (string * fmt)) :
  get_available_qualities i download_type = Ok qs →
  NoDup ((λ q, (q.1, premium_tier q.2)) <$> qs) ∧
  (¬ video_mode download_type → NoDup qs.*1).
Proof.
  intros [(formats & -> & Hv & H)|[(formats & -> & Ha & H)|[[Hn ->]|[_ ->]]]]
    %get_available_qualities_cases.
  - apply video_qualities_inv in H as (Hnd & Hall & _). split; [|done].
    eapply (NoDup_fmap_1 (λ p, Ok (p.1 +:+ tier_suffix p.2) : result string)).
    rewrite <- list_fmap_compose.
    rewrite <- (Forall_fmap_ext_1 (λ q, quality_key q.2)); [done|].
    eapply Forall_impl; [exact Hall|]. by intros q (_ & -> & _).
  - apply audio_qualities_inv in H as (Hnd & _).
    split; [|done].
    eapply (NoDup_fmap_1 fst). by rewrite <- list_fmap_compose.
  - split; [constructor | intros _; constructor].
  - split; [constructor | intros _; constructor].
Qed.

Lemma labels_unique_within_tier_witness :
  get_available_qualities scenario_A 1 = Ok scenario_A_ranked ∧
  NoDup ((λ q, (q.1, premium_tier q.2)) <$> scenario_A_ranked) ∧
  (¬ video_mode 1 → NoDup scenario_A_ranked.*1).
Proof.
  split; [vm_compute; reflexivity|].
  apply (labels_unique_within_tier scenario_A 1). vm_compute. reflexivity.
Defined.

(** The labels the ranker returns for the three streams of scenario A
    repeat ["1080p"]. *)
Lemma video_labels_repeat :
  fmap (M:=result) (fmap fst) (get_available_qualities scenario_A 1)
  = Ok ["1080p"; "1080p"; "720p"] ∧
  ¬ NoDup ["1080p"; "1080p"; "720p"].
Proof.
  split; [vm_compute; reflexivity|].
  intros [Hnot _]%NoDup_cons. apply Hnot. apply list_elem_of_here.
Qed.

(** ** A bitrate of [None] in the video branch *)

(** C2, the video branch on a [tbr] of [None].  In a video mode a combined
    stream whose [tbr] is [None] is compared with itself and the ranker
    raises [TypeError]; so it does for a stream with [tbr] [None] and one
    with [tbr] 64 under the same key.  The audio branch ranks the same
    catalog without raising. *)
Theorem video_none_tbr_raises :
  get_available_qualities (InfoDict (Some [combined_360_no_tbr])) 1
  = Raise TypeError ∧
  get_available_qualities (InfoDict (Some [video_480_none; video_480_64])) 1
  = Raise TypeError ∧
  get_available_qualities (InfoDict (Some [combined_360_no_tbr])) 2
  = Ok [("MP4 (mp4a.40.2)", combined_360_no_tbr)].
Proof. repeat split; vm_compute; reflexivity. Qed.

(** ** Scenario A *)

(** C3, as the code has it.  For the three streams of scenario A, in
    either video mode, the menu offers ["1080p"], ["1080p (Premium)"],
    ["720p"] in this order: the standard 1080 stream was seen first and
    the sort keeps it first among equal keys.  The printed lines are these
    labels, numbered from 1. *)
Theorem scenario_A_menu :
  (qs ← get_available_qualities scenario_A 1; display_labels qs 1)
  = Ok ["1080p"; "1080p (Premium)"; "720p"] ∧
  (qs ← get_available_qualities scenario_A 3; display_labels qs 3)
  = Ok ["1080p"; "1080p (Premium)"; "720p"] ∧
  (qs ← get_available_qualities scenario_A 1; display_lines qs 1)
  = Ok ["1. 1080p"; "2. 1080p (Premium)"; "3. 720p"].
Proof. repeat split; vm_compute; reflexivity. Qed.

(** The menu of scenario A is not the one that puts the premium entry
    first. *)
Lemma scenario_A_menu_not_premium_first :
  (qs ← get_available_qualities scenario_A 1; display_labels qs 1)
  ≠ Ok ["1080p (Premium)"; "1080p"; "720p"].
Proof. vm_compute. discriminate. Qed.

(** ** Unknown modes *)

(** C10.  For a [download_type] that is none of 1, 2, 3, 4 the ranker
    returns the empty list, whatever the catalog, and does not raise. *)
Theorem unknown_mode_empty (i : info) (download_type : Z) :
  download_type ≠ 1 → download_type ≠ 2 →
  download_type ≠ 3 → download_type ≠ 4 →
  get_available_qualities i download_type = Ok [].
Proof.
  intros H1 H2 H3 H4. destruct i as [|[formats|]]; simpl; try done.
  rewrite !bool_decide_eq_false_2; [done|lia|lia].
Qed.

Lemma unknown_mode_empty_witness :
  get_available_qualities scenario_A 5 = Ok [] ∧
  get_available_qualities scenario_A 0 = Ok [].
Proof.
  split.
  - apply (unknown_mode_empty scenario_A 5); lia.
  - apply (unknown_mode_empty scenario_A 0); lia.
Defined.

(** ** Grouping *)

(** A stream stands for another whose [tbr] is not above its own, when
    neither [tbr] is NaN. *)
Lemma stands_for_le g f :
  stands_for g f → is_nan (fmt_tbr f) = false → is_nan (fmt_tbr g) = false →
  pyval_le (fmt_tbr f) (fmt_tbr g).
Proof.
  intros [->|H] Hf Hg; [by apply pyval_le_refl | by apply py_lt_false].
Qed.

(** C6, as the code has it.  In a video mode, on a catalog in which no
    [tbr] is NaN, whenever the ranker returns, every candidate stream [f]
    is represented by exactly one option: the option carries [f]'s
    quality label (the resolution, with the frame rate when it exceeds
    30), its backing stream [g] is a candidate of the same label and codec
    tier whose [tbr] (0 when the key is missing) is at least that of [f],
    and no other position of the result holds an option of that label and
    tier.  Hence candidates that share label and tier collapse into one
    option backed by a stream of highest [tbr] among them. *)
Theorem video_group_representative (formats : list fmt) (download_type : Z)
    (qs : list (string * fmt)) (f : fmt) :
  video_mode download_type →
  Forall (λ f, is_nan (fmt_tbr f) = false) formats →
  get_available_qualities (InfoDict (Some formats)) download_type = Ok qs →
  f ∈ formats → is_video_format f = true →
  ∃ (label : string) (n : nat) (g : fmt),
    fmt_quality f = Ok label ∧
    qs !! n = Some (label, g) ∧
    g ∈ formats ∧ is_video_format g = true ∧
    fmt_quality g = Ok label ∧ premium_tier g = premium_tier f ∧
    pyval_le (fmt_tbr f) (fmt_tbr g) ∧
    ∀ (m : nat) (q : string * fmt),
      qs !! m = Some q → fmt_quality q.2 = Ok label →
      premium_tier q.2 = premium_tier f → m = n.
Proof.
  intros Hv Hnan Hrun Hf Hcand.
  rewrite get_available_qualities_video in Hrun by done.
  apply video_qualities_inv in Hrun as (Hnd & Hall & _ & Hrep).
  rewrite Forall_forall in Hall. rewrite Forall_forall in Hnan.
  destruct (Hrep f) as (k & [label g] & Hk & Hin & Hkg & Hst).
  { by apply elem_of_all_formats. }
  destruct (Hall _ Hin) as (Hlabel & Hkey & Hg). simpl in *.
  apply elem_of_all_formats in Hg as [Hg Hgc].
  assert (pyval_le (fmt_tbr f) (fmt_tbr g)) as Hle
    by (apply stands_for_le; auto).
  assert (∃ lf, fmt_quality f = Ok lf) as [lf Hlf].
  { unfold quality_key in Hk.
    apply bind_Ok in Hk as (? & _ & (lf & ? & _)%bind_Ok). by exists lf. }
  pose proof (quality_key_label _ _ _ Hk Hlf) as Hkf.
  rewrite Hkey in Hkg. injection Hkg as Hkg. rewrite Hkf in Hkg.
  apply tier_key_inj in Hkg as [-> Htier].
  apply list_elem_of_lookup in Hin as [n Hn].
  exists lf, n, g. repeat (split; [done|]).
  intros m q Hm Hql Hqt.
  eapply (NoDup_lookup _ m n); [exact Hnd| |].
  - rewrite list_lookup_fmap, Hm. simpl. reflexivity.
  - rewrite list_lookup_fmap, Hn. simpl. f_equal.
    destruct (Hall q) as (Hq1 & Hqk & _).
    { apply list_elem_of_lookup. by exists m. }
    rewrite Hqk, Hkey. rewrite Hql in Hq1. injection Hq1 as <-.
    by rewrite Hqt, Htier.
Qed.

Lemma video_group_representative_witness :
  video_mode 1 ∧
  Forall (λ f, is_nan (fmt_tbr f) = false) catalog_1080_group ∧
  get_available_qualities (InfoDict (Some catalog_1080_group)) 1
  = Ok ranked_1080_group ∧
  video_1080_30 ∈ catalog_1080_group ∧
  is_video_format video_1080_30 = true ∧
  ∃ (label : string) (n : nat) (g : fmt),
    fmt_quality video_1080_30 = Ok label ∧
    ranked_1080_group !! n = Some (label, g) ∧
    g ∈ catalog_1080_group ∧
    is_video_format g = true ∧
    fmt_quality g = Ok label ∧
    premium_tier g = premium_tier video_1080_30 ∧
    pyval_le (fmt_tbr video_1080_30) (fmt_tbr g) ∧
    ∀ (m : nat) (q : string * fmt),
      ranked_1080_group !! m = Some q → fmt_quality q.2 = Ok label →
      premium_tier q.2 = premium_tier video_1080_30 → m = n.
Proof.
  assert (Forall (λ f, is_nan (fmt_tbr f) = false) catalog_1080_group)
    as Hnan by (repeat constructor).
  assert (get_available_qualities (InfoDict (Some catalog_1080_group)) 1
          = Ok ranked_1080_group) as Hrun by (vm_compute; reflexivity).
  assert (video_1080_30 ∈ catalog_1080_group) as Hin
    by apply list_elem_of_here.
  split; [by left|]. split; [exact Hnan|]. split; [exact Hrun|].
  split; [exact Hin|]. split; [vm_compute; reflexivity|].
  apply (video_group_representative catalog_1080_group 1 ranked_1080_group
           video_1080_30 (or_introl eq_refl) Hnan Hrun Hin).
  vm_compute. reflexivity.
Defined.

(** The catalog of the witness: the stream at bitrate 4400 and the stream
    at bitrate 5210.5 share the option ["1080p"], and the latter backs
    it. *)
Lemma catalog_1080_group_collapses :
  fmt_quality video_1080_30 = Ok "1080p" ∧
  fmt_quality video_1080_30_hi = Ok "1080p" ∧
  premium_tier video_1080_30 = premium_tier video_1080_30_hi ∧
  py_str (fmt_tbr video_1080_30_hi) = "5210.5" ∧
  py_lt (fmt_tbr video_1080_30) (fmt_tbr video_1080_30_hi) = Ok true ∧
  ranked_1080_group
  = [("1080p60", video_1080_60); ("1080p", video_1080_30_hi)].
Proof. repeat split; vm_compute; reflexivity. Qed.

(** With a [tbr] of NaN the comparison [>] is false both ways and the
    stream that came first stays, whatever the other's bitrate. *)
Lemma nan_tbr_first_stream_kept :
  fmt_quality video_720_nan = fmt_quality video_720_5000 ∧
  premium_tier video_720_nan = premium_tier video_720_5000 ∧
  fmt_tbr video_720_nan = PFloat S754_nan ∧
  py_str (fmt_tbr video_720_5000) = "5000.0" ∧
  get_available_qualities (InfoDict (Some [video_720_nan; video_720_5000])) 1
  = Ok [("720p", video_720_nan)].
Proof. repeat split; vm_compute; reflexivity. Qed.

(** Two candidate streams of the same resolution and the same codec tier,
    at 30 and at 60 frames per second, stay two options. *)
Lemma same_resolution_tier_two_options :
  dict_get video_1080_30 "height" = dict_get video_1080_60 "height" ∧
  premium_tier video_1080_30 = premium_tier video_1080_60 ∧
  is_video_format video_1080_30 = true ∧
  is_video_format video_1080_60 = true ∧
  get_available_qualities (InfoDict (Some [video_1080_30; video_1080_60])) 1
  = Ok [("1080p60", video_1080_60); ("1080p", video_1080_30)].
Proof. repeat split; vm_compute; reflexivity. Qed.

(** ** The request builder *)

(** C4.  In both video modes the fallback of the format selector is
    [best[height<=1080]] whatever the chosen format identifier: the
    ceiling is the constant ["1080"], the same for every invocation. *)
Theorem fallback_ceiling_constant (format_id : pyval)
    (output_path : option string) :
  extract_height_from_format_id format_id = "1080" ∧
  o_format <$> download_video_opts format_id 1 output_path
  = Some (py_str format_id +:+ "+bestaudio[ext=m4a]/best[height<=1080]") ∧
  o_format <$> download_video_opts format_id 3 output_path
  = Some (py_str format_id +:+ "+bestaudio[ext=m4a]/best[height<=1080]").
Proof. repeat split. Qed.

(** ** The URL classifier *)

Lemma str_prefix_spec n h :
  String.prefix n h = true ↔ ∃ post, h = n +:+ post.
Proof.
  revert h. induction n as [|c n IH]; intros h.
  - split; [intros _; by exists h | by destruct h].
  - destruct h as [|d h]; simpl.
    + split; [done | intros [post [=]]].
    + destruct (ascii_dec c d) as [->|Hne].
      * rewrite IH. split.
        -- intros [post ->]. by exists post.
        -- intros [post [= ->]]. by exists post.
      * split; [done|]. intros [post [= -> _]]. done.
Qed.

Lemma str_contains_spec n h :
  str_contains n h = true ↔ ∃ pre post, h = pre +:+ n +:+ post.
Proof.
  induction h as [|d h IH].
  - change (str_contains n "") with (String.prefix n "" || false).
    rewrite orb_false_r, str_prefix_spec. split.
    + intros [post ->]. by exists "", post.
    + intros ([|? pre] & post & H); [by exists post | done].
  - change (str_contains n (String d h))
      with (String.prefix n (String d h) || str_contains n h).
    rewrite orb_true_iff, str_prefix_spec, IH. split.
    + intros [[post ->]|(pre & post & ->)].
      * by exists "", post.
      * by exists (String d pre), post.
    + intros ([|c pre] & post & H).
      * left. by exists post.
      * right. injection H as -> ->. by exists pre, post.
Qed.

Lemma str_map_app g s t : str_map g (s +:+ t) = str_map g s +:+ str_map g t.
Proof. induction s as [|c s IH]; simpl; [done|]. by rewrite IH. Qed.

Lemma str_map_app_inv g s a b :
  str_map g s = a +:+ b →
  ∃ s1 s2, s = s1 +:+ s2 ∧ str_map g s1 = a ∧ str_map g s2 = b.
Proof.
  revert s. induction a as [|c a IH]; intros s H.
  - by exists "", s.
  - destruct s as [|d s]; [done|]. injection H as Hc H.
    destruct (IH _ H) as (s1 & s2 & -> & <- & <-).
    exists (String d s1), s2. simpl. by rewrite Hc.
Qed.

Lemma contains_ignoring_case_spec needle url :
  str_contains (str_lower needle) (str_lower url) = true ↔
  contains_ignoring_case needle url.
Proof.
  unfold contains_ignoring_case, str_lower. rewrite str_contains_spec. split.
  - intros (pre' & post' & H).
    apply str_map_app_inv in H as (pre & rest & -> & <- & H).
    apply str_map_app_inv in H as (mid & post & -> & H & <-).
    by exists pre, mid, post.
  - intros (pre & mid & post & -> & <-).
    exists (str_map lower_ascii pre), (str_map lower_ascii post).
    by rewrite !str_map_app.
Qed.

(** C7, as the code has it.  [is_playlist] holds of a URL exactly when
    the URL contains one of ["playlist"], ["list="], ["album"], ["channel"], the
    case of letters being ignored; nothing else in the URL matters. *)
Theorem is_playlist_spec (url : string) :
  is_playlist url = true ↔
  contains_ignoring_case "playlist" url ∨
  contains_ignoring_case "list=" url ∨
  contains_ignoring_case "album" url ∨
  contains_ignoring_case "channel" url.
Proof.
  unfold is_playlist, playlist_indicators. cbn [existsb].
  rewrite orb_false_r, !orb_true_iff.
  rewrite <- !contains_ignoring_case_spec. reflexivity.
Qed.

(** An album URL is classified as a playlist although it contains neither
    ["list="] nor ["playlist"]. *)
Lemma album_url_is_playlist :
  is_playlist "https://music.example.com/album/42" = true ∧
  ¬ (contains_ignoring_case "list=" "https://music.example.com/album/42" ∨
     contains_ignoring_case "playlist" "https://music.example.com/album/42").
Proof.
  split; [vm_compute; reflexivity|].
  rewrite <- !contains_ignoring_case_spec. vm_compute.
  intros [[=]|[=]].
Qed.

(** ** Candidate pools *)

(** C8, as the code has it.  When the catalog has at least one
    audio-only stream, the video candidates and the audio candidates are disjoint,
    and so are the backing streams of the two rankings.  Without an
    audio-only stream the audio pool falls back to every stream with an
    audio codec, combined streams included. *)
Theorem pools_disjoint_with_audio_only (formats : list fmt) :
  List.filter is_audio_only formats ≠ [] →
  (∀ f, f ∈ all_formats formats → f ∉ audio_formats formats) ∧
  (∀ qv qa, video_qualities formats = Ok qv →
            audio_qualities formats = Ok qa →
            ∀ f, f ∈ qv.*2 → f ∉ qa.*2).
Proof.
  intros Hne.
  assert (∀ f, f ∈ all_formats formats → f ∉ audio_formats formats) as Hpool.
  { intros f [_ Hv]%elem_of_all_formats Ha.
    unfold audio_formats in Ha.
    destruct (List.filter is_audio_only formats) as [|g gs] eqn:E; [done|].
    rewrite <- E in Ha. apply elem_of_List_filter in Ha as [_ Ha].
    unfold is_video_format, is_audio_only, py_ne in *.
    destruct (py_eq (dict_get f "vcodec") (PStr "none")); simpl in *.
    - done.
    - by rewrite andb_false_r in Ha. }
  split; [done|].
  intros qv qa (_ & Hv & _)%video_qualities_inv (_ & Ha & _)%audio_qualities_inv.
  rewrite Forall_forall in Hv, Ha.
  intros f ([l g] & -> & Hin)%list_elem_of_fmap
           ([l' g'] & Heq & Hin')%list_elem_of_fmap.
  simpl in Heq. subst g'.
  apply (Hpool g).
  - by destruct (Hv _ Hin) as (_ & _ & ?).
  - by destruct (Ha _ Hin') as (_ & ?).
Qed.

Lemma pools_disjoint_with_audio_only_witness :
  List.filter is_audio_only [combined_720; audio_m4a_128] ≠ [] ∧
  (∀ f, f ∈ all_formats [combined_720; audio_m4a_128] →
        f ∉ audio_formats [combined_720; audio_m4a_128]) ∧
  (∀ qv qa, video_qualities [combined_720; audio_m4a_128] = Ok qv →
            audio_qualities [combined_720; audio_m4a_128] = Ok qa →
            ∀ f, f ∈ qv.*2 → f ∉ qa.*2).
Proof.
  split; [vm_compute; discriminate|].
  apply (pools_disjoint_with_audio_only [combined_720; audio_m4a_128]).
  vm_compute. discriminate.
Defined.

(** A catalog with a single combined stream: the stream is a video
    candidate and an audio candidate, and both rankings offer it. *)
Lemma combined_stream_in_both_pools :
  combined_720 ∈ all_formats [combined_720] ∧
  combined_720 ∈ audio_formats [combined_720] ∧
  get_available_qualities (InfoDict (Some [combined_720])) 1
  = Ok [("720p", combined_720)] ∧
  get_available_qualities (InfoDict (Some [combined_720])) 2
  = Ok [("MP4 (mp4a.40.2)", combined_720)].
Proof.
  split; [|split; [|split; vm_compute; reflexivity]].
  - apply elem_of_all_formats. split; [apply list_elem_of_here|].
    vm_compute. reflexivity.
  - assert (audio_formats [combined_720] = [combined_720]) as ->
      by (vm_compute; reflexivity).
    apply list_elem_of_here.
Qed.

(** ** The store model refines the value model *)

Lemma is_format_deref h l : is_format h l → h !! l = Some (Store.OFormat (deref h l)).
Proof. intros [d Hd]. unfold deref. by rewrite Hd. Qed.

Lemma is_format_app h k l : is_format h l → is_format (h ++ k) l.
Proof. intros [d Hd]. exists d. by apply lookup_app_l_Some. Qed.

Lemma deref_app h k l : is_format h l → deref (h ++ k) l = deref h l.
Proof.
  intros [d Hd]. unfold deref. by rewrite (lookup_app_l_Some _ _ _ _ Hd), Hd.
Qed.

Lemma run_bind {A B : Type} (m : Store.M A) (k : A → Store.M B) h :
  (m ≫= k) h =
  match m h with
  | (Ok a, h') => k a h'
  | (Raise e, h') => (Raise e, h')
  end.
Proof. reflexivity. Qed.

Lemma load_format_ok h l :
  is_format h l → Store.load_format l h = (Ok (deref h l), h).
Proof. intros [d Hd]. unfold Store.load_format, deref. by rewrite Hd. Qed.

Lemma load_dict_new (h : Store.store) (o : Store.obj) :
  (h ++ [o]) !! length h = Some o.
Proof. by rewrite list_lookup_middle. Qed.

Lemma store_at_new (h : Store.store) (o o' : Store.obj) :
  Store.store_at (length h) o' (h ++ [o]) = (Ok tt, h ++ [o']).
Proof.
  unfold Store.store_at. f_equal.
  rewrite insert_app_r_alt by lia. by rewrite Nat.sub_diag.
Qed.

Lemma comprehension_ok cond h ls :
  Forall (is_format h) ls →
  Store.comprehension cond ls h
  = (Ok (List.filter (λ l, cond (deref h l)) ls), h).
Proof.
  induction 1 as [|l ls Hl Hls IH]; simpl; [done|].
  rewrite run_bind, load_format_ok by done.
  rewrite run_bind, IH. done.
Qed.

Lemma filter_deref cond h ls :
  deref h <$> List.filter (λ l, cond (deref h l)) ls
  = List.filter cond (deref h <$> ls).
Proof.
  induction ls as [|l ls IH]; [done|].
  rewrite fmap_cons. cbn [List.filter].
  destruct (cond (deref h l)); [rewrite fmap_cons|]; by rewrite IH.
Qed.

Lemma Forall_List_filter {A : Type} (P : A → Prop) (p : A → bool) l :
  Forall P l → Forall P (List.filter p l).
Proof.
  rewrite !Forall_forall. intros H x [Hx _]%elem_of_List_filter. auto.
Qed.

Lemma qd_lookup_fmap {V W : Type} (g : V → W) k (qd : list (string * V)) :
  qd_lookup k (prod_map id g <$> qd) = g <$> qd_lookup k qd.
Proof.
  induction qd as [|[k0 v0] qd IH]; [done|].
  rewrite fmap_cons. simpl. by destruct (String.eqb k k0).
Qed.

Lemma qd_set_fmap {V W : Type} (g : V → W) k v (qd : list (string * V)) :
  qd_set k (g v) (prod_map id g <$> qd) = prod_map id g <$> qd_set k v qd.
Proof.
  induction qd as [|[k0 v0] qd IH]; [done|].
  rewrite fmap_cons. simpl. destruct (String.eqb k k0); [done|].
  by rewrite fmap_cons, IH.
Qed.

Lemma entries_ok_lookup h qd k e :
  entries_ok h qd → qd_lookup k qd = Some e → is_format h (Store.he_format e).
Proof.
  intros Hok Hl%qd_lookup_elem. unfold entries_ok in Hok.
  rewrite Forall_forall in Hok. by apply (Hok (k, e)).
Qed.

Lemma entries_ok_set h qd k e :
  entries_ok h qd → is_format h (Store.he_format e) →
  entries_ok h (qd_set k e qd).
Proof.
  unfold entries_ok. intros Hok He.
  induction qd as [|[k0 v0] qd IH]; simpl.
  - by constructor.
  - apply Forall_cons in Hok as [? ?].
    destruct (String.eqb k k0); constructor; auto.
Qed.

Lemma run_lift {A B : Type} (r : result A) (k : A → Store.M B) h :
  (Store.lift r ≫= k) h =
  match r with
  | Ok a => k a h
  | Raise e => (Raise e, h)
  end.
Proof. rewrite run_bind. unfold Store.lift. by destruct r. Qed.

Lemma run_load_format {B : Type} l (k : fmt → Store.M B) h :
  is_format h l → (Store.load_format l ≫= k) h = k (deref h l) h.
Proof. intros Hl. by rewrite run_bind, load_format_ok. Qed.

Lemma run_load_video_dict {B : Type} (k : _ → Store.M B) h qd :
  (Store.load_video_dict (length h) ≫= k) (h ++ [Store.OVideoDict qd])
  = k qd (h ++ [Store.OVideoDict qd]).
Proof.
  rewrite run_bind. unfold Store.load_video_dict. by rewrite load_dict_new.
Qed.

Lemma video_step_sim h f qd :
  is_format h f → entries_ok h qd →
  ∃ r qd',
    Store.video_step (length h) f (h ++ [Store.OVideoDict qd])
    = (r, h ++ [Store.OVideoDict qd']) ∧
    entries_ok h qd' ∧
    sim_unit r (video_step (qd_abs h qd) (deref h f)) (qd_abs h qd').
Proof.
  intros Hf Hqd. unfold Store.video_step, video_step.
  rewrite run_load_format by by apply is_format_app.
  rewrite deref_app by done. set (d := deref h f).
  rewrite run_lift. destruct (fmt_vcodec d) as [vcodec|e]; simpl;
    [|by exists (Raise e), qd].
  destruct (truthy (dict_get d "height")); [|by exists (Ok tt), qd].
  rewrite run_lift. destruct (fmt_quality d) as [quality|e]; simpl;
    [|by exists (Raise e), qd].
  rewrite run_load_video_dict.
  unfold qd_abs at 1. rewrite qd_lookup_fmap.
  set (k := quality +:+ tier_suffix (is_premium vcodec)).
  set (he := {| Store.he_format := f |}).
  assert (entries_ok h (qd_set k he qd)) as Hset by by apply entries_ok_set.
  assert (∀ eh, entry_of h he = eh → qd_set k eh (qd_abs h qd) = qd_abs h (qd_set k he qd)) as Habs.
  { intros eh <-. apply qd_set_fmap. }
  destruct (qd_lookup k qd) as [cur|] eqn:Hcur; simpl.
  - pose proof (entries_ok_lookup _ _ _ _ Hqd Hcur) as Hc.
    rewrite run_load_format by by apply is_format_app.
    rewrite deref_app by done.
    rewrite run_lift.
    destruct (py_gt (fmt_tbr d) (fmt_tbr (deref h (Store.he_format cur))))
      as [[|]|e]; simpl.
    + rewrite store_at_new. exists (Ok tt), (qd_set k he qd).
      split; [done|]. split; [done|]. simpl. f_equal. by apply Habs.
    + by exists (Ok tt), qd.
    + by exists (Raise e), qd.
  - rewrite store_at_new. exists (Ok tt), (qd_set k he qd).
    split; [done|]. split; [done|]. simpl. f_equal. by apply Habs.
Qed.

Lemma run_seq {A B : Type} (m : Store.M A) (k : Store.M B) h :
  (m ;; k) h =
  match m h with
  | (Ok _, h') => k h'
  | (Raise e, h') => (Raise e, h')
  end.
Proof. reflexivity. Qed.

Lemma video_loop_sim h ls qd :
  Forall (is_format h) ls → entries_ok h qd →
  ∃ r qd',
    Store.for_each (Store.video_step (length h)) ls
      (h ++ [Store.OVideoDict qd])
    = (r, h ++ [Store.OVideoDict qd']) ∧
    entries_ok h qd' ∧
    sim_unit r (foldM video_step (qd_abs h qd) (deref h <$> ls))
             (qd_abs h qd').
Proof.
  intros Hls. revert qd. induction Hls as [|l ls Hl Hls IH]; intros qd Hqd.
  - by exists (Ok tt), qd.
  - destruct (video_step_sim h l qd Hl Hqd) as (r1 & qd1 & Hrun & Hqd1 & Hsim).
    rewrite fmap_cons. cbn [Store.for_each foldM].
    rewrite run_seq, Hrun. destruct r1 as [[]|e]; simpl in Hsim.
    + rewrite Hsim. simpl. by apply IH.
    + exists (Raise e), qd1. by rewrite Hsim.
Qed.

Lemma insert_rev_fmap {A B K : Type} (lt : K → K → result bool)
    (key : B → K) (g : A → B) x l :
  insert_rev lt key (g x) (g <$> l)
  = fmap (M:=result) (fmap g) (insert_rev lt (key ∘ g) x l).
Proof.
  induction l as [|y l IH]; [done|].
  rewrite fmap_cons. simpl.
  destruct (lt (key (g x)) (key (g y))) as [[|]|e]; simpl; try done.
  rewrite IH. by destruct (insert_rev lt (key ∘ g) x l).
Qed.

Lemma py_sorted_rev_fmap {A B K : Type} (lt : K → K → result bool)
    (key : B → K) (g : A → B) l :
  py_sorted_rev lt key (g <$> l)
  = fmap (M:=result) (fmap g) (py_sorted_rev lt (key ∘ g) l).
Proof.
  induction l as [|x l IH]; [done|].
  rewrite fmap_cons. simpl. rewrite IH.
  destruct (py_sorted_rev lt (key ∘ g) l) as [s|e]; simpl; [|done].
  apply insert_rev_fmap.
Qed.

Lemma run_alloc {B : Type} o (k : Store.loc → Store.M B) h :
  (Store.alloc o ≫= k) h = k (length h) (h ++ [o]).
Proof. reflexivity. Qed.

Lemma video_qualities_sim h ls :
  Forall (is_format h) ls →
  ∃ r qd,
    Store.video_qualities ls h = (r, h ++ [Store.OVideoDict qd]) ∧
    result_ok h r ∧
    snapshot h r = video_qualities (deref h <$> ls).
Proof.
  intros Hls. unfold Store.video_qualities, video_qualities.
  rewrite run_bind, (comprehension_ok _ _ _ Hls).
  rewrite run_bind, (comprehension_ok _ _ _ Hls).
  rewrite run_alloc.
  set (vs := List.filter (λ l, is_video_format (deref h l)) ls).
  set (cs := List.filter (λ l, is_combined_format (deref h l)) ls).
  assert (all_formats (deref h <$> ls) = deref h <$> (vs ++ cs)) as ->.
  { unfold all_formats, video_formats, combined_formats, vs, cs.
    by rewrite fmap_app, !filter_deref. }
  destruct (video_loop_sim h (vs ++ cs) []) as (r & qd & Hrun & Hqd & Hsim).
  { apply Forall_app. split; by apply Forall_List_filter. }
  { constructor. }
  rewrite run_seq, Hrun. change (qd_abs h []) with (@nil (string * entry)) in Hsim.
  destruct r as [[]|e]; simpl in Hsim; rewrite Hsim; simpl;
    [|by exists (Raise e), qd].
  rewrite run_load_video_dict, run_lift.
  assert ((qd_abs h qd).*2 = entry_of h <$> qd.*2) as ->.
  { unfold qd_abs. rewrite <- !list_fmap_compose. done. }
  rewrite (py_sorted_rev_fmap tuple_lt entry_key (entry_of h)).
  change (entry_key ∘ entry_of h) with Store.hentry_key.
  destruct (py_sorted_rev tuple_lt Store.hentry_key qd.*2) as [sorted|e]
    eqn:Hsort; simpl; [|by exists (Raise e), qd].
  eexists (Ok _), qd. split; [done|]. split.
  - simpl. apply Forall_fmap. apply Forall_forall. intros e He. simpl.
    apply py_sorted_rev_perm in Hsort. rewrite <- Hsort in He.
    apply list_elem_of_fmap in He as ([k e'] & -> & Hin).
    unfold entries_ok in Hqd. rewrite Forall_forall in Hqd.
    by apply (Hqd (k, e')).
  - unfold snapshot. simpl. f_equal.
    rewrite <- !list_fmap_compose. done.
Qed.

Lemma locs_ok_lookup h qd k l :
  locs_ok h qd → qd_lookup k qd = Some l → is_format h l.
Proof.
  intros Hok Hl%qd_lookup_elem. unfold locs_ok in Hok.
  rewrite Forall_forall in Hok. by apply (Hok (k, l)).
Qed.

Lemma locs_ok_set h qd k l :
  locs_ok h qd → is_format h l → locs_ok h (qd_set k l qd).
Proof.
  unfold locs_ok. intros Hok Hl.
  induction qd as [|[k0 v0] qd IH]; simpl.
  - by constructor.
  - apply Forall_cons in Hok as [? ?].
    destruct (String.eqb k k0); constructor; auto.
Qed.

Lemma run_load_audio_dict {B : Type} (k : _ → Store.M B) h qd :
  (Store.load_audio_dict (length h) ≫= k) (h ++ [Store.OAudioDict qd])
  = k qd (h ++ [Store.OAudioDict qd]).
Proof.
  rewrite run_bind. unfold Store.load_audio_dict. by rewrite load_dict_new.
Qed.

Lemma audio_step_sim h f qd :
  is_format h f → locs_ok h qd →
  ∃ r qd',
    Store.audio_step (length h) f (h ++ [Store.OAudioDict qd])
    = (r, h ++ [Store.OAudioDict qd']) ∧
    locs_ok h qd' ∧
    sim_unit r (audio_step (aqd_abs h qd) (deref h f)) (aqd_abs h qd').
Proof.
  intros Hf Hqd. unfold Store.audio_step, audio_step.
  rewrite run_load_format by by apply is_format_app.
  rewrite deref_app by done. set (d := deref h f).
  rewrite run_lift. destruct (audio_quality d) as [quality|e]; simpl;
    [|by exists (Raise e), qd].
  rewrite run_load_audio_dict.
  unfold aqd_abs at 1. rewrite qd_lookup_fmap.
  assert (locs_ok h (qd_set quality f qd)) as Hset by by apply locs_ok_set.
  assert (qd_set quality d (aqd_abs h qd) = aqd_abs h (qd_set quality f qd))
    as Habs by apply qd_set_fmap.
  destruct (qd_lookup quality qd) as [cur|] eqn:Hcur; simpl.
  - pose proof (locs_ok_lookup _ _ _ _ Hqd Hcur) as Hc.
    rewrite run_load_format by by apply is_format_app.
    rewrite deref_app by done.
    destruct (safe_gt (fmt_safe_abr d) (fmt_safe_abr (deref h cur))).
    + rewrite store_at_new. exists (Ok tt), (qd_set quality f qd).
      split; [done|]. split; [done|]. simpl. by f_equal.
    + by exists (Ok tt), qd.
  - rewrite store_at_new. exists (Ok tt), (qd_set quality f qd).
    split; [done|]. split; [done|]. simpl. by f_equal.
Qed.

Lemma audio_loop_sim h ls qd :
  Forall (is_format h) ls → locs_ok h qd →
  ∃ r qd',
    Store.for_each (Store.audio_step (length h)) ls
      (h ++ [Store.OAudioDict qd])
    = (r, h ++ [Store.OAudioDict qd']) ∧
    locs_ok h qd' ∧
    sim_unit r (foldM audio_step (aqd_abs h qd) (deref h <$> ls))
             (aqd_abs h qd').
Proof.
  intros Hls. revert qd. induction Hls as [|l ls Hl Hls IH]; intros qd Hqd.
  - by exists (Ok tt), qd.
  - destruct (audio_step_sim h l qd Hl Hqd) as (r1 & qd1 & Hrun & Hqd1 & Hsim).
    rewrite fmap_cons. cbn [Store.for_each foldM].
    rewrite run_seq, Hrun. destruct r1 as [[]|e]; simpl in Hsim.
    + rewrite Hsim. simpl. by apply IH.
    + exists (Raise e), qd1. by rewrite Hsim.
Qed.

Lemma load_items_ok h k qd :
  locs_ok h qd →
  Store.load_items qd (h ++ k)
  = (Ok ((λ kl, (audio_key (prod_map id (deref h) kl), kl)) <$> qd), h ++ k).
Proof.
  induction 1 as [|[key l] qd Hl Hqd IH]; [done|].
  cbn [Store.load_items]. rewrite run_load_format by by apply is_format_app.
  rewrite run_bind, IH. simpl in Hl. by rewrite (deref_app _ _ _ Hl).
Qed.

Lemma audio_formats_deref h ls :
  audio_formats (deref h <$> ls) = deref h <$> audio_cands h ls.
Proof.
  unfold audio_formats, audio_cands. rewrite <- !filter_deref.
  by destruct (List.filter (λ l, is_audio_only (deref h l)) ls).
Qed.

Lemma audio_cands_ok h ls :
  Forall (is_format h) ls → Forall (is_format h) (audio_cands h ls).
Proof.
  intros Hls. unfold audio_cands.
  destruct (List.filter _ ls) eqn:E; [by apply Forall_List_filter|].
  rewrite <- E. by apply Forall_List_filter.
Qed.

Lemma audio_qualities_sim h ls :
  Forall (is_format h) ls →
  ∃ r qd,
    Store.audio_qualities ls h = (r, h ++ [Store.OAudioDict qd]) ∧
    result_ok h r ∧
    snapshot h r = audio_qualities (deref h <$> ls).
Proof.
  intros Hls. unfold Store.audio_qualities, audio_qualities.
  rewrite run_bind, (comprehension_ok _ _ _ Hls).
  rewrite audio_formats_deref.
  pose proof (audio_cands_ok _ _ Hls) as Hcands.
  set (cands := audio_cands h ls) in *.
  rewrite run_bind.
  assert ((match List.filter (λ l, is_audio_only (deref h l)) ls with
           | [] => Store.comprehension has_audio ls
           | _ => Store.ret (List.filter (λ l, is_audio_only (deref h l)) ls)
           end) h = (Ok cands, h)) as ->.
  { unfold cands, audio_cands.
    destruct (List.filter (λ l, is_audio_only (deref h l)) ls);
      [by rewrite comprehension_ok|done]. }
  rewrite run_alloc.
  destruct (audio_loop_sim h cands []) as (r & qd & Hrun & Hqd & Hsim);
    [done|constructor|].
  rewrite run_seq, Hrun.
  change (aqd_abs h []) with (@nil (string * fmt)) in Hsim.
  destruct r as [[]|e]; simpl in Hsim; rewrite Hsim; simpl;
    [|by exists (Raise e), qd].
  rewrite run_load_audio_dict.
  rewrite run_bind, load_items_ok by done.
  rewrite run_lift.
  rewrite (py_sorted_rev_fmap py_lt fst).
  unfold aqd_abs at 1.
  rewrite (py_sorted_rev_fmap py_lt audio_key (prod_map id (deref h))).
  change (fst ∘ (λ kl, (audio_key (prod_map id (deref h) kl), kl)))
    with (audio_key ∘ prod_map id (deref h)).
  destruct (py_sorted_rev py_lt (audio_key ∘ prod_map id (deref h)) qd)
    as [sorted|e] eqn:Hsort; simpl; [|by exists (Raise e), qd].
  eexists (Ok _), qd. split; [done|]. split.
  - simpl. rewrite <- list_fmap_compose. apply Forall_fmap.
    apply Forall_forall. intros kl Hkl. simpl.
    apply py_sorted_rev_perm in Hsort. rewrite <- Hsort in Hkl.
    unfold locs_ok in Hqd. rewrite Forall_forall in Hqd. by apply Hqd.
  - unfold snapshot. simpl. f_equal.
    by rewrite <- !list_fmap_compose.
Qed.

Lemma is_format_prefix h h' l : h `prefix_of` h' → is_format h l → is_format h' l.
Proof. intros [k ->]. apply is_format_app. Qed.

Lemma deref_prefix h h' l : h `prefix_of` h' → is_format h l → deref h' l = deref h l.
Proof. intros [k ->]. apply deref_app. Qed.

Lemma snapshot_prefix h h' r :
  h `prefix_of` h' → result_ok h r → snapshot h' r = snapshot h r.
Proof.
  intros Hp. destruct r as [qs|e]; [|done]. simpl. intros Hok.
  unfold snapshot. simpl. f_equal. apply Forall_fmap_ext_1.
  eapply Forall_impl; [exact Hok|]. intros [k l] Hl. simpl in *.
  unfold prod_map. simpl. f_equal. by apply deref_prefix.
Qed.

Lemma catalog_prefix h h' i :
  h `prefix_of` h' → catalog_ok h i →
  catalog_ok h' i ∧ info_of h' i = info_of h i.
Proof.
  intros Hp. unfold catalog_ok, info_of. destruct i as [li|]; [|done].
  destruct (h !! li) as [[| |[lf|]| |]|] eqn:Hli; try done.
  - rewrite (prefix_lookup_Some _ _ _ _ Hli Hp).
    destruct (h !! lf) as [[|ls| | |]|] eqn:Hlf; try done.
    rewrite (prefix_lookup_Some _ _ _ _ Hlf Hp). intros Hls. split.
    + eapply Forall_impl; [exact Hls|]. intros l. by apply is_format_prefix.
    + do 2 f_equal. apply Forall_fmap_ext_1.
      eapply Forall_impl; [exact Hls|]. intros l. by apply deref_prefix.
  - by rewrite (prefix_lookup_Some _ _ _ _ Hli Hp).
Qed.

(** A call on a well-formed catalog only appends to the store, and its
    result, read through the references, is the result of the value
    model. *)
Lemma store_refines h i download_type :
  catalog_ok h i →
  ∃ r h',
    Store.get_available_qualities i download_type h = (r, h') ∧
    h `prefix_of` h' ∧ result_ok h r ∧
    snapshot h r = get_available_qualities (info_of h i) download_type.
Proof.
  assert (∃ r h',
            (Ok [], h) = (r, h') ∧ h `prefix_of` h' ∧ result_ok h r ∧
            snapshot h r = Ok []) as Hnil.
  { exists (Ok []), h. split; [done|]. split; [done|]. split; [constructor|done]. }
  unfold catalog_ok, info_of, Store.get_available_qualities.
  destruct i as [li|]; [|by intros _].
  destruct (h !! li) as [[| |[lf|]| |]|] eqn:Hli; try done.
  destruct (h !! lf) as [[|ls| | |]|] eqn:Hlf; try done. intros Hls.
  cbn [get_available_qualities].
  assert (∀ B (k : list Store.loc → Store.M B),
            (Store.load_formats lf ≫= k) h = k ls h) as Hload.
  { intros B k. rewrite run_bind. unfold Store.load_formats. by rewrite Hlf. }
  repeat case_bool_decide.
  - rewrite Hload.
    destruct (video_qualities_sim h ls Hls) as (r & qd & -> & Hok & Hsnap).
    exists r, (h ++ [Store.OVideoDict qd]).
    split; [done|]. split; [by apply prefix_app_r|]. done.
  - rewrite Hload.
    destruct (audio_qualities_sim h ls Hls) as (r & qd & -> & Hok & Hsnap).
    exists r, (h ++ [Store.OAudioDict qd]).
    split; [done|]. split; [by apply prefix_app_r|]. done.
  - done.
Qed.

(** ** Purity *)

(** C9.  On a store that holds a well-formed catalog, two calls in a row
    with the same argument and mode return the same result (references
    read through, as [==] compares them), which is the result of the value
    model on the catalog; every object that was in the store before the
    first call, the [info] dictionary, its list and the format
    dictionaries among them, is unchanged after both calls, and [info]
    still denotes the same catalog. *)
Theorem ranker_is_pure (h : Store.store) (i : option Store.loc)
    (download_type : Z) :
  catalog_ok h i →
  let run1 := Store.get_available_qualities i download_type h in
  let run2 := Store.get_available_qualities i download_type run1.2 in
  snapshot run1.2 run1.1 = snapshot run2.2 run2.1 ∧
  snapshot run1.2 run1.1 = get_available_qualities (info_of h i) download_type ∧
  (∀ l o, h !! l = Some o → run1.2 !! l = Some o ∧ run2.2 !! l = Some o) ∧
  info_of run1.2 i = info_of h i ∧ info_of run2.2 i = info_of h i.
Proof.
  intros Hok. simpl.
  destruct (store_refines h i download_type Hok)
    as (r1 & h1 & -> & Hp1 & Hr1 & Hs1). simpl.
  destruct (catalog_prefix h h1 i Hp1 Hok) as [Hok1 Hi1].
  destruct (store_refines h1 i download_type Hok1)
    as (r2 & h2 & -> & Hp2 & Hr2 & Hs2). simpl.
  destruct (catalog_prefix h1 h2 i Hp2 Hok1) as [Hok2 Hi2].
  rewrite (snapshot_prefix h h1 r1 Hp1 Hr1).
  rewrite (snapshot_prefix h1 h2 r2 Hp2 Hr2).
  rewrite Hs1, Hs2, Hi2, Hi1.
  repeat split; try done.
  - by eapply prefix_lookup_Some.
  - eapply prefix_lookup_Some; [|exact Hp2]. by eapply prefix_lookup_Some.
Qed.

Lemma ranker_is_pure_witness :
  catalog_ok catalog_store (Some 0%nat) ∧
  let run1 := Store.get_available_qualities (Some 0%nat) 1 catalog_store in
  let run2 := Store.get_available_qualities (Some 0%nat) 1 run1.2 in
  snapshot run1.2 run1.1 = snapshot run2.2 run2.1 ∧
  snapshot run1.2 run1.1
  = get_available_qualities (info_of catalog_store (Some 0%nat)) 1 ∧
  (∀ l o, catalog_store !! l = Some o →
          run1.2 !! l = Some o ∧ run2.2 !! l = Some o) ∧
  info_of run1.2 (Some 0%nat) = info_of catalog_store (Some 0%nat) ∧
  info_of run2.2 (Some 0%nat) = info_of catalog_store (Some 0%nat).
Proof.
  assert (catalog_ok catalog_store (Some 0%nat)) as Hok.
  { repeat constructor; eexists; reflexivity. }
  split; [exact Hok|].
  exact (ranker_is_pure catalog_store (Some 0%nat) 1 Hok).
Defined.

(** ** Totality on numeric catalogs *)

Lemma well_typed_numeric f : well_typed f = true → numeric f = true.
Proof.
  unfold well_typed, numeric. intros H.
  repeat (apply andb_true_iff in H as [H ?]).
  repeat (apply andb_true_iff; split); try done.
  - by destruct (f !! "height") as [[| | |]|].
  - by destruct (f !! "fps") as [[| | |]|].
  - by destruct (f !! "tbr") as [[| | |]|].
Qed.

Lemma numeric_vcodec f : numeric f = true → ∃ c, fmt_vcodec f = Ok c.
Proof.
  unfold numeric, fmt_vcodec, dict_get_or. intros H.
  repeat (apply andb_true_iff in H as [H ?]).
  destruct (f !! "vcodec") as [[| |s|]|]; simpl in *; try done; eauto.
Qed.

Lemma py_lt_numbers a b :
  is_Some (py_num a) → is_Some (py_num b) → ∃ r, py_lt a b = Ok r.
Proof.
  intros [x Hx] [y Hy]. rewrite (py_lt_num _ _ _ _ Hx Hy). by eexists.
Qed.

Lemma numeric_quality f : numeric f = true → ∃ q, fmt_quality f = Ok q.
Proof.
  unfold numeric, fmt_quality, fps_above_30, dict_get_or, py_gt. intros H.
  repeat (apply andb_true_iff in H as [H ?]).
  destruct (f !! "fps") as [[|n|s|x]|]; cbn [default] in *; try done.
  - simpl. eauto.
  - simpl. destruct (negb (n =? 0)); simpl; eauto.
  - destruct x as [[]|[]| |[] m e]; simpl; eauto.
  - simpl. eauto.
Qed.

Lemma numeric_tbr f : numeric f = true → is_Some (py_num (fmt_tbr f)).
Proof.
  unfold numeric, fmt_tbr, dict_get_or. intros H.
  repeat (apply andb_true_iff in H as [H ?]).
  destruct (f !! "tbr") as [[|n|s|x]|]; simpl in *; try done; eauto.
Qed.

Lemma numeric_height f :
  numeric f = true → truthy (dict_get f "height") = true →
  is_Some (py_num (dict_get f "height")).
Proof.
  unfold numeric, dict_get. intros H.
  repeat (apply andb_true_iff in H as [H ?]).
  destruct (f !! "height") as [[|n|s|x]|]; simpl in *; try done; eauto.
Qed.

Lemma numeric_fps f :
  numeric f = true →
  is_Some (py_num (py_or (dict_get_or f "fps" (PInt 30)) (PInt 30))).
Proof.
  unfold numeric, dict_get_or, py_or. intros H.
  repeat (apply andb_true_iff in H as [H ?]).
  destruct (f !! "fps") as [[|n|s|x]|]; cbn [default] in *; try done;
    try (by simpl; eauto); case_match; simpl; eauto.
Qed.

Lemma Forall_qd_set {V : Type} (P : string * V → Prop) k v qd :
  (∀ k', P (k', v)) → Forall P qd → Forall P (qd_set k v qd).
Proof.
  intros Hv. induction 1 as [|[k0 v0] qd H0 Hqd IH]; simpl.
  - by constructor.
  - destruct (String.eqb k k0); constructor; auto.
Qed.

Lemma video_step_total qd f :
  numeric f = true → Forall (λ ke, entry_wt ke.2) qd →
  ∃ qd', video_step qd f = Ok qd' ∧ Forall (λ ke, entry_wt ke.2) qd'.
Proof.
  intros Hf Hqd. unfold video_step.
  destruct (numeric_vcodec f Hf) as [c ->]. simpl.
  destruct (truthy (dict_get f "height")) eqn:Hh; [|by exists qd].
  destruct (numeric_quality f Hf) as [q ->]. simpl.
  assert (∀ k' : string, entry_wt
            {| e_format := f; e_display := q; e_height := dict_get f "height";
               e_fps := py_or (dict_get_or f "fps" (PInt 30)) (PInt 30);
               e_codec := c |}) as He.
  { intros _. split; [done|]. split; simpl.
    - by apply numeric_height.
    - by apply numeric_fps. }
  destruct (qd_lookup _ qd) as [cur|] eqn:Hcur.
  - apply qd_lookup_elem in Hcur. rewrite Forall_forall in Hqd.
    destruct (Hqd _ Hcur) as (Hcw & _). simpl in Hcw.
    unfold py_gt.
    destruct (py_lt_numbers (fmt_tbr (e_format cur)) (fmt_tbr f))
      as [r ->]; [by apply numeric_tbr..|]. simpl.
    rewrite <- Forall_forall in Hqd.
    destruct r; eexists; (split; [done|]); [|done].
    by apply (Forall_qd_set (λ ke, entry_wt ke.2)).
  - eexists. split; [done|]. by apply (Forall_qd_set (λ ke, entry_wt ke.2)).
Qed.

Lemma video_loop_total l qd :
  Forall (λ f, numeric f = true) l → Forall (λ ke, entry_wt ke.2) qd →
  ∃ qd', foldM video_step qd l = Ok qd' ∧ Forall (λ ke, entry_wt ke.2) qd'.
Proof.
  intros Hl. revert qd. induction Hl as [|f l Hf Hl IH]; intros qd Hqd; simpl.
  - by exists qd.
  - destruct (video_step_total qd f Hf Hqd) as (qd1 & -> & Hqd1). simpl.
    by apply IH.
Qed.

(** The sort returns when every two keys it may compare are comparable. *)
Lemma insert_rev_total {A K : Type} (lt : K → K → result bool) (key : A → K)
    (x : A) (l : list A) :
  Forall (λ y, ∃ b, lt (key x) (key y) = Ok b) l →
  ∃ l', insert_rev lt key x l = Ok l'.
Proof.
  induction 1 as [|y l [b Hb] Hl [l' IH]]; simpl; [by eexists|].
  rewrite Hb. simpl. destruct b; [|by eexists].
  rewrite IH. simpl. by eexists.
Qed.

Lemma py_sorted_rev_total {A K : Type} (lt : K → K → result bool)
    (key : A → K) (P : A → Prop) (l : list A) :
  (∀ x y, P x → P y → ∃ b, lt (key x) (key y) = Ok b) →
  Forall P l → ∃ l', py_sorted_rev lt key l = Ok l'.
Proof.
  intros Hlt. induction 1 as [|x l Hx Hl [s IH]]; simpl; [by eexists|].
  rewrite IH. simpl. apply insert_rev_total.
  apply py_sorted_rev_perm in IH. rewrite <- IH.
  eapply Forall_impl; [exact Hl|]. intros y Hy. by apply Hlt.
Qed.

Lemma tuple_lt_numbers (a b : pyval * pyval) :
  is_Some (py_num a.1) → is_Some (py_num a.2) →
  is_Some (py_num b.1) → is_Some (py_num b.2) →
  ∃ r, tuple_lt a b = Ok r.
Proof.
  intros Ha1 Ha2 Hb1 Hb2. unfold tuple_lt.
  destruct (py_eq a.1 b.1); [|by apply py_lt_numbers].
  destruct (py_eq a.2 b.2); [by eexists|by apply py_lt_numbers].
Qed.

Lemma video_qualities_total formats :
  Forall (λ f, numeric f = true) formats →
  ∃ qs, video_qualities formats = Ok qs.
Proof.
  intros Hwt. unfold video_qualities.
  destruct (video_loop_total (all_formats formats) []) as (qd & -> & Hqd).
  { rewrite Forall_forall in Hwt |- *.
    intros f [Hf _]%elem_of_all_formats. auto. }
  { constructor. }
  simpl.
  destruct (py_sorted_rev_total tuple_lt entry_key entry_wt qd.*2)
    as [sorted ->].
  - intros x y (_ & Hh1 & Hr1) (_ & Hh2 & Hr2). by apply tuple_lt_numbers.
  - by apply Forall_fmap.
  - simpl. by eexists.
Qed.

Lemma numeric_audio_quality f :
  numeric f = true → ∃ q, audio_quality f = Ok q.
Proof.
  unfold numeric, audio_quality, dict_get_or. intros H.
  repeat (apply andb_true_iff in H as [H ?]).
  destruct (f !! "ext") as [[| |s|]|]; simpl in *; try done; eauto.
Qed.

Lemma audio_step_total qd f :
  numeric f = true → ∃ qd', audio_step qd f = Ok qd'.
Proof.
  intros Hf. unfold audio_step.
  destruct (numeric_audio_quality f Hf) as [q ->]. simpl.
  destruct (qd_lookup q qd); by eexists.
Qed.

Lemma audio_loop_total l qd :
  Forall (λ f, numeric f = true) l → ∃ qd', foldM audio_step qd l = Ok qd'.
Proof.
  intros Hl. revert qd. induction Hl as [|f l Hf Hl IH]; intros qd.
  - by exists qd.
  - cbn [foldM]. destruct (audio_step_total qd f Hf) as [qd1 ->]. apply IH.
Qed.

Lemma audio_key_number q : is_Some (py_num (audio_key q)).
Proof.
  unfold audio_key, py_or.
  destruct (dict_get q.2 "abr") as [|n|s|x]; simpl; try done;
    case_match; simpl; eauto.
Qed.

Lemma audio_qualities_total formats :
  Forall (λ f, numeric f = true) formats →
  ∃ qs, audio_qualities formats = Ok qs.
Proof.
  intros Hwt. unfold audio_qualities.
  destruct (audio_loop_total (audio_formats formats) []) as (qd & ->).
  { unfold audio_formats.
    destruct (List.filter is_audio_only formats) eqn:E;
      [|rewrite <- E]; by apply Forall_List_filter. }
  simpl.
  apply (py_sorted_rev_total py_lt audio_key (λ _, True)).
  - intros x y _ _. apply py_lt_numbers; apply audio_key_number.
  - by apply Forall_true.
Qed.

Lemma ranker_total_numeric formats download_type :
  Forall (λ f, numeric f = true) formats →
  ∃ qs, get_available_qualities (InfoDict (Some formats)) download_type
        = Ok qs.
Proof.
  intros Hwt. simpl. repeat case_bool_decide.
  - by apply video_qualities_total.
  - by apply audio_qualities_total.
  - by eexists.
Qed.

(** X1.  On a catalog whose fields have their documented types the ranker
    returns, in every mode. *)
Theorem ranker_total (i : info) (download_type : Z) :
  match i with
  | InfoDict (Some formats) => Forall (λ f, well_typed f = true) formats
  | _ => True
  end →
  ∃ qs, get_available_qualities i download_type = Ok qs.
Proof.
  destruct i as [|[formats|]]; [by eexists| |by eexists].
  intros Hwt. apply ranker_total_numeric.
  eapply Forall_impl; [exact Hwt|]. apply well_typed_numeric.
Qed.

(** ** Ordering *)

Lemma rank_defined_key f :
  rank_defined f = true → key_defined (video_rank f).
Proof.
  unfold rank_defined, key_defined, video_rank, dict_get_or, dict_get, py_or.
  intros [[Hh Hf]%andb_true_iff _]%andb_true_iff.
  apply negb_true_iff in Hh, Hf. simpl. split; [done|].
  destruct (f !! "fps") as [v|]; simpl in *; [|done].
  by destruct (truthy v).
Qed.

Lemma rank_defined_bitrate f :
  rank_defined f = true → is_nan (bitrate_or_zero f) = false.
Proof.
  unfold rank_defined, bitrate_or_zero, dict_get.
  intros [_ Ha%negb_true_iff]%andb_true_iff.
  by destruct (f !! "abr") as [[| | |]|].
Qed.

Lemma elem_of_audio_formats_catalog f formats :
  f ∈ audio_formats formats → f ∈ formats.
Proof.
  unfold audio_formats.
  destruct (List.filter is_audio_only formats) eqn:E; [|rewrite <- E];
    by intros [? _]%elem_of_List_filter.
Qed.

(** C5, as the code has it.  On a catalog in which no height, frame rate
    or bitrate is NaN, whenever the ranker returns, in a video mode its
    result is in descending order of the pair (resolution, frame rate),
    the resolution deciding first, and in an audio mode it is in
    descending order of the bitrate, an absent or non-numeric bitrate
    counting as 0; and the ranker does return when, besides, the fields
    of the catalog are numbers and strings as yt-dlp reports them. *)
Theorem ranker_output_sorted (formats : list fmt) (download_type : Z) :
  Forall (λ f, rank_defined f = true) formats →
  (∀ qs,
     get_available_qualities (InfoDict (Some formats)) download_type = Ok qs →
     (video_mode download_type → StronglySorted video_ge qs) ∧
     (audio_mode download_type → StronglySorted audio_ge qs)) ∧
  (Forall (λ f, numeric f = true) formats →
   ∃ qs, get_available_qualities (InfoDict (Some formats)) download_type
         = Ok qs).
Proof.
  intros Hdef. split; [|apply ranker_total_numeric].
  rewrite Forall_forall in Hdef.
  unfold video_mode, audio_mode.
  intros qs
    [(fs & [= <-] & Hv & H)|[(fs & [= <-] & Ha & H)|[[Hn ->]|[_ ->]]]]
    %get_available_qualities_cases.
  - apply video_qualities_inv in H as (_ & Hall & Hs & _).
    split; [|unfold video_mode in Hv; lia].
    intros _. apply Hs. eapply Forall_impl; [exact Hall|].
    intros q (_ & _ & [Hq _]%elem_of_all_formats).
    by apply rank_defined_key, Hdef.
  - apply audio_qualities_inv in H as (_ & Hall & Hs).
    split; [unfold audio_mode in Ha; lia|].
    intros _. apply Hs. eapply Forall_impl; [exact Hall|].
    intros q (_ & Hq%elem_of_audio_formats_catalog).
    by apply rank_defined_bitrate, Hdef.
  - split; intros _; constructor.
  - split; intros _; constructor.
Qed.

Lemma ranker_output_sorted_witness :
  (Forall (λ f, rank_defined f = true) catalog_menu ∧
   Forall (λ f, numeric f = true) catalog_menu ∧
   get_available_qualities (InfoDict (Some catalog_menu)) 1 = Ok ranked_menu ∧
   StronglySorted video_ge ranked_menu) ∧
  (Forall (λ f, rank_defined f = true) catalog_audio ∧
   Forall (λ f, numeric f = true) catalog_audio ∧
   get_available_qualities (InfoDict (Some catalog_audio)) 2 = Ok ranked_audio ∧
   StronglySorted audio_ge ranked_audio).
Proof.
  assert (Forall (λ f, rank_defined f = true) catalog_menu) as Hdv
    by (repeat constructor).
  assert (Forall (λ f, numeric f = true) catalog_menu) as Hnv
    by (repeat constructor).
  assert (Forall (λ f, rank_defined f = true) catalog_audio) as Hda
    by (repeat constructor).
  assert (Forall (λ f, numeric f = true) catalog_audio) as Hna
    by (repeat constructor).
  assert (get_available_qualities (InfoDict (Some catalog_menu)) 1
          = Ok ranked_menu) as Hrv by (vm_compute; reflexivity).
  assert (get_available_qualities (InfoDict (Some catalog_audio)) 2
          = Ok ranked_audio) as Hra by (vm_compute; reflexivity).
  split.
  - split; [exact Hdv|]. split; [exact Hnv|]. split; [exact Hrv|].
    exact (proj1 (proj1 (ranker_output_sorted catalog_menu 1 Hdv)
                    ranked_menu Hrv) (or_introl eq_refl)).
  - split; [exact Hda|]. split; [exact Hna|]. split; [exact Hra|].
    exact (proj2 (proj1 (ranker_output_sorted catalog_audio 2 Hda)
                    ranked_audio Hra) (or_introl eq_refl)).
Defined.

(** The catalogs of the witness are listed out of order: at 480, 1080 and
    720 lines, and at 48.5, 128, 160.5 and 128 kbit/s after the combined
    stream is set aside. *)
Lemma ranker_sorts_unsorted_catalogs :
  (λ f, py_str (dict_get f "height")) <$> catalog_menu
  = ["480"; "1080"; "720"] ∧
  (λ q, py_str (dict_get q.2 "height")) <$> ranked_menu
  = ["1080"; "720"; "480"] ∧
  (λ f, py_str (bitrate_or_zero f)) <$> audio_formats catalog_audio
  = ["48.5"; "128"; "160.5"; "128"] ∧
  (λ q, py_str (bitrate_or_zero q.2)) <$> ranked_audio
  = ["160.5"; "128"; "48.5"].
Proof. repeat split; vm_compute; reflexivity. Qed.

(** With a bitrate of NaN between them, a stream of 48.5 kbit/s stays
    before a stream of 128 kbit/s: [<] is false between NaN and any
    number, and the sort leaves the three where they were. *)
Lemma nan_bitrate_not_sorted :
  get_available_qualities (InfoDict (Some catalog_audio_nan)) 2
  = Ok ranked_audio_nan ∧
  (λ q, py_str (bitrate_or_zero q.2)) <$> ranked_audio_nan
  = ["48.5"; "nan"; "128"] ∧
  py_lt (bitrate_or_zero audio_m4a_48) (bitrate_or_zero audio_m4a_128)
  = Ok true ∧
  ¬ StronglySorted audio_ge ranked_audio_nan.
Proof.
  split; [vm_compute; reflexivity|]. split; [vm_compute; reflexivity|].
  split; [vm_compute; reflexivity|].
  intros [_ Hall]%StronglySorted_inv.
  apply Forall_cons in Hall as [_ Hall].
  apply Forall_cons in Hall as [Hle _].
  assert (py_lt (bitrate_or_zero audio_m4a_48) (bitrate_or_zero audio_m4a_128)
          = Ok true) as [_ Hlt]%py_lt_true by (vm_compute; reflexivity).
  by apply Hlt.
Qed.

(** On integer keys [rank_ge] is the usual descending lexicographic
    order. *)
Lemma rank_ge_int (h1 r1 h2 r2 : Z) :
  rank_ge (PInt h1, PInt r1) (PInt h2, PInt r2) ↔
  h2 < h1 ∨ (h1 = h2 ∧ r2 ≤ r1).
Proof. unfold rank_ge, pyval_lt, pyval_eqv, pyval_le. simpl. lia. Qed.

(** * Further properties *)

(** ** Evaluation of examples *)

(** Closes an equation between closed terms by evaluation. *)
Ltac by_evaluation :=
  match goal with
  | |- _ = ?b => vm_cast_no_check (eq_refl b)
  end.

Lemma ranked_1080_run :
  get_available_qualities (InfoDict (Some catalog_1080)) 1 = Ok ranked_1080.
Proof. by_evaluation. Defined.

Lemma ranked_mixed_audio_run :
  get_available_qualities (InfoDict (Some catalog_mixed)) 2
  = Ok ranked_mixed_audio.
Proof. by_evaluation. Defined.

Lemma scenario_A_run :
  get_available_qualities scenario_A 1 = Ok scenario_A_ranked.
Proof. by_evaluation. Defined.

Lemma ranker_total_witness :
  Forall (λ f, well_typed f = true)
         [stream_1080_avc1; stream_1080_vp9; stream_720_avc1] ∧
  ∃ qs, get_available_qualities scenario_A 2 = Ok qs.
Proof.
  assert (Forall (λ f, well_typed f = true)
            [stream_1080_avc1; stream_1080_vp9; stream_720_avc1]) as Hwt.
  { repeat constructor; by_evaluation. }
  split; [exact Hwt|]. exact (ranker_total scenario_A 2 Hwt).
Defined.

(** ** Loops that raise *)

Lemma foldM_app {A S : Type} (step : S → A → result S) s l1 l2 :
  foldM step s (l1 ++ l2) = foldM step s l1 ≫= λ s', foldM step s' l2.
Proof.
  revert s. induction l1 as [|x l1 IH]; intros s; simpl; [done|].
  destruct (step s x) as [s1|e]; simpl; [apply IH|done].
Qed.

(** A loop raises when it reaches an element on which the body raises in
    every state that satisfies an invariant of the loop. *)
Lemma foldM_raises {A S : Type} (step : S → A → result S) (I : S → Prop)
    (x : A) l s :
  (∀ s y s', I s → step s y = Ok s' → I s') →
  (∀ s, I s → ∃ e, step s x = Raise e) →
  x ∈ l → I s → ∃ e, foldM step s l = Raise e.
Proof.
  intros Hpres Hx Hin. revert s.
  induction l as [|y l IH]; intros s Hs; [by apply elem_of_nil in Hin|].
  simpl. destruct (step s y) as [s'|e] eqn:Hstep; simpl; [|by exists e].
  apply elem_of_cons in Hin as [<-|Hin].
  - destruct (Hx s Hs) as [e He]. congruence.
  - apply IH; [done|]. by eapply Hpres.
Qed.

(** ** Where the options come from *)

Lemma elem_of_audio_formats f formats :
  f ∈ audio_formats formats → f ∈ formats ∧ has_audio f = true.
Proof.
  unfold audio_formats.
  destruct (List.filter is_audio_only formats) as [|g gs] eqn:E.
  - by intros ?%elem_of_List_filter.
  - rewrite <- E. intros [Hin Ha]%elem_of_List_filter. split; [done|].
    unfold is_audio_only in Ha. by apply andb_true_iff in Ha as [? _].
Qed.

Lemma audio_formats_nil formats :
  audio_formats formats = [] ↔ ∀ f, f ∈ formats → has_audio f = false.
Proof.
  unfold audio_formats.
  destruct (List.filter is_audio_only formats) as [|g gs] eqn:E.
  - split.
    + intros Hnil f Hf. destruct (has_audio f) eqn:Ha; [|done].
      assert (f ∈ List.filter has_audio formats) as Hin
        by by apply elem_of_List_filter.
      rewrite Hnil in Hin. by apply elem_of_nil in Hin.
    + intros Hall. destruct (List.filter has_audio formats) as [|f fs] eqn:E';
        [done|].
      assert (f ∈ List.filter has_audio formats) as Hin
        by (rewrite E'; apply list_elem_of_here).
      apply elem_of_List_filter in Hin as [Hin Ha].
      rewrite (Hall f Hin) in Ha. done.
  - split; [done|]. intros Hall.
    assert (g ∈ List.filter is_audio_only formats) as Hin
      by (rewrite E; apply list_elem_of_here).
    apply elem_of_List_filter in Hin as [Hin Ha].
    unfold is_audio_only in Ha. apply andb_true_iff in Ha as [Ha _].
    unfold has_audio in Hall. rewrite (Hall g Hin) in Ha. done.
Qed.

(** X2.  Every option is backed by a stream of the catalog that passes the
    filter of the mode, and carries the label computed from that stream. *)
Theorem options_from_catalog (formats : list fmt) (download_type : Z)
    (qs : list (string * fmt)) (q : string * fmt) :
  get_available_qualities (InfoDict (Some formats)) download_type = Ok qs →
  q ∈ qs →
  q.2 ∈ formats ∧
  (video_mode download_type →
     is_video_format q.2 = true ∧ fmt_quality q.2 = Ok q.1) ∧
  (audio_mode download_type →
     has_audio q.2 = true ∧ audio_quality q.2 = Ok q.1).
Proof.
  intros [(fs & [= <-] & Hv & H)|[(fs & [= <-] & Ha & H)|[[_ ->]|[_ ->]]]]
    %get_available_qualities_cases Hq.
  - apply video_qualities_inv in H as (_ & Hall & _).
    rewrite Forall_forall in Hall.
    destruct (Hall q Hq) as (Hl & _ & [Hin Hc]%elem_of_all_formats).
    split; [done|]. split; [done|].
    unfold video_mode in Hv. unfold audio_mode. lia.
  - apply audio_qualities_inv in H as (_ & Hall & _).
    rewrite Forall_forall in Hall.
    destruct (Hall q Hq) as (Hl & [Hin Hc]%elem_of_audio_formats).
    split; [done|]. split; [|done].
    unfold audio_mode in Ha. unfold video_mode. lia.
  - by apply elem_of_nil in Hq.
  - by apply elem_of_nil in Hq.
Qed.

Lemma options_from_catalog_witness :
  get_available_qualities (InfoDict (Some catalog_1080)) 1 = Ok ranked_1080 ∧
  ("1080p60", video_1080_60) ∈ ranked_1080 ∧
  video_1080_60 ∈ catalog_1080 ∧
  (video_mode 1 →
     is_video_format video_1080_60 = true ∧
     fmt_quality video_1080_60 = Ok "1080p60") ∧
  (audio_mode 1 →
     has_audio video_1080_60 = true ∧
     audio_quality video_1080_60 = Ok "1080p60").
Proof.
  split; [exact ranked_1080_run|]. split; [apply list_elem_of_here|].
  apply (options_from_catalog catalog_1080 1 ranked_1080
           ("1080p60", video_1080_60) ranked_1080_run).
  apply list_elem_of_here.
Defined.

(** ** The audio loop keeps the best of each label *)

Lemma audio_rep_nil : audio_rep [] [].
Proof. intros f Hf. by apply elem_of_nil in Hf. Qed.

(** Safe bitrates are numbers, never NaN. *)
Lemma safe_number_num v :
  ∃ n, py_num (safe_number v) = Some n ∧ n ≠ NNan.
Proof.
  unfold safe_number, is_positive.
  destruct (py_num v) as [n|] eqn:E; [|by exists (NFin (inject_Z 0))].
  destruct (num_ltb (NFin 0) n) eqn:Hn; [|by exists (NFin (inject_Z 0))].
  exists n. split; [done|]. by destruct n.
Qed.

Lemma pyval_le_num a b x y :
  py_num a = Some x → py_num b = Some y → pyval_le a b ↔ num_le x y.
Proof.
  destruct a as [|m|s|u], b as [|n|t|v]; unfold py_num, pyval_le; try done;
    intros [= <-] [= <-]; try done.
  by rewrite Zle_num_le.
Qed.

Lemma safe_gt_false f g :
  safe_gt (fmt_safe_abr f) (fmt_safe_abr g) = false →
  pyval_le (fmt_safe_abr f) (fmt_safe_abr g).
Proof.
  unfold fmt_safe_abr, safe_gt.
  destruct (safe_number_num (py_or (dict_get f "abr") (PInt 0)))
    as (x & Hx & Hxn).
  destruct (safe_number_num (py_or (dict_get g "abr") (PInt 0)))
    as (y & Hy & Hyn).
  rewrite Hx, Hy. intros H.
  apply (pyval_le_num _ _ _ _ Hx Hy). by apply num_ltb_false.
Qed.

Lemma safe_gt_true f g :
  safe_gt (fmt_safe_abr f) (fmt_safe_abr g) = true →
  pyval_le (fmt_safe_abr g) (fmt_safe_abr f).
Proof.
  unfold fmt_safe_abr, safe_gt.
  destruct (safe_number_num (py_or (dict_get f "abr") (PInt 0)))
    as (x & Hx & Hxn).
  destruct (safe_number_num (py_or (dict_get g "abr") (PInt 0)))
    as (y & Hy & Hyn).
  rewrite Hx, Hy. intros [H _]%num_ltb_true.
  by apply (pyval_le_num _ _ _ _ Hy Hx).
Qed.

Lemma safe_abr_le_refl f : pyval_le (fmt_safe_abr f) (fmt_safe_abr f).
Proof.
  unfold fmt_safe_abr.
  destruct (safe_number_num (py_or (dict_get f "abr") (PInt 0)))
    as (x & Hx & Hxn).
  apply (pyval_le_num _ _ _ _ Hx Hx). by apply num_le_refl.
Qed.

Lemma audio_step_rep seen qd f qd' :
  audio_step qd f = Ok qd' → audio_rep seen qd → audio_rep (seen ++ [f]) qd'.
Proof.
  unfold audio_step. intros (k & Hk & H)%bind_Ok Hrep.
  destruct (qd_lookup k qd) as [cur|] eqn:Hcur.
  - injection H as <-.
    destruct (safe_gt (fmt_safe_abr f) (fmt_safe_abr cur)) eqn:Hgt.
    + apply safe_gt_true in Hgt.
      intros f' [Hf'| ->]%elem_of_snoc.
      * destruct (Hrep f' Hf') as (k' & g & Hk' & Hl & Hle).
        exists k'. rewrite qd_lookup_set. case_decide as Hkk.
        -- subst k'. exists f. split; [done|]. split; [done|].
           rewrite Hcur in Hl. injection Hl as <-. by etrans.
        -- by exists g.
      * exists k, f. rewrite qd_lookup_set.
        case_decide; [|done]. repeat split; [done|apply safe_abr_le_refl].
    + apply safe_gt_false in Hgt.
      intros f' [Hf'| ->]%elem_of_snoc; [auto|]. by exists k, cur.
  - injection H as <-. intros f' [Hf'| ->]%elem_of_snoc.
    + destruct (Hrep f' Hf') as (k' & g & Hk' & Hl & Hle).
      exists k', g. rewrite qd_lookup_set. case_decide; [congruence|done].
    + exists k, f. rewrite qd_lookup_set.
      case_decide; [|done]. repeat split; [done|apply safe_abr_le_refl].
Qed.

Lemma audio_loop_rep l seen qd qd' :
  foldM audio_step qd l = Ok qd' → audio_rep seen qd →
  audio_rep (seen ++ l) qd'.
Proof.
  revert seen qd. induction l as [|f l IH]; intros seen qd; simpl.
  - intros [= <-]. by rewrite app_nil_r.
  - intros (qd1 & Hstep & Hrest)%bind_Ok Hinv.
    rewrite (assoc_L (++) seen [f] l : seen ++ f :: l = (seen ++ [f]) ++ l).
    eapply IH; [done|]. by eapply audio_step_rep.
Qed.

Lemma audio_qualities_rep formats qs f :
  audio_qualities formats = Ok qs → f ∈ audio_formats formats →
  ∃ q, q ∈ qs ∧ audio_quality f = Ok q.1 ∧
       pyval_le (fmt_safe_abr f) (fmt_safe_abr q.2).
Proof.
  unfold audio_qualities. intros (qd & Hloop & Hsort)%bind_Ok Hf.
  apply (audio_loop_rep _ []) in Hloop; [|apply audio_rep_nil].
  destruct (Hloop f Hf) as (k & g & Hk & Hl & Hle).
  exists (k, g). split; [|done].
  rewrite <- (py_sorted_rev_perm _ _ _ _ Hsort). by apply qd_lookup_elem.
Qed.

(** X3.  In an audio mode, on a catalog whose extensions are ASCII text,
    every candidate is represented by exactly one option: the option
    carries the candidate's label, its backing stream is a candidate whose
    safe bitrate is at least the candidate's, and no other position of the
    result has that label. *)
Theorem audio_group_representative (formats : list fmt) (download_type : Z)
    (qs : list (string * fmt)) (f : fmt) :
  audio_mode download_type →
  Forall (λ f, ascii_text (dict_get f "ext") = true) formats →
  get_available_qualities (InfoDict (Some formats)) download_type = Ok qs →
  f ∈ audio_formats formats →
  ∃ (label : string) (n : nat) (g : fmt),
    audio_quality f = Ok label ∧
    qs !! n = Some (label, g) ∧
    g ∈ audio_formats formats ∧
    audio_quality g = Ok label ∧
    pyval_le (fmt_safe_abr f) (fmt_safe_abr g) ∧
    ∀ (m : nat) (q : string * fmt), qs !! m = Some q → q.1 = label → m = n.
Proof.
  intros Ha _ Hrun Hf.
  rewrite get_available_qualities_audio in Hrun by done.
  destruct (audio_qualities_rep _ _ _ Hrun Hf) as ([label g] & Hin & Hl & Hle).
  apply audio_qualities_inv in Hrun as (Hnd & Hall & _).
  rewrite Forall_forall in Hall. destruct (Hall _ Hin) as [Hg Hgc].
  apply list_elem_of_lookup in Hin as [n Hn]. simpl in *.
  exists label, n, g. repeat (split; [done|]).
  intros m q Hm Hq. apply (NoDup_lookup qs.*1 m n label); [exact Hnd| |].
  - rewrite list_lookup_fmap, Hm. simpl. by rewrite Hq.
  - by rewrite list_lookup_fmap, Hn.
Qed.

Lemma audio_group_representative_witness :
  audio_mode 2 ∧
  Forall (λ f, ascii_text (dict_get f "ext") = true) catalog_audio ∧
  get_available_qualities (InfoDict (Some catalog_audio)) 2
  = Ok ranked_audio ∧
  audio_m4a_128_drc ∈ audio_formats catalog_audio ∧
  ∃ (label : string) (n : nat) (g : fmt),
    audio_quality audio_m4a_128_drc = Ok label ∧
    ranked_audio !! n = Some (label, g) ∧
    g ∈ audio_formats catalog_audio ∧
    audio_quality g = Ok label ∧
    pyval_le (fmt_safe_abr audio_m4a_128_drc) (fmt_safe_abr g) ∧
    ∀ (m : nat) (q : string * fmt),
      ranked_audio !! m = Some q → q.1 = label → m = n.
Proof.
  assert (Forall (λ f, ascii_text (dict_get f "ext") = true) catalog_audio)
    as Hascii by (repeat constructor).
  assert (get_available_qualities (InfoDict (Some catalog_audio)) 2
          = Ok ranked_audio) as Hrun by by_evaluation.
  assert (audio_m4a_128_drc ∈ audio_formats catalog_audio) as Hin.
  { assert (audio_formats catalog_audio
            = [audio_m4a_48; audio_m4a_128; audio_opus_160;
               audio_m4a_128_drc]) as -> by by_evaluation.
    do 3 apply list_elem_of_further. apply list_elem_of_here. }
  split; [by left|]. split; [exact Hascii|]. split; [exact Hrun|].
  split; [exact Hin|].
  apply (audio_group_representative catalog_audio 2 ranked_audio
           audio_m4a_128_drc (or_introl eq_refl) Hascii Hrun Hin).
Defined.

(** In the catalog of the witness two streams carry the label of 128
    kbit/s; the first of them backs the option. *)
Lemma catalog_audio_group :
  audio_quality audio_m4a_128 = Ok "M4A - 128kbps (mp4a.40.2)" ∧
  audio_quality audio_m4a_128_drc = Ok "M4A - 128kbps (mp4a.40.2)" ∧
  audio_m4a_128 ≠ audio_m4a_128_drc ∧
  ranked_audio
  = [("WEBM - 160.5kbps (opus)", audio_opus_160);
     ("M4A - 128kbps (mp4a.40.2)", audio_m4a_128);
     ("M4A - 48.5kbps (mp4a.40.5)", audio_m4a_48)].
Proof.
  repeat split; try by_evaluation.
  intros H. apply (f_equal (λ f, f !! "format_id")) in H.
  vm_compute in H. discriminate.
Qed.

(** ** An empty menu *)

(** X4.  The ranking is empty exactly when the catalog has no candidate for
    the mode: no stream with a video codec and a height in a video mode, no
    stream with an audio codec in an audio mode. *)
Theorem empty_iff_no_candidate (formats : list fmt) (download_type : Z)
    (qs : list (string * fmt)) :
  get_available_qualities (InfoDict (Some formats)) download_type = Ok qs →
  (video_mode download_type →
     (qs = [] ↔ ∀ f, f ∈ formats → is_video_format f = false)) ∧
  (audio_mode download_type →
     (qs = [] ↔ ∀ f, f ∈ formats → has_audio f = false)).
Proof.
  intros Hrun. split.
  - intros Hv. rewrite get_available_qualities_video in Hrun by done.
    apply video_qualities_inv in Hrun as (_ & Hall & _ & Hrep). split.
    + intros -> f Hf. destruct (is_video_format f) eqn:Hc; [|done].
      destruct (Hrep f) as (_ & q & _ & Hq & _);
        [by apply elem_of_all_formats|].
      by apply elem_of_nil in Hq.
    + intros Hnone. destruct qs as [|q qs]; [done|].
      apply Forall_cons in Hall as [(_ & _ & [Hin Hc]%elem_of_all_formats) _].
      rewrite (Hnone _ Hin) in Hc. done.
  - intros Ha. rewrite get_available_qualities_audio in Hrun by done.
    rewrite <- audio_formats_nil. split.
    + intros ->. destruct (audio_formats formats) as [|f fs] eqn:E; [done|].
      destruct (audio_qualities_rep _ _ f Hrun) as (q & Hq & _).
      { rewrite E. apply list_elem_of_here. }
      by apply elem_of_nil in Hq.
    + intros Hnil. apply audio_qualities_inv in Hrun as (_ & Hall & _).
      destruct qs as [|q qs]; [done|].
      apply Forall_cons in Hall as [[_ Hin] _].
      rewrite Hnil in Hin. by apply elem_of_nil in Hin.
Qed.

Lemma empty_iff_no_candidate_witness :
  get_available_qualities (InfoDict (Some catalog_1080)) 1 = Ok ranked_1080 ∧
  (video_mode 1 →
     (ranked_1080 = [] ↔
      ∀ f, f ∈ catalog_1080 → is_video_format f = false)) ∧
  (audio_mode 1 →
     (ranked_1080 = [] ↔ ∀ f, f ∈ catalog_1080 → has_audio f = false)).
Proof.
  split; [exact ranked_1080_run|].
  exact (empty_iff_no_candidate catalog_1080 1 ranked_1080 ranked_1080_run).
Defined.

(** ** When the audio branch raises *)

Lemma audio_quality_ext_ok f :
  ext_ok f = true → ∃ q, audio_quality f = Ok q.
Proof.
  unfold ext_ok, audio_quality, dict_get_or.
  destruct (f !! "ext") as [[| |s|]|]; simpl; try done; eauto.
Qed.

Lemma audio_quality_ext_bad f :
  ext_ok f = false → audio_quality f = Raise AttributeError.
Proof.
  unfold ext_ok, audio_quality, dict_get_or.
  by destruct (f !! "ext") as [[| |s|]|].
Qed.

Lemma audio_step_ext qd f :
  if ext_ok f then ∃ qd', audio_step qd f = Ok qd'
  else audio_step qd f = Raise AttributeError.
Proof.
  unfold audio_step. destruct (ext_ok f) eqn:Hf.
  - destruct (audio_quality_ext_ok f Hf) as [q ->]. simpl.
    destruct (qd_lookup q qd); by eexists.
  - by rewrite (audio_quality_ext_bad f Hf).
Qed.

Lemma audio_loop_ext l qd :
  if forallb ext_ok l then ∃ qd', foldM audio_step qd l = Ok qd'
  else foldM audio_step qd l = Raise AttributeError.
Proof.
  revert qd. induction l as [|f l IH]; intros qd; cbn [forallb foldM].
  - by exists qd.
  - pose proof (audio_step_ext qd f) as Hstep.
    destruct (ext_ok f); simpl.
    + destruct Hstep as [qd1 ->]. apply IH.
    + by rewrite Hstep.
Qed.

(** X5.  In an audio mode the ranker returns unless a candidate has an
    ['ext'] entry that is not a string (a [None], say), and then what it
    raises is [AttributeError]; no value of ['abr'] or ['acodec'] makes it
    raise. *)
Theorem audio_raises_exactly_on_bad_ext (formats : list fmt)
    (download_type : Z) :
  audio_mode download_type →
  if forallb ext_ok (audio_formats formats)
  then ∃ qs, get_available_qualities (InfoDict (Some formats)) download_type
             = Ok qs
  else get_available_qualities (InfoDict (Some formats)) download_type
       = Raise AttributeError.
Proof.
  intros Ha. rewrite get_available_qualities_audio by done.
  unfold audio_qualities.
  pose proof (audio_loop_ext (audio_formats formats) []) as Hloop.
  destruct (forallb ext_ok (audio_formats formats)).
  - destruct Hloop as [qd ->]. simpl.
    apply (py_sorted_rev_total py_lt audio_key (λ _, True)).
    + intros x y _ _. apply py_lt_numbers; apply audio_key_number.
    + by apply Forall_true.
  - by rewrite Hloop.
Qed.

Lemma audio_raises_exactly_on_bad_ext_witness :
  audio_mode 2 ∧
  if forallb ext_ok (audio_formats [audio_m4a_128; audio_ext_none])
  then ∃ qs, get_available_qualities
               (InfoDict (Some [audio_m4a_128; audio_ext_none])) 2 = Ok qs
  else get_available_qualities
         (InfoDict (Some [audio_m4a_128; audio_ext_none])) 2
       = Raise AttributeError.
Proof.
  split; [by left|].
  apply (audio_raises_exactly_on_bad_ext [audio_m4a_128; audio_ext_none] 2).
  by left.
Defined.

(** ** When the video branch raises *)

Lemma video_step_keeps_keys k qd f qd' :
  video_step qd f = Ok qd' →
  is_Some (qd_lookup k qd) → is_Some (qd_lookup k qd').
Proof.
  unfold video_step. intros (vcodec & _ & H)%bind_Ok Hk.
  destruct (truthy _); [|by injection H as <-].
  apply bind_Ok in H as (quality & _ & H).
  destruct (qd_lookup _ qd) as [cur|].
  - apply bind_Ok in H as ([|] & _ & [= <-]); [|done].
    rewrite qd_lookup_set. by case_decide.
  - injection H as <-. rewrite qd_lookup_set. by case_decide.
Qed.

Lemma video_step_none_tbr k qd f :
  quality_key f = Ok k → truthy (dict_get f "height") = true →
  f !! "tbr" = Some PNone → is_Some (qd_lookup k qd) →
  video_step qd f = Raise TypeError.
Proof.
  unfold quality_key, video_step.
  intros (vcodec & -> & (quality & -> & [= <-])%bind_Ok)%bind_Ok Hh Htbr
    [cur Hcur].
  simpl. rewrite Hh. simpl. rewrite Hcur.
  unfold fmt_tbr at 1, dict_get_or. rewrite Htbr. simpl.
  unfold py_gt, py_lt. by destruct (fmt_tbr (e_format cur)).
Qed.

(** X6.  In a video mode a catalog with a combined stream (video codec,
    audio codec and height) whose ['tbr'] is bound to [None] makes the
    ranker raise: the stream is visited twice and is compared on its second
    visit at the latest. *)
Theorem video_raises_on_combined_none_tbr (formats : list fmt)
    (download_type : Z) (f : fmt) :
  video_mode download_type →
  f ∈ formats → is_combined_format f = true → f !! "tbr" = Some PNone →
  ∃ e, get_available_qualities (InfoDict (Some formats)) download_type
       = Raise e.
Proof.
  intros Hv Hf Hc Htbr. rewrite get_available_qualities_video by done.
  assert (truthy (dict_get f "height") = true ∧ is_video_format f = true)
    as [Hh Hvf].
  { unfold is_combined_format in Hc. unfold is_video_format.
    apply andb_true_iff in Hc as [[-> _]%andb_true_iff ->]. done. }
  unfold video_qualities, all_formats. rewrite foldM_app.
  destruct (foldM video_step [] (video_formats formats)) as [qd1|e] eqn:H1;
    simpl; [|by exists e].
  apply (video_loop_inv _ []) in H1 as (_ & _ & Hrep); [|apply video_inv_nil].
  destruct (Hrep f) as (k & e1 & Hk & Hl & _); [|done|].
  { simpl. by apply elem_of_List_filter. }
  destruct (foldM_raises video_step (λ qd, is_Some (qd_lookup k qd)) f
              (combined_formats formats) qd1) as [e He].
  - intros s y s' Hs Hstep. by apply (video_step_keeps_keys k s y s').
  - intros s Hs. exists TypeError. by apply (video_step_none_tbr k).
  - by apply elem_of_List_filter.
  - by exists e1.
  - rewrite He. by exists e.
Qed.

Lemma video_raises_on_combined_none_tbr_witness :
  video_mode 1 ∧ combined_360_no_tbr ∈ [combined_360_no_tbr] ∧
  is_combined_format combined_360_no_tbr = true ∧
  combined_360_no_tbr !! "tbr" = Some PNone ∧
  ∃ e, get_available_qualities (InfoDict (Some [combined_360_no_tbr])) 1
       = Raise e.
Proof.
  assert (is_combined_format combined_360_no_tbr = true) as Hc
    by by_evaluation.
  assert (combined_360_no_tbr !! "tbr" = Some PNone) as Ht by by_evaluation.
  split; [by left|]. split; [apply list_elem_of_here|].
  split; [exact Hc|]. split; [exact Ht|].
  apply (video_raises_on_combined_none_tbr [combined_360_no_tbr] 1
           combined_360_no_tbr (or_introl eq_refl)
           (list_elem_of_here _ _) Hc Ht).
Defined.

Lemma video_step_bad_vcodec qd f v :
  f !! "vcodec" = Some v → (∀ s, v ≠ PStr s) →
  video_step qd f = Raise AttributeError.
Proof.
  intros Hv Hns. unfold video_step, fmt_vcodec, dict_get_or. rewrite Hv.
  destruct v as [| |s|]; simpl; try done. by destruct (Hns s).
Qed.

(** X7.  In a video mode a catalog with a stream that has a height and whose
    ['vcodec'] is bound to something that is not a string (a [None], say)
    makes the ranker raise: the default of [get] only covers a missing key,
    and [None] has no [split]. *)
Theorem video_raises_on_bad_vcodec (formats : list fmt) (download_type : Z)
    (f : fmt) (v : pyval) :
  video_mode download_type →
  f ∈ formats → truthy (dict_get f "height") = true →
  f !! "vcodec" = Some v → (∀ s, v ≠ PStr s) →
  ∃ e, get_available_qualities (InfoDict (Some formats)) download_type
       = Raise e.
Proof.
  intros Hm Hf Hh Hv Hns. rewrite get_available_qualities_video by done.
  assert (f ∈ all_formats formats) as Hin.
  { apply elem_of_all_formats. split; [done|].
    unfold is_video_format, py_ne, dict_get. rewrite Hv. simpl.
    assert (py_eq v (PStr "none") = false) as ->.
    { destruct v as [| |s|]; try done. unfold py_eq.
      apply bool_decide_eq_false_2. intros [= ->]. by destruct (Hns "none"). }
    simpl. unfold dict_get in Hh. done. }
  unfold video_qualities.
  destruct (foldM_raises video_step (λ _, True) f (all_formats formats) [])
    as [e ->]; try done.
  - intros s _. exists AttributeError. by eapply video_step_bad_vcodec.
  - by exists e.
Qed.

Lemma video_raises_on_bad_vcodec_witness :
  video_mode 3 ∧ stream_vcodec_none ∈ [stream_vcodec_none] ∧
  truthy (dict_get stream_vcodec_none "height") = true ∧
  stream_vcodec_none !! "vcodec" = Some PNone ∧
  (∀ s, PNone ≠ PStr s) ∧
  ∃ e, get_available_qualities (InfoDict (Some [stream_vcodec_none])) 3
       = Raise e.
Proof.
  assert (truthy (dict_get stream_vcodec_none "height") = true) as Hh
    by by_evaluation.
  assert (stream_vcodec_none !! "vcodec" = Some PNone) as Hv by by_evaluation.
  split; [by right|]. split; [apply list_elem_of_here|].
  split; [exact Hh|]. split; [exact Hv|]. split; [done|].
  apply (video_raises_on_bad_vcodec [stream_vcodec_none] 3
           stream_vcodec_none PNone (or_intror eq_refl)
           (list_elem_of_here _ _) Hh Hv).
  done.
Defined.

(** ** A stream listed twice *)

Lemma List_filter_app {A : Type} (p : A → bool) (l1 l2 : list A) :
  List.filter p (l1 ++ l2) = List.filter p l1 ++ List.filter p l2.
Proof.
  induction l1 as [|x l1 IH]; simpl; [done|].
  destruct (p x); simpl; by rewrite IH.
Qed.

Lemma audio_formats_snoc formats f :
  f ∈ formats →
  audio_formats (formats ++ [f]) = audio_formats formats ∨
  f ∈ audio_formats formats ∧
  audio_formats (formats ++ [f]) = audio_formats formats ++ [f].
Proof.
  intros Hf. unfold audio_formats. rewrite !List_filter_app. simpl.
  destruct (is_audio_only f) eqn:Ho.
  - right.
    assert (f ∈ List.filter is_audio_only formats) as Hin
      by by apply elem_of_List_filter.
    destruct (List.filter is_audio_only formats) as [|g gs];
      [by apply elem_of_nil in Hin|]. by split.
  - rewrite app_nil_r.
    destruct (List.filter is_audio_only formats) as [|g gs]; [|by left].
    destruct (has_audio f) eqn:Ha; [|left; by rewrite app_nil_r].
    right. split; [by apply elem_of_List_filter|done].
Qed.

Lemma safe_le_not_gt f g :
  pyval_le (fmt_safe_abr f) (fmt_safe_abr g) →
  safe_gt (fmt_safe_abr f) (fmt_safe_abr g) = false.
Proof.
  unfold fmt_safe_abr, safe_gt.
  destruct (safe_number_num (py_or (dict_get f "abr") (PInt 0)))
    as (x & Hx & Hxn).
  destruct (safe_number_num (py_or (dict_get g "abr") (PInt 0)))
    as (y & Hy & Hyn).
  rewrite Hx, Hy. intros Hle%(pyval_le_num _ _ _ _ Hx Hy).
  destruct (num_ltb y x) eqn:E; [|done].
  by apply num_ltb_true in E as [_ ?].
Qed.

Lemma audio_step_represented qd f k g :
  audio_quality f = Ok k → qd_lookup k qd = Some g →
  pyval_le (fmt_safe_abr f) (fmt_safe_abr g) → audio_step qd f = Ok qd.
Proof.
  intros Hk Hl Hle. unfold audio_step. rewrite Hk. simpl. rewrite Hl.
  by rewrite safe_le_not_gt.
Qed.

(** X8.  In an audio mode a stream that is listed once more at the end of
    the catalog changes nothing: the call returns the same ranking, or
    raises the same exception, as without the repetition. *)
Theorem audio_repetition_ignored (formats : list fmt) (download_type : Z)
    (f : fmt) :
  audio_mode download_type → f ∈ formats →
  get_available_qualities (InfoDict (Some (formats ++ [f]))) download_type
  = get_available_qualities (InfoDict (Some formats)) download_type.
Proof.
  intros Ha Hf. rewrite !get_available_qualities_audio by done.
  unfold audio_qualities.
  destruct (audio_formats_snoc formats f Hf) as [->|[Hin ->]]; [done|].
  rewrite foldM_app.
  destruct (foldM audio_step [] (audio_formats formats)) as [qd|e] eqn:Hloop;
    [|done].
  simpl.
  apply (audio_loop_rep _ []) in Hloop; [|apply audio_rep_nil].
  destruct (Hloop f Hin) as (k & g & Hk & Hl & Hle).
  by rewrite (audio_step_represented qd f k g).
Qed.

Lemma audio_repetition_ignored_witness :
  audio_mode 4 ∧ audio_m4a_128 ∈ catalog_mixed ∧
  get_available_qualities
    (InfoDict (Some (catalog_mixed ++ [audio_m4a_128]))) 4
  = get_available_qualities (InfoDict (Some catalog_mixed)) 4.
Proof.
  split; [by right|].
  split; [apply list_elem_of_further, list_elem_of_here|].
  apply (audio_repetition_ignored catalog_mixed 4 audio_m4a_128).
  - by right.
  - apply list_elem_of_further, list_elem_of_here.
Defined.

(** ** Stability of the sort *)

Section py_sorted_stable.
Context {A K : Type} (lt : K → K → result bool) (key : A → K).
Context (E : A → Prop) `{∀ x, Decision (E x)}.
Hypothesis lt_class : ∀ x y, E x → E y → lt (key x) (key y) ≠ Ok true.

Lemma insert_rev_filter x l l' :
  insert_rev lt key x l = Ok l' → filter E l' = filter E (x :: l).
Proof.
  revert l'. induction l as [|y l IH]; intros l'; simpl.
  - by intros [= <-].
  - intros (b & Hb & H0)%bind_Ok. destruct b; [|by injection H0 as <-].
    apply bind_Ok in H0 as (l'' & Hl'' & [= <-]).
    rewrite (filter_cons _ y), (IH _ Hl''), !(filter_cons _ x), (filter_cons _ y).
    repeat case_decide; try done. by destruct (lt_class x y).
Qed.

Lemma py_sorted_rev_filter l l' :
  py_sorted_rev lt key l = Ok l' → filter E l' = filter E l.
Proof.
  revert l'. induction l as [|x l IH]; intros l'; simpl.
  - by intros [= <-].
  - intros (s & Hs & H0)%bind_Ok.
    rewrite (insert_rev_filter _ _ _ H0), !(filter_cons _ x), (IH _ Hs).
    done.
Qed.

End py_sorted_stable.

(** ** [==] on numbers *)

Lemma num_eqb_sym a b : num_eqb a b = true → num_eqb b a = true.
Proof.
  destruct a as [| |p|], b as [| |q|]; simpl; try done.
  rewrite !Qeq_bool_iff. intros H0. by symmetry.
Qed.

Lemma num_eqb_trans a b c :
  num_eqb a b = true → num_eqb b c = true → num_eqb a c = true.
Proof.
  destruct a as [| |p|], b as [| |q|], c as [| |r|]; simpl; try done.
  rewrite !Qeq_bool_iff. intros H1 H2. by etrans.
Qed.

Lemma num_eqb_ltb a b : num_eqb a b = true → num_ltb a b = false.
Proof.
  destruct a as [| |p|], b as [| |q|]; simpl; try done.
  rewrite Qeq_bool_iff. intros H0. apply Qlt_bool_false. rewrite H0.
  apply Qle_refl.
Qed.

Lemma py_eq_cases a b :
  py_eq a b = true ↔
  (∃ x y, py_num a = Some x ∧ py_num b = Some y ∧ num_eqb x y = true) ∨
  (py_num a = None ∧ a = b).
Proof.
  split.
  - destruct a as [|m|s|u], b as [|n|t|v]; unfold py_eq, py_num;
      rewrite ?bool_decide_eq_true; try done;
      try (by intros ?; right); try (by intros H0; left; eexists _, _).
    intros [= ->]. left. eexists _, _. split; [done|]. split; [done|].
    simpl. by apply Qeq_bool_iff.
  - intros [(x & y & Hx & Hy & H0)|[Ha ->]].
    + destruct a as [|m|s|u], b as [|n|t|v]; unfold py_num in *; try done;
        injection Hx as <-; injection Hy as <-; unfold py_eq; try done.
      apply bool_decide_eq_true. f_equal.
      simpl in H0. apply Qeq_bool_iff in H0. exact (proj1 (inject_Z_injective _ _) H0).
    + destruct b as [|n|t|v]; try done; unfold py_eq;
        by apply bool_decide_eq_true.
Qed.

Lemma py_eq_trans_r a b r :
  py_eq a r = true → py_eq b r = true → py_eq a b = true.
Proof.
  rewrite !py_eq_cases.
  intros [(x & z & Hx & Hz & H1)|[Ha ->]] [(y & z' & Hy & Hz' & H2)|[Hb ->]].
  - left. exists x, y. split; [done|]. split; [done|].
    rewrite Hz in Hz'. injection Hz' as <-.
    eapply num_eqb_trans; [done|]. by apply num_eqb_sym.
  - congruence.
  - congruence.
  - by right.
Qed.

Lemma py_eq_lt a b : py_eq a b = true → py_lt a b ≠ Ok true.
Proof.
  intros [(x & y & Hx & Hy & H0)|[Ha ->]]%py_eq_cases.
  - rewrite (py_lt_num _ _ _ _ Hx Hy), (num_eqb_ltb _ _ H0). by intros [=].
  - destruct b as [|n|t|v]; unfold py_lt; try done.
    intros [_ Hne]%Ok_inj%string_ltb_true. done.
Qed.

Lemma same_rank_lt a b r :
  same_rank a r = true → same_rank b r = true → tuple_lt a b ≠ Ok true.
Proof.
  unfold same_rank, tuple_lt.
  intros [H1 H2]%andb_true_iff [H3 H4]%andb_true_iff.
  rewrite (py_eq_trans_r _ _ _ H1 H3), (py_eq_trans_r _ _ _ H2 H4). by intros [=].
Qed.

Lemma audio_key_eq q b :
  py_eq (audio_key q) b = py_eq (bitrate_or_zero q.2) b.
Proof.
  destruct (audio_key_bitrate q) as [->|(s & -> & ->)]; [done|].
  destruct b as [|n|t|v]; try done.
  unfold py_eq. destruct (decide (n = 0)) as [->|Hn]; [done|].
  rewrite bool_decide_eq_false_2 by congruence.
  symmetry. apply not_true_is_false. simpl. rewrite Qeq_bool_iff.
  intros H0. apply Hn. symmetry.
  exact (proj1 (inject_Z_injective 0 n) H0).
Qed.

(** ** The order of the keys *)

Lemma qd_set_add_key {V : Type} k (v : V) qd :
  (qd_set k v qd).*1 = add_key qd.*1 k.
Proof.
  unfold add_key. destruct (qd_lookup k qd) as [v0|] eqn:E.
  - rewrite qd_set_present_keys by done.
    rewrite decide_True; [done|].
    apply qd_lookup_elem in E. apply list_elem_of_fmap. by exists (k, v0).
  - rewrite qd_set_fresh by done. apply qd_lookup_None in E.
    rewrite decide_False by done. by rewrite fmap_app.
Qed.

Lemma qd_lookup_add_key {V : Type} k (v : V) qd :
  qd_lookup k qd = Some v → qd.*1 = add_key qd.*1 k.
Proof.
  intros E%qd_lookup_elem. unfold add_key. rewrite decide_True; [done|].
  apply list_elem_of_fmap. by exists (k, v).
Qed.

Lemma video_step_keys qd f qd' :
  video_step qd f = Ok qd' → truthy (dict_get f "height") = true →
  ∃ k, quality_key f = Ok k ∧ qd'.*1 = add_key qd.*1 k.
Proof.
  unfold video_step, quality_key. intros (vcodec & -> & H)%bind_Ok Hh.
  rewrite Hh in H. apply bind_Ok in H as (quality & -> & H). simpl.
  eexists. split; [done|].
  destruct (qd_lookup _ qd) as [cur|] eqn:Hcur.
  - apply bind_Ok in H as ([|] & _ & [= <-]).
    + apply qd_set_add_key.
    + by eapply qd_lookup_add_key.
  - injection H as <-. apply qd_set_add_key.
Qed.

Lemma video_loop_keys l qd qd' :
  foldM video_step qd l = Ok qd' →
  Forall (λ f, truthy (dict_get f "height") = true) l →
  ∃ ks, mapM quality_key l = Ok ks ∧ qd'.*1 = foldl add_key qd.*1 ks.
Proof.
  revert qd. induction l as [|f l IH]; intros qd; simpl.
  - intros [= <-] _. by exists [].
  - intros (qd1 & Hstep & Hrest)%bind_Ok [Hf Hl]%Forall_cons.
    destruct (video_step_keys _ _ _ Hstep Hf) as (k & -> & Hk).
    destruct (IH _ Hrest Hl) as (ks & -> & Hks).
    exists (k :: ks). split; [done|]. simpl. by rewrite <- Hk.
Qed.

Lemma audio_step_keys qd f qd' :
  audio_step qd f = Ok qd' →
  ∃ k, audio_quality f = Ok k ∧ qd'.*1 = add_key qd.*1 k.
Proof.
  unfold audio_step. intros (k & -> & H)%bind_Ok. exists k. split; [done|].
  destruct (qd_lookup k qd) as [cur|] eqn:Hcur; injection H as <-.
  - destruct (safe_gt _ _); [apply qd_set_add_key|by eapply qd_lookup_add_key].
  - apply qd_set_add_key.
Qed.

Lemma audio_loop_keys l qd qd' :
  foldM audio_step qd l = Ok qd' →
  ∃ ks, mapM audio_quality l = Ok ks ∧ qd'.*1 = foldl add_key qd.*1 ks.
Proof.
  revert qd. induction l as [|f l IH]; intros qd; simpl.
  - intros [= <-]. by exists [].
  - intros (qd1 & Hstep & Hrest)%bind_Ok.
    destruct (audio_step_keys _ _ _ Hstep) as (k & -> & Hk).
    destruct (IH _ Hrest) as (ks & -> & Hks).
    exists (k :: ks). split; [done|]. simpl. by rewrite <- Hk.
Qed.

Lemma filter_fmap_comm {A B : Type} (g : A → B) (P : B → Prop)
    `{∀ y, Decision (P y)} (l : list A) :
  filter P (g <$> l) = g <$> filter (P ∘ g) l.
Proof.
  induction l as [|x l IH]; [done|].
  rewrite fmap_cons, !filter_cons, IH. simpl. by case_decide.
Qed.

Lemma filter_ext_Forall {A : Type} (P Q : A → Prop)
    `{∀ x, Decision (P x)} `{∀ x, Decision (Q x)} (l : list A) :
  Forall (λ x, P x ↔ Q x) l → filter P l = filter Q l.
Proof.
  induction 1 as [|x l Hx Hl IH]; [done|].
  rewrite !filter_cons, IH. repeat case_decide; tauto.
Qed.

(** ** Ties keep the order of the catalog *)

(** X9.  On a catalog with no NaN among the heights, frame rates and
    bitrates, options of equal rank are listed in the order in which their
    groups first occur among the candidates: in a video mode the options
    of any one (resolution, frame rate), taken with their tier, and in an
    audio mode the options of any one bitrate follow the order of first
    occurrence of the grouping keys of the streams the loop visits.  Ranks
    are equal by [==], as 128 and 128.0 are. *)
Theorem ties_keep_catalog_order (formats : list fmt) (download_type : Z)
    (qs : list (string * fmt)) :
  Forall (λ f, rank_defined f = true) formats →
  get_available_qualities (InfoDict (Some formats)) download_type = Ok qs →
  (video_mode download_type →
   ∃ keys,
     mapM quality_key (all_formats formats) = Ok keys ∧
     ∀ r, (λ q, q.1 +:+ tier_suffix (premium_tier q.2)) <$>
            filter (λ q, same_rank (video_rank q.2) r = true) qs
          `sublist_of` keys_in_order keys) ∧
  (audio_mode download_type →
   ∃ labels,
     mapM audio_quality (audio_formats formats) = Ok labels ∧
     ∀ b, (filter (λ q, py_eq (bitrate_or_zero q.2) b = true) qs).*1
          `sublist_of` keys_in_order labels).
Proof.
  intros _ Hrun. split.
  - intros Hv. rewrite get_available_qualities_video in Hrun by done.
    unfold video_qualities in Hrun.
    apply bind_Ok in Hrun as (qd & Hloop & (sorted & Hsort & [= <-])%bind_Ok).
    destruct (video_loop_keys _ _ _ Hloop) as (keys & Hkeys & Hqd).
    { apply Forall_forall. intros f. apply all_formats_height. }
    exists keys. split; [done|]. intros r.
    apply (video_loop_inv _ []) in Hloop as (Hnd & Hent & _);
      [|apply video_inv_nil].
    pose proof (py_sorted_rev_perm _ _ _ _ Hsort) as Hperm.
    assert (∀ k e, (k, e) ∈ qd → entry_ok k e) as Hall.
    { intros k e Hin. apply elem_qd_lookup in Hin; [|done]. by apply Hent. }
    unfold keys_in_order. change ([] : list string) with ([] : list (string * entry)).*1.
    rewrite <- Hqd.
    rewrite filter_fmap_comm, <- list_fmap_compose.
    rewrite (filter_ext_Forall _ (λ e, same_rank (entry_key e) r = true));
      last first.
    { apply Forall_forall. intros e He. simpl. rewrite <- Hperm in He.
      apply list_elem_of_fmap in He as ([k e'] & -> & Hin).
      destruct (Hall _ _ Hin) as [_ _ Hr _]. simpl in *. by rewrite Hr. }
    rewrite (py_sorted_rev_filter tuple_lt entry_key
               (λ e, same_rank (entry_key e) r = true)
               (λ x y, same_rank_lt _ _ r) qd.*2 sorted Hsort).
    assert (qd.*1 = (λ e, e_display e +:+
                          tier_suffix (premium_tier (e_format e))) <$> qd.*2)
      as ->.
    { rewrite (fmap_snd_fst_agree _ id qd); [by rewrite list_fmap_id|].
      intros k e Hin. destruct (Hall _ _ Hin) as [Hk Hd _ _]. simpl.
      symmetry. by apply quality_key_label. }
    apply fmap_sublist, sublist_filter.
  - intros Ha. rewrite get_available_qualities_audio in Hrun by done.
    unfold audio_qualities in Hrun.
    apply bind_Ok in Hrun as (qd & Hloop & Hsort).
    destruct (audio_loop_keys _ _ _ Hloop) as (labels & Hlabels & Hqd).
    exists labels. split; [done|]. intros b.
    unfold keys_in_order. change ([] : list string) with ([] : list (string * fmt)).*1.
    rewrite <- Hqd.
    rewrite (filter_ext_Forall _ (λ q, py_eq (audio_key q) b = true));
      last first.
    { apply Forall_forall. intros q _. by rewrite audio_key_eq. }
    rewrite (py_sorted_rev_filter py_lt audio_key
               (λ q, py_eq (audio_key q) b = true)
               (λ x y Hx Hy, py_eq_lt _ _ (py_eq_trans_r _ _ b Hx Hy))
               qd qs Hsort).
    apply fmap_sublist, sublist_filter.
Qed.

Lemma ties_keep_catalog_order_witness :
  (Forall (λ f, rank_defined f = true) catalog_video_ties ∧
   get_available_qualities (InfoDict (Some catalog_video_ties)) 1
   = Ok ranked_video_ties ∧
   ∃ keys,
     mapM quality_key (all_formats catalog_video_ties) = Ok keys ∧
     ∀ r, (λ q, q.1 +:+ tier_suffix (premium_tier q.2)) <$>
            filter (λ q, same_rank (video_rank q.2) r = true)
                   ranked_video_ties
          `sublist_of` keys_in_order keys) ∧
  (Forall (λ f, rank_defined f = true) catalog_audio_ties ∧
   get_available_qualities (InfoDict (Some catalog_audio_ties)) 2
   = Ok ranked_audio_ties ∧
   ∃ labels,
     mapM audio_quality (audio_formats catalog_audio_ties) = Ok labels ∧
     ∀ b, (filter (λ q, py_eq (bitrate_or_zero q.2) b = true)
                  ranked_audio_ties).*1
          `sublist_of` keys_in_order labels).
Proof.
  assert (Forall (λ f, rank_defined f = true) catalog_video_ties) as Hv
    by (repeat constructor).
  assert (Forall (λ f, rank_defined f = true) catalog_audio_ties) as Ha
    by (repeat constructor).
  assert (get_available_qualities (InfoDict (Some catalog_video_ties)) 1
          = Ok ranked_video_ties) as Hrv by by_evaluation.
  assert (get_available_qualities (InfoDict (Some catalog_audio_ties)) 2
          = Ok ranked_audio_ties) as Hra by by_evaluation.
  split.
  - split; [exact Hv|]. split; [exact Hrv|].
    exact (proj1 (ties_keep_catalog_order catalog_video_ties 1
                    ranked_video_ties Hv Hrv) (or_introl eq_refl)).
  - split; [exact Ha|]. split; [exact Hra|].
    exact (proj2 (ties_keep_catalog_order catalog_audio_ties 2
                    ranked_audio_ties Ha Hra) (or_introl eq_refl)).
Defined.

(** The ties of the two catalogs of the witness: at 720 lines and 30
    frames per second the standard stream, seen first, stays before the
    premium one, the frame rate of one being the integer 30 and of the
    other the float 30.0; at 128 kbit/s the stream with the integer
    bitrate, seen first, stays before the one with the float 128.0. *)
Lemma catalog_ties_examples :
  filter (λ q, same_rank (video_rank q.2) (PInt 720, PInt 30) = true)
         ranked_video_ties
  = [("720p", video_720_avc1_30); ("720p", video_720_vp9_30)] ∧
  ranked_video_ties !! 0%nat = Some ("1080p59.94", video_1080_5994) ∧
  filter (λ q, py_eq (bitrate_or_zero q.2) (PInt 128) = true)
         ranked_audio_ties
  = [("M4A - 128kbps (mp4a.40.2)", audio_m4a_128);
     ("WEBM - 128.0kbps (opus)", audio_webm_128)].
Proof. repeat split; by_evaluation. Qed.

(** ** Stripping *)

Lemma str_rstrip_idemp s : str_rstrip (str_rstrip s) = str_rstrip s.
Proof.
  induction s as [|c s IH]; simpl; [done|].
  destruct (is_space c && String.eqb (str_rstrip s) "") eqn:E; [done|].
  simpl. by rewrite IH, E.
Qed.

Lemma str_lstrip_rstrip s :
  str_lstrip s = s → str_lstrip (str_rstrip s) = str_rstrip s.
Proof.
  destruct s as [|c s]; [done|]. simpl.
  destruct (is_space c) eqn:Hc; simpl.
  - intros H. exfalso.
    assert (∀ t, String.length (str_lstrip t) ≤ String.length t)%nat as Hlen.
    { clear. induction t as [|d t IH]; simpl; [lia|].
      destruct (is_space d); simpl; lia. }
    pose proof (Hlen s) as Hs. rewrite H in Hs. simpl in Hs. lia.
  - intros _. by rewrite Hc.
Qed.

Lemma str_lstrip_idemp s : str_lstrip (str_lstrip s) = str_lstrip s.
Proof.
  induction s as [|c s IH]; simpl; [done|].
  destruct (is_space c) eqn:Hc; [done|]. simpl. by rewrite Hc.
Qed.

Lemma str_strip_idemp s : str_strip (str_strip s) = str_strip s.
Proof.
  unfold str_strip.
  rewrite (str_lstrip_rstrip (str_lstrip s)) by apply str_lstrip_idemp.
  apply str_rstrip_idemp.
Qed.

(** X10.  On input lines of ASCII text, a URL that [get_url_input]
    returns is a line of the input with the surrounding whitespace
    removed; it is not empty and is not ['back'] in any letter case, and
    every line read before it was blank. *)
Theorem get_url_input_entered (lines rest : list string) (url : string) :
  Forall (λ l, is_ascii l = true) lines →
  get_url_input lines = (Returns (Some url), rest) →
  ∃ blanks line,
    lines = blanks ++ line :: rest ∧
    Forall (λ l, str_strip l = "") blanks ∧
    url = str_strip line ∧ str_strip url = url ∧
    url ≠ "" ∧ str_lower url ≠ "back".
Proof.
  intros _. induction lines as [|l lines IH]; simpl; [done|].
  destruct (String.eqb_spec (str_lower (str_strip l)) "back") as [|Hb];
    [done|].
  destruct (String.eqb_spec (str_strip l) "") as [He|Hne]; simpl.
  - intros (blanks & line & -> & Hbl & Hrest)%IH.
    exists (l :: blanks), line. split; [done|]. split; [by constructor|done].
  - intros [= <- <-]. exists [], l. split; [done|]. split; [constructor|].
    split; [done|]. split; [apply str_strip_idemp|done].
Qed.

Lemma get_url_input_entered_witness :
  Forall (λ l, is_ascii l = true)
         ["   "; "  https://example.com/watch?v=1 "; "back"] ∧
  get_url_input ["   "; "  https://example.com/watch?v=1 "; "back"]
  = (Returns (Some "https://example.com/watch?v=1"), ["back"]) ∧
  ∃ blanks line,
    ["   "; "  https://example.com/watch?v=1 "; "back"]
    = blanks ++ line :: ["back"] ∧
    Forall (λ l, str_strip l = "") blanks ∧
    "https://example.com/watch?v=1" = str_strip line ∧
    str_strip "https://example.com/watch?v=1"
    = "https://example.com/watch?v=1" ∧
    "https://example.com/watch?v=1" ≠ "" ∧
    str_lower "https://example.com/watch?v=1" ≠ "back".
Proof.
  assert (get_url_input ["   "; "  https://example.com/watch?v=1 "; "back"]
          = (Returns (Some "https://example.com/watch?v=1"), ["back"]))
    as Hrun by by_evaluation.
  assert (Forall (λ l, is_ascii l = true)
            ["   "; "  https://example.com/watch?v=1 "; "back"]) as Hascii
    by (repeat constructor).
  split; [exact Hascii|]. split; [exact Hrun|].
  exact (get_url_input_entered _ _ _ Hascii Hrun).
Defined.

(** ** The prompt *)

Lemma select_quality_returns qualities answers rest v :
  select_quality qualities answers = (Returns v, rest) →
  ∃ skipped c,
    answers = skipped ++ Some c :: rest ∧
    Forall (asks_again qualities) skipped ∧
    (c = 0 ∧ v = PNone ∨
     ∃ q, 1 ≤ c ≤ Z.of_nat (length qualities) ∧
          qualities !! Z.to_nat (c - 1) = Some q ∧
          q.2 !! "format_id" = Some v).
Proof.
  induction answers as [|[c|] answers IH]; simpl; [done| |].
  - destruct (Z.eqb_spec c 0) as [->|Hc0].
    { intros [= <- <-]. exists [], 0. split; [done|].
      split; [constructor|]. by left. }
    destruct (Z.leb_spec 1 c) as [H1|H1];
      [destruct (Z.leb_spec c (Z.of_nat (length qualities))) as [H2|H2]|];
      simpl.
    + destruct (lookup_lt_is_Some_2 qualities (Z.to_nat (c - 1))) as [q Hq];
        [lia|].
      rewrite (list_lookup_total_correct _ _ _ Hq).
      destruct (q.2 !! "format_id") as [fid|] eqn:Hfid; [|done].
      intros [= <- <-]. exists [], c. split; [done|].
      split; [constructor|]. right. by exists q.
    + intros (skipped & c' & -> & Hsk & Hc')%IH.
      exists (Some c :: skipped), c'. split; [done|]. split; [|done].
      constructor; [|done]. simpl. split; [done|]. lia.
    + intros (skipped & c' & -> & Hsk & Hc')%IH.
      exists (Some c :: skipped), c'. split; [done|]. split; [|done].
      constructor; [|done]. simpl. split; [done|]. lia.
  - intros (skipped & c' & -> & Hsk & Hc')%IH.
    exists (None :: skipped), c'. split; [done|]. split; [|done].
    by constructor.
Qed.

(** X11.  When [display_qualities] returns, it returns for the first answer
    that is 0 or the number of an option, every answer before it having been
    refused: [None] for 0 and for an empty menu, which reads no answer; else
    the ['format_id'] of the option with that number. *)
Theorem display_qualities_returns (qualities : list (string * fmt))
    (download_type : Z) (answers rest : list (option Z)) (v : pyval) :
  display_qualities qualities download_type answers = (Returns v, rest) →
  (qualities = [] ∧ v = PNone ∧ rest = answers) ∨
  ∃ skipped c,
    answers = skipped ++ Some c :: rest ∧
    Forall (asks_again qualities) skipped ∧
    (c = 0 ∧ v = PNone ∨
     ∃ q, 1 ≤ c ≤ Z.of_nat (length qualities) ∧
          qualities !! Z.to_nat (c - 1) = Some q ∧
          q.2 !! "format_id" = Some v).
Proof.
  unfold display_qualities. destruct qualities as [|q0 qualities].
  - intros [= <- <-]. by left.
  - destruct (display_labels _ _); [|done].
    intros H. right. by apply select_quality_returns.
Qed.

Lemma display_qualities_returns_witness :
  display_qualities ranked_1080 1 [None; Some 7; Some 2; Some 1]
  = (Returns (PStr "137"), [Some 1]) ∧
  ((ranked_1080 = [] ∧ PStr "137" = PNone ∧
    [Some 1] = [None; Some 7; Some 2; Some 1]) ∨
   ∃ skipped c,
     [None; Some 7; Some 2; Some 1] = skipped ++ Some c :: [Some 1] ∧
     Forall (asks_again ranked_1080) skipped ∧
     (c = 0 ∧ PStr "137" = PNone ∨
      ∃ q, 1 ≤ c ≤ Z.of_nat (length ranked_1080) ∧
           ranked_1080 !! Z.to_nat (c - 1) = Some q ∧
           q.2 !! "format_id" = Some (PStr "137"))).
Proof.
  assert (display_qualities ranked_1080 1 [None; Some 7; Some 2; Some 1]
          = (Returns (PStr "137"), [Some 1])) as Hrun by by_evaluation.
  split; [exact Hrun|].
  exact (display_qualities_returns ranked_1080 1 _ _ _ Hrun).
Defined.

(** ** From the catalog to the download *)

Lemma option_is_candidate formats download_type qs q :
  get_available_qualities (InfoDict (Some formats)) download_type = Ok qs →
  q ∈ qs →
  q.2 ∈ formats ∧
  (video_mode download_type ∧ is_video_format q.2 = true ∨
   audio_mode download_type ∧ has_audio q.2 = true).
Proof.
  intros [(fs & [= <-] & Hv & H)|[(fs & [= <-] & Ha & H)|[[_ ->]|[_ ->]]]]
    %get_available_qualities_cases Hq.
  - apply video_qualities_inv in H as (_ & Hall & _).
    rewrite Forall_forall in Hall.
    destruct (Hall q Hq) as (_ & _ & [Hin Hc]%elem_of_all_formats).
    split; [done|]. by left.
  - apply audio_qualities_inv in H as (_ & Hall & _).
    rewrite Forall_forall in Hall.
    destruct (Hall q Hq) as (_ & Hin). unfold audio_formats in Hin.
    assert (q.2 ∈ formats ∧ has_audio q.2 = true) as [? ?]; [|by auto].
    destruct (List.filter is_audio_only formats) as [|g gs] eqn:E.
    + by apply elem_of_List_filter in Hin.
    + rewrite <- E in Hin. apply elem_of_List_filter in Hin as [? Hc].
      split; [done|]. unfold is_audio_only in Hc.
      by apply andb_true_iff in Hc as [? _].
  - by apply elem_of_nil in Hq.
  - by apply elem_of_nil in Hq.
Qed.

(** X12.  [main] only starts a download with a format identifier that is
    truthy and is the ['format_id'] of a stream of the catalog that passes
    the filter of the chosen mode, the choice being one of 1 to 4. *)
Theorem download_starts_with_catalog_format (formats : list fmt)
    (choice : Z) (answers rest : list (option Z)) (format_id : pyval) :
  choose_format (InfoDict (Some formats)) choice answers
  = (Returns (StartDownload format_id), rest) →
  truthy format_id = true ∧
  ∃ f, f ∈ formats ∧ f !! "format_id" = Some format_id ∧
       (video_mode choice ∧ is_video_format f = true ∨
        audio_mode choice ∧ has_audio f = true).
Proof.
  unfold choose_format.
  destruct (get_available_qualities _ _) as [qs|e] eqn:Hrun; [|done].
  destruct qs as [|q0 qs']; [done|]. set (qs := q0 :: qs') in *.
  destruct (display_qualities qs choice answers) as [[v|e] rest'] eqn:Hdq;
    [|done].
  destruct (truthy v) eqn:Hv; [|done]. intros [= <- <-].
  split; [done|].
  unfold display_qualities, qs in Hdq. fold qs in Hdq.
  destruct (display_labels qs choice); [|done].
  apply select_quality_returns in Hdq
    as (skipped & c & _ & _ & [[_ ->]|(q & _ & Hq & Hfid)]); [done|].
  apply list_elem_of_lookup_2 in Hq.
  destruct (option_is_candidate _ _ _ _ Hrun Hq) as [Hin Hc].
  by exists q.2.
Qed.

Lemma download_starts_with_catalog_format_witness :
  choose_format (InfoDict (Some catalog_1080)) 1 [Some 1]
  = (Returns (StartDownload (PStr "299")), []) ∧
  truthy (PStr "299") = true ∧
  ∃ f, f ∈ catalog_1080 ∧ f !! "format_id" = Some (PStr "299") ∧
       (video_mode 1 ∧ is_video_format f = true ∨
        audio_mode 1 ∧ has_audio f = true).
Proof.
  assert (choose_format (InfoDict (Some catalog_1080)) 1 [Some 1]
          = (Returns (StartDownload (PStr "299")), [])) as Hrun
    by by_evaluation.
  split; [exact Hrun|].
  exact (download_starts_with_catalog_format catalog_1080 1 _ _ _ Hrun).
Defined.

(** ** The menu after a ranking *)

Lemma str_app_assoc (a b c : string) : (a +:+ b) +:+ c = a +:+ b +:+ c.
Proof.
  induction a as [|x a IH]; [done|].
  change (String x ((a +:+ b) +:+ c) = String x (a +:+ b +:+ c)).
  by rewrite IH.
Qed.

Lemma fps_above_30_get f b :
  fps_above_30 (dict_get_or f "fps" (PInt 30)) = Ok b →
  fps_above_30 (dict_get f "fps") = Ok b.
Proof.
  unfold dict_get_or, dict_get. destruct (f !! "fps"); [done|].
  by intros [= <-].
Qed.

Lemma fmt_vcodec_unknown f c :
  fmt_vcodec f = Ok c →
  ∃ c', py_split_first (dict_get_or f "vcodec" (PStr "unknown")) = Ok c' ∧
        is_premium c' = is_premium c.
Proof.
  unfold fmt_vcodec, dict_get_or. destruct (f !! "vcodec") as [v|]; simpl.
  - intros H. by exists c.
  - intros [= <-]. by eexists.
Qed.

Lemma fps_above_30_note f hi :
  fps_above_30 (dict_get f "fps") = Ok hi →
  (if hi then " " +:+ py_str (dict_get f "fps") +:+ "fps" else "")
  = fps_note f.
Proof.
  unfold fps_above_30, fps_note, py_gt.
  destruct (truthy (dict_get f "fps")) eqn:Ht.
  - intros [(x & y & [= <-] & -> & ->)|(s & t & [=] & _)]%py_lt_cases. done.
  - intros [= <-]. by destruct (py_num _).
Qed.

Lemma video_label_ranked q k :
  fmt_quality q.2 = Ok q.1 → quality_key q.2 = Ok k →
  filesize_ok q.2 = true → video_label q = Ok (menu_line q).
Proof.
  unfold menu_line, size_note, filesize_ok, fmt_filesize, quality_key,
    fmt_quality, video_label, premium_tier.
  intros (hi & Hhi & _)%bind_Ok (c & Hc & _)%bind_Ok Hsize.
  destruct (fmt_vcodec_unknown _ _ Hc) as (c' & -> & Hp). rewrite Hc.
  simpl. rewrite (fps_above_30_get _ _ Hhi). simpl. rewrite Hp.
  rewrite (fps_above_30_note _ _ (fps_above_30_get _ _ Hhi)).
  destruct (py_or _ _) as [|n|s|x]; simpl.
  - by rewrite 2!str_app_assoc.
  - destruct (negb (n =? 0)); simpl; [|by rewrite 2!str_app_assoc].
    unfold format_size_mb, size_mb.
    destruct (binary_normalize prec emax n (-20) false); try done;
      simpl; by rewrite 2!str_app_assoc.
  - apply String.eqb_eq in Hsize as ->. simpl.
    by rewrite 2!str_app_assoc.
  - destruct x; simpl; by rewrite 2!str_app_assoc.
Qed.

Lemma mapM_fmap {A B : Type} (g : A → result B) (h : A → B) l :
  Forall (λ x, g x = Ok (h x)) l → mapM g l = Ok (h <$> l).
Proof.
  induction 1 as [|x l Hx Hl IH]; simpl; [done|].
  by rewrite Hx, IH.
Qed.

(** X13.  In a video mode, after the ranker has returned, the menu of
    [display_qualities] is worded for all its options unless a file size
    is a string or an integer too large to divide: the line of an option
    is the ranker's label, then the frame rate when it is above 30, then
    [" (Premium)"] when the backing stream is of the premium tier, then the
    size in MiB when one is known. *)
Theorem menu_after_ranking (i : info) (download_type : Z)
    (qs : list (string * fmt)) :
  video_mode download_type →
  get_available_qualities i download_type = Ok qs →
  Forall (λ q, filesize_ok q.2 = true) qs →
  display_labels qs download_type = Ok (menu_line <$> qs).
Proof.
  intros Hv Hrun Hsize. unfold display_labels.
  rewrite bool_decide_eq_true_2 by done.
  apply mapM_fmap.
  apply get_available_qualities_cases in Hrun
    as [(fs & -> & _ & H)|[(fs & -> & Ha & H)|[[Hn ->]|[_ ->]]]];
    [| |constructor..].
  - apply video_qualities_inv in H as (_ & Hall & _).
    rewrite Forall_forall in Hall, Hsize |- *. intros q Hq.
    destruct (Hall q Hq) as (Hl & Hk & _).
    by apply (video_label_ranked q _ Hl Hk), Hsize.
  - unfold video_mode in Hv. unfold audio_mode in Ha. lia.
Qed.

Lemma menu_after_ranking_witness :
  video_mode 1 ∧
  get_available_qualities (InfoDict (Some catalog_menu)) 1 = Ok ranked_menu ∧
  Forall (λ q, filesize_ok q.2 = true) ranked_menu ∧
  display_labels ranked_menu 1 = Ok (menu_line <$> ranked_menu).
Proof.
  assert (get_available_qualities (InfoDict (Some catalog_menu)) 1
          = Ok ranked_menu) as Hrun by by_evaluation.
  assert (Forall (λ q, filesize_ok q.2 = true) ranked_menu) as Hs.
  { repeat constructor; by_evaluation. }
  split; [by left|]. split; [exact Hrun|]. split; [exact Hs|].
  exact (menu_after_ranking (InfoDict (Some catalog_menu)) 1 ranked_menu
           (or_introl eq_refl) Hrun Hs).
Defined.

(** The menu of the witness, and two sizes that cannot be shown. *)
Lemma menu_examples :
  menu_line <$> ranked_menu
  = ["1080p59.94 59.94fps (Premium) (~50.0MB)"; "720p (~1.2MB)"; "480p"] ∧
  video_label ("720p", <["filesize" := PStr "1 MB"]> menu_720)
  = Raise TypeError ∧
  video_label ("720p", <["filesize" := PInt (10 ^ 400)]> menu_720)
  = Raise OverflowError.
Proof. repeat split; by_evaluation. Qed.

(** ** The URL check of [main] *)

Lemma playlist_indicators_lower indicator :
  indicator ∈ playlist_indicators → str_lower indicator = indicator.
Proof.
  unfold playlist_indicators. rewrite !elem_of_cons.
  intros [->|[->|[->|[->|H]]]]; [done..|by apply elem_of_nil in H].
Qed.

Lemma is_playlist_indicator url :
  is_playlist url = true ↔
  ∃ indicator, indicator ∈ playlist_indicators ∧
               contains_ignoring_case indicator url.
Proof.
  unfold is_playlist. rewrite existsb_exists. split.
  - intros (ind & Hin%list_elem_of_In & H). exists ind. split; [done|].
    apply contains_ignoring_case_spec.
    by rewrite (playlist_indicators_lower _ Hin).
  - intros (ind & Hin & H). exists ind. split; [by apply list_elem_of_In|].
    apply contains_ignoring_case_spec in H.
    by rewrite (playlist_indicators_lower _ Hin) in H.
Qed.

(** X15.  A URL that is classified as a playlist stays one whatever is put
    before it and after it: adding a scheme, a path or query parameters
    never turns a playlist URL into a single-video URL. *)
Theorem is_playlist_extend (url before after : string) :
  is_playlist url = true →
  is_playlist (before +:+ url +:+ after) = true.
Proof.
  rewrite !is_playlist_indicator.
  intros (ind & Hin & pre & mid & post & -> & Hmid).
  exists ind. split; [done|].
  exists (before +:+ pre), mid, (post +:+ after). split; [|done].
  by rewrite !str_app_assoc.
Qed.

Lemma is_playlist_extend_witness :
  is_playlist "list=PL1" = true ∧
  is_playlist ("https://example.com/watch?v=1&" +:+ "list=PL1" +:+ "&t=3")
  = true.
Proof.
  split; [by_evaluation|].
  apply (is_playlist_extend "list=PL1"). by_evaluation.
Defined.

Lemma lower_upper_ascii c : lower_ascii (upper_ascii c) = lower_ascii c.
Proof. by destruct c as [[] [] [] [] [] [] [] []]. Qed.

Lemma lower_lower_ascii c : lower_ascii (lower_ascii c) = lower_ascii c.
Proof. by destruct c as [[] [] [] [] [] [] [] []]. Qed.

Lemma str_map_map g h s : str_map g (str_map h s) = str_map (g ∘ h) s.
Proof. induction s as [|c s IH]; simpl; [done|]. by rewrite IH. Qed.

Lemma str_map_ext g h s : (∀ c, g c = h c) → str_map g s = str_map h s.
Proof.
  intros Hgh. induction s as [|c s IH]; simpl; [done|]. by rewrite IH, Hgh.
Qed.

(** X16.  The classification does not depend on the case of the letters of
    the URL: the URL in upper case and the URL in lower case are classified
    as the URL itself. *)
Theorem is_playlist_case (url : string) :
  is_playlist (str_upper url) = is_playlist url ∧
  is_playlist (str_lower url) = is_playlist url.
Proof.
  unfold is_playlist, str_upper, str_lower.
  rewrite !str_map_map.
  rewrite (str_map_ext (lower_ascii ∘ upper_ascii) lower_ascii)
    by apply lower_upper_ascii.
  rewrite (str_map_ext (lower_ascii ∘ lower_ascii) lower_ascii)
    by apply lower_lower_ascii.
  done.
Qed.

(** X17.  For each of the choices 1 to 4, [main] goes on with a URL exactly
    when the URL is of the kind the choice is for: a URL that contains one
    of the playlist indicators, letter case ignored, for the choices 3 and
    4, any other URL for the choices 1 and 2. *)
Theorem url_matches_choice_spec (choice : Z) (url : string) :
  1 ≤ choice ≤ 4 →
  (url_matches_choice choice url = true ↔
   ((choice = 3 ∨ choice = 4) ↔
    ∃ indicator, indicator ∈ playlist_indicators ∧
                 contains_ignoring_case indicator url)).
Proof.
  intros Hc. rewrite <- is_playlist_indicator. unfold url_matches_choice.
  destruct (is_playlist url); repeat case_bool_decide; simpl;
    intuition (try done; try lia).
Qed.

Lemma url_matches_choice_spec_witness :
  1 ≤ 3 ≤ 4 ∧
  (url_matches_choice 3 "https://example.com/Playlist/7" = true ↔
   ((3 = 3 ∨ 3 = 4) ↔
    ∃ indicator, indicator ∈ playlist_indicators ∧
                 contains_ignoring_case indicator
                   "https://example.com/Playlist/7")).
Proof.
  split; [lia|].
  apply (url_matches_choice_spec 3 "https://example.com/Playlist/7"). lia.
Defined.

(** ** What the chosen format decides *)

Lemma str_app_inj_r (a b s : string) : a +:+ s = b +:+ s → a = b.
Proof.
  revert b. induction a as [|x a IH]; intros [|y b] H; [done| | |].
  - exfalso. apply (f_equal String.length) in H.
    rewrite !str_length_app in H. simpl in H. lia.
  - exfalso. apply (f_equal String.length) in H.
    rewrite !str_length_app in H. simpl in H. lia.
  - injection H as -> H. by rewrite (IH b H).
Qed.

(** X18.  Of the options of [download_video] only the format selector
    depends on the chosen format identifier, and the selector tells the
    identifier's text: in each of the four modes two identifiers give the
    same selector only if their texts are equal, and they give the same
    output template, merge format and post-processors. *)
Theorem format_id_only_in_selector (id1 id2 : pyval) (download_type : Z)
    (output_path : option string) (o1 o2 : ydl_opts) :
  download_video_opts id1 download_type output_path = Some o1 →
  download_video_opts id2 download_type output_path = Some o2 →
  o_outtmpl o1 = o_outtmpl o2 ∧
  o_merge_output_format o1 = o_merge_output_format o2 ∧
  o_postprocessors o1 = o_postprocessors o2 ∧
  (o_format o1 = o_format o2 → py_str id1 = py_str id2).
Proof.
  unfold download_video_opts.
  repeat case_match; try done; intros [= <-] [= <-]; simpl;
    (repeat split; [by apply str_app_inj_r]).
Qed.

Lemma format_id_only_in_selector_witness :
  ∃ o1 o2,
    download_video_opts (PStr "137") 1 None = Some o1 ∧
    download_video_opts (PStr "299") 1 None = Some o2 ∧
    o_outtmpl o1 = o_outtmpl o2 ∧
    o_merge_output_format o1 = o_merge_output_format o2 ∧
    o_postprocessors o1 = o_postprocessors o2 ∧
    (o_format o1 = o_format o2 → py_str (PStr "137") = py_str (PStr "299")).
Proof.
  eexists _, _. split; [reflexivity|]. split; [reflexivity|].
  apply (format_id_only_in_selector (PStr "137") (PStr "299") 1 None);
    reflexivity.
Defined.
